(** * MACI core: a shallow embedding of [core/ts/Poll.ts]

    The [Poll] class is the coordinator's off-chain mirror of a MACI poll.
    This development embeds its message ingest, its command state machine
    ([processMessage]), the batch processor ([processMessages]), the tally
    and subsidy engines and the JSON round trip, and states the properties
    of the specification over that embedding.

    Conventions
    - a JavaScript [bigint] is a [Z]; a JavaScript [number] that counts or
      indexes is a [nat], except [currentMessageBatchIndex], which the code
      computes by subtraction and then checks, and is a [number]: an
      integer or [NaN];
    - [undefined] is [None];
    - a method that reads and writes [this] is a state transformer that
      returns the state it reached together with either its value or the
      exception it raised: a write made before a [throw] stays made;
    - code of the packages [maci-crypto] and [maci-domainobjs] and of
      [core/ts/utils] and [core/ts/MaciState.ts] is not part of [Poll.ts];
      hashes, encryption, signatures and Merkle paths are the fields of the
      class [Externals], and the few data types Poll.ts manipulates field by
      field are modelled from the specification. *)

From Stdlib Require Import ZArith Lia.
From stdpp Require Import base option list gmap strings pretty.

(** ** Record update

    [r <| proj := v |>] is [r] with the field [proj] set to [v]; a setter is
    obtained from the eta expansion of the record. *)

Class Setter {R A : Type} (proj : R -> A) := set : A -> R -> R.
Arguments set {R A} proj {Setter} _ _ /.

Ltac build_setter eta proj :=
  lazymatch type of proj with
  | ?R -> ?A =>
    let body := constr:(fun (v : A) (r : R) =>
      ltac:(let e := eval cbv beta delta [eta] in (eta r) in
            lazymatch eval pattern (proj r) in e with
            | ?f _ => let t := eval cbv beta in (f v) in exact t
            end)) in
    exact body
  end.

Notation "r <| proj := v |>" := (set proj v r)
  (at level 1, left associativity, format "r  <| proj  :=  v |>").

(** ** Exceptions and results *)

(** Modelled from the spec: the error kinds of [utils/errors.ts], as §7 of the
    specification lists them. *)
Inductive ProcessMessageErrors :=
| InvalidStateLeafIndex
| InvalidSignature
| InvalidNonce
| InvalidVoteOptionIndex
| InsufficientVoiceCredits
| FailedDecryption.

(** What a [throw] carries. [JsError] stands for every exception that is
    neither a [ProcessMessageError] nor a failed [assert]: a property read on
    [undefined], [BigInt] of something that is no integer, a division by
    [0n], an error of a library. [OutOfModel] is not a JavaScript exception:
    it ends a run this embedding does not follow any further (the salt loop
    of [processMessages] past its budget of draws, a [number] product that
    double precision would round). *)
Inductive exn :=
| ProcessMessageError (kind : ProcessMessageErrors)
| AssertionError (msg : string)
| JsError
| OutOfModel (why : string).

(** A JavaScript [number] that holds an integer or [NaN]. *)
Inductive number :=
| Num (z : Z)
| NaN.

#[export] Instance number_eq_dec : EqDecision number.
Proof. solve_decision. Defined.

#[export] Instance number_countable : Countable number :=
  inj_countable'
    (fun n => match n with Num z => Some z | NaN => None end)
    (fun o => match o with Some z => Num z | None => NaN end)
    (fun n => match n with Num _ => eq_refl | NaN => eq_refl end).

(** [a % b] on non-negative integers: [NaN] when [b] is [0]. *)
Definition jsRem (a b : nat) : number :=
  if decide (b = 0) then NaN else Num (Z.of_nat (a mod b)).

(** [a - b] and [a + b] *)
Definition jsSub (a b : number) : number :=
  match a, b with
  | Num x, Num y => Num (x - y)
  | _, _ => NaN
  end.
Definition jsAdd (a b : number) : number :=
  match a, b with
  | Num x, Num y => Num (x + y)
  | _, _ => NaN
  end.

(** [a >= 0] and [a > 0]: false on [NaN] *)
Definition jsNonNeg (a : number) : bool :=
  match a with Num x => bool_decide (0 ≤ x)%Z | NaN => false end.
Definition jsPos (a : number) : bool :=
  match a with Num x => bool_decide (0 < x)%Z | NaN => false end.

(** [array[i]] for an index that may be negative *)
Definition lookupZ {A} (l : list A) (i : Z) : option A :=
  if decide (i < 0)%Z then None else l !! Z.to_nat i.

(** [array.slice(lo, hi)] for [lo <= hi] *)
Definition slice {A} (lo hi : nat) (l : list A) : list A := take (hi - lo) (drop lo l).

(** [while (a.length % n > 0) a.push(a[a.length - 1])] *)
Definition padToBatch {A} (n : nat) (l : list A) : list A :=
  match last l with
  | Some x => if decide (n = 0) then l else l ++ replicate ((n - length l mod n) mod n) x
  | None => l
  end.

Inductive result (A : Type) :=
| Ok (a : A)
| Throw (e : exn).
Arguments Ok {A} a.
Arguments Throw {A} e.

#[export] Instance result_ret : MRet result := fun A a => Ok a.
#[export] Instance result_bind : MBind result := fun A B f r =>
  match r with
  | Ok a => f a
  | Throw e => Throw e
  end.

(** [x] when it is defined, a [TypeError] otherwise. *)
Definition defined {A} (o : option A) : result A :=
  match o with
  | Some a => Ok a
  | None => Throw JsError
  end.

Definition assert (b : bool) (msg : string) : result unit :=
  if b then Ok tt else Throw (AssertionError msg).

(** A method over a state [S]. *)
Definition M (S A : Type) : Type := S -> S * result A.

#[export] Instance M_ret {S} : MRet (M S) := fun A a s => (s, Ok a).
#[export] Instance M_bind {S} : MBind (M S) := fun A B f m s =>
  match m s with
  | (s', Ok a) => f a s'
  | (s', Throw e) => (s', Throw e)
  end.

Definition get {S} : M S S := fun s => (s, Ok s).
Definition gets {S A} (f : S -> A) : M S A := fun s => (s, Ok (f s)).
Definition modify {S} (f : S -> S) : M S unit := fun s => (f s, Ok tt).
Definition lift {S A} (r : result A) : M S A := fun s => (s, r).
Definition throw {S A} (e : exn) : M S A := fun s => (s, Throw e).

(** ** Domain objects

    Modelled from the spec: the classes of [maci-domainobjs] (§3 of the
    specification), with the fields Poll.ts reads and writes. *)

(** [rawPubKey]: the two coordinates of a Baby Jubjub point. *)
Definition PubKey : Type := Z * Z.
Definition SharedKey : Type := Z * Z.
Definition PathElements : Type := list (list Z).

Record Signature := { R8 : Z * Z; sigS : Z }.

Module Keypair.
Record t := mk { privKey : Z; pubKey : PubKey }.

(** Modelled from the spec: [Keypair.equals] compares both keys. *)
Definition equals (a b : t) : bool :=
  bool_decide (privKey a = privKey b) && bool_decide (pubKey a = pubKey b).
End Keypair.

Module StateLeaf.
Record t := mk { pubKey : PubKey; voiceCreditBalance : Z; timestamp : Z }.
Definition eta (l : t) : t := mk (pubKey l) (voiceCreditBalance l) (timestamp l).
#[export] Instance set_pubKey : Setter pubKey := ltac:(build_setter eta pubKey).
#[export] Instance set_voiceCreditBalance : Setter voiceCreditBalance :=
  ltac:(build_setter eta voiceCreditBalance).
End StateLeaf.
Export (hints) StateLeaf.

Module Ballot.
Record t := mk { nonce : Z; votes : list Z; voteOptionTreeDepth : nat }.
Definition eta (b : t) : t := mk (nonce b) (votes b) (voteOptionTreeDepth b).
#[export] Instance set_nonce : Setter nonce := ltac:(build_setter eta nonce).
#[export] Instance set_votes : Setter votes := ltac:(build_setter eta votes).

(** Modelled from the spec: [new Ballot(n, depth)] and
    [Ballot.genBlankBallot(n, depth)], a zero nonce and [n] zero votes. *)
Definition new (numVoteOptions voteOptionTreeDepth : nat) : t :=
  mk 0 (replicate numVoteOptions 0%Z) voteOptionTreeDepth.
End Ballot.
Export (hints) Ballot.

Module Message.
(** Modelled from the spec: a message carries ten data words; the
    constructor of the class refuses any other length. Poll.ts reads
    [data[0]] and [data[1]] by index and the others as a sequence only. *)
Record t := mk { msgType : Z; data0 : Z; data1 : Z; dataRest : list Z }.
Definition data (m : t) : list Z := data0 m :: data1 m :: dataRest m.

Definition equals (a b : t) : bool :=
  bool_decide (msgType a = msgType b) && bool_decide (data a = data b).
End Message.

Module PCommand.
Record t := mk {
  stateIndex : Z;
  newPubKey : PubKey;
  voteOptionIndex : Z;
  newVoteWeight : Z;
  nonce : Z;
  pollId : Z;
  salt : Z
}.
End PCommand.

Module TCommand.
Record t := mk { stateIndex : Z; amount : Z; pollId : Z }.
End TCommand.

(** [ICommand]: a vote or key-change command, a top-up command, or (after
    [fromJSON]) an object that only carries its [cmdType]. *)
Inductive ICommand :=
| PCmd (c : PCommand.t)
| TCmd (c : TCommand.t)
| OtherCmd (cmdType : string).

(** ** The incremental quinary Merkle tree

    Modelled from the spec: [IncrementalQuinTree] of [maci-crypto] (§2, §6 and
    §9 of the specification): a tree of fixed depth and arity whose leaves
    default to [zeroValue], with an append position [nextIndex]. A tree of
    depth [d] holds [arity ^ d] leaves; writing a leaf past that raises. The
    hashing of the nodes is external: see [quinRoot] and [quinPath] in
    [Externals]. *)
Module QuinTree.
Record t := mk {
  depth : nat;
  zeroValue : Z;
  arity : nat;
  leaves : gmap nat Z;
  nextIndex : nat
}.

Definition new (depth : nat) (zeroValue : Z) (arity : nat) : t :=
  mk depth zeroValue arity ∅ 0.

Definition capacity (tr : t) : nat := arity tr ^ depth tr.

Definition update (index : nat) (value : Z) (tr : t) : result t :=
  if decide (index < capacity tr)
  then Ok (mk (depth tr) (zeroValue tr) (arity tr) (<[index := value]> (leaves tr)) (nextIndex tr))
  else Throw JsError.

Definition insert (value : Z) (tr : t) : result t :=
  tr' ← update (nextIndex tr) value tr;
  Ok (mk (depth tr') (zeroValue tr') (arity tr') (leaves tr') (nextIndex tr' + 1)).

(** [insert] of a value that may be [undefined]: hashing it raises. *)
Definition insertOpt (value : option Z) (tr : t) : result t :=
  v ← defined value; insert v tr.
End QuinTree.

(** Modelled from the spec: [utils/constants.ts] (§6). *)
Definition STATE_TREE_ARITY : nat := 5.
Definition MESSAGE_TREE_ARITY : nat := 5.
Definition VOTE_OPTION_TREE_ARITY : nat := 5.

(** ** What Poll.ts imports and does not define *)

Class Externals := {
  SNARK_FIELD_SIZE : Z;
  NOTHING_UP_MY_SLEEVE : Z;
  blankStateLeaf : StateLeaf.t;
  (* maci-crypto *)
  hash3 : Z -> Z -> Z -> Z;
  hashLeftRight : Z -> Z -> Z;
  sha256Hash : list Z -> Z;
  genTreeCommitment : list Z -> Z -> nat -> Z;
  (** the [n]-th value the random source hands out *)
  randomValue : nat -> Z;
  (** [tree.root], from the depth, the zero value, the arity and the leaves *)
  quinRoot : nat -> Z -> nat -> gmap nat Z -> Z;
  (** [tree.genMerklePath(i).pathElements] for [i] below the capacity *)
  quinPath : QuinTree.t -> nat -> PathElements;
  (** [tree.genMerkleSubrootPath(lo, hi)]; [None] when the library refuses
      the range *)
  quinSubrootPath : QuinTree.t -> nat -> nat -> option PathElements;
  verifyMerklePath : PathElements -> bool;
  (* maci-domainobjs *)
  genPubKey : Z -> PubKey;
  genEcdhSharedKey : Z -> PubKey -> SharedKey;
  (** [PCommand.decrypt]; [None] when it throws *)
  decrypt : Message.t -> SharedKey -> option (PCommand.t * Signature);
  verifySignature : PCommand.t -> Signature -> PubKey -> bool;
  hashStateLeaf : StateLeaf.t -> Z;
  hashBallot : Ballot.t -> Z;
  hashMessage : Message.t -> PubKey -> Z;
  hashPubKey : PubKey -> Z;
  (* core/ts/utils/utils.ts *)
  packTallyVotesSmallVals : nat -> nat -> nat -> option Z;
  packSubsidySmallVals : nat -> nat -> nat -> Z
}.

(** ** The state of a poll *)

(** Modelled from the spec: the parameter records of [utils/types.ts], with
    the fields Poll.ts reads (§6, the persisted layout). *)
Record TreeDepths := {
  intStateTreeDepth : nat;
  messageTreeDepth : nat;
  messageTreeSubDepth : nat;
  voteOptionTreeDepth : nat
}.
Record BatchSizes := {
  tallyBatchSize : nat;
  subsidyBatchSize : nat;
  messageBatchSize : nat
}.
Record MaxValues := {
  maxMessages : nat;
  maxVoteOptions : nat
}.

(** Modelled from the spec: the fields of [MaciState] a poll reads and writes
    (§6): the sign-ups, the number of polls deployed so far ([polls.length])
    and the processing lock. An unset [pollBeingProcessed] is falsy, as
    [false] is; an unset [currentPollBeingProcessed] is [None]. *)
Module MaciState.
Record t := mk {
  stateLeaves : list StateLeaf.t;
  stateTree : QuinTree.t;
  stateTreeDepth : nat;
  numSignUps : nat;
  numPolls : nat;
  pollBeingProcessed : bool;
  currentPollBeingProcessed : option nat
}.
Definition eta (m : t) : t :=
  mk (stateLeaves m) (stateTree m) (stateTreeDepth m) (numSignUps m) (numPolls m)
     (pollBeingProcessed m) (currentPollBeingProcessed m).
#[export] Instance set_pollBeingProcessed : Setter pollBeingProcessed :=
  ltac:(build_setter eta pollBeingProcessed).
#[export] Instance set_currentPollBeingProcessed : Setter currentPollBeingProcessed :=
  ltac:(build_setter eta currentPollBeingProcessed).
End MaciState.
Export (hints) MaciState.

(** The fields of the class [Poll], in the order of their declaration.
    [maciStateRef] is a reference to an object shared by every poll of one
    MACI instance: it is not a field here but the [maci] component of the
    [World] a method runs in. *)
Record Poll := mkPoll {
  coordinatorKeypair : Keypair.t;
  treeDepths : TreeDepths;
  batchSizes : BatchSizes;
  maxValues : MaxValues;
  stateTreeDepth : nat;
  pollEndTimestamp : Z;
  ballots : list Ballot.t;
  ballotTree : option QuinTree.t;
  messages : list Message.t;
  messageTree : QuinTree.t;
  commands : list ICommand;
  encPubKeys : list PubKey;
  stateCopied : bool;
  stateLeaves : list StateLeaf.t;
  stateTree : option QuinTree.t;
  numBatchesProcessed : nat;
  currentMessageBatchIndex : option number;
  pollId : nat;
  sbSalts : gmap number Z;
  resultRootSalts : gmap nat Z;
  preVOSpentVoiceCreditsRootSalts : gmap nat Z;
  spentVoiceCreditSubtotalSalts : gmap nat Z;
  tallyResult : list Z;
  perVOSpentVoiceCredits : list Z;
  numBatchesTallied : nat;
  totalSpentVoiceCredits : Z;
  subsidy : list Z;
  (** keyed by the pair the code prints as ["rbi-cbi"] *)
  subsidySalts : gmap (Z * Z) Z;
  rbi : nat;
  cbi : nat;
  MM : nat;
  WW : nat;
  emptyBallot : Ballot.t;
  emptyBallotHash : option Z
}.

Definition etaPoll (p : Poll) : Poll :=
  mkPoll (coordinatorKeypair p) (treeDepths p) (batchSizes p) (maxValues p)
    (stateTreeDepth p) (pollEndTimestamp p) (ballots p) (ballotTree p) (messages p)
    (messageTree p) (commands p) (encPubKeys p) (stateCopied p) (stateLeaves p)
    (stateTree p) (numBatchesProcessed p) (currentMessageBatchIndex p) (pollId p)
    (sbSalts p) (resultRootSalts p) (preVOSpentVoiceCreditsRootSalts p)
    (spentVoiceCreditSubtotalSalts p) (tallyResult p) (perVOSpentVoiceCredits p)
    (numBatchesTallied p) (totalSpentVoiceCredits p) (subsidy p) (subsidySalts p)
    (rbi p) (cbi p) (MM p) (WW p) (emptyBallot p) (emptyBallotHash p).

#[export] Instance set_coordinatorKeypair : Setter coordinatorKeypair :=
  ltac:(build_setter etaPoll coordinatorKeypair).
#[export] Instance set_ballots : Setter ballots := ltac:(build_setter etaPoll ballots).
#[export] Instance set_ballotTree : Setter ballotTree := ltac:(build_setter etaPoll ballotTree).
#[export] Instance set_messages : Setter messages := ltac:(build_setter etaPoll messages).
#[export] Instance set_messageTree : Setter messageTree := ltac:(build_setter etaPoll messageTree).
#[export] Instance set_commands : Setter commands := ltac:(build_setter etaPoll commands).
#[export] Instance set_encPubKeys : Setter encPubKeys := ltac:(build_setter etaPoll encPubKeys).
#[export] Instance set_stateCopied : Setter stateCopied := ltac:(build_setter etaPoll stateCopied).
#[export] Instance set_stateLeaves : Setter stateLeaves := ltac:(build_setter etaPoll stateLeaves).
#[export] Instance set_stateTree : Setter stateTree := ltac:(build_setter etaPoll stateTree).
#[export] Instance set_numBatchesProcessed : Setter numBatchesProcessed :=
  ltac:(build_setter etaPoll numBatchesProcessed).
#[export] Instance set_currentMessageBatchIndex : Setter currentMessageBatchIndex :=
  ltac:(build_setter etaPoll currentMessageBatchIndex).
#[export] Instance set_sbSalts : Setter sbSalts := ltac:(build_setter etaPoll sbSalts).
#[export] Instance set_resultRootSalts : Setter resultRootSalts :=
  ltac:(build_setter etaPoll resultRootSalts).
#[export] Instance set_preVOSpentVoiceCreditsRootSalts : Setter preVOSpentVoiceCreditsRootSalts :=
  ltac:(build_setter etaPoll preVOSpentVoiceCreditsRootSalts).
#[export] Instance set_spentVoiceCreditSubtotalSalts : Setter spentVoiceCreditSubtotalSalts :=
  ltac:(build_setter etaPoll spentVoiceCreditSubtotalSalts).
#[export] Instance set_tallyResult : Setter tallyResult := ltac:(build_setter etaPoll tallyResult).
#[export] Instance set_perVOSpentVoiceCredits : Setter perVOSpentVoiceCredits :=
  ltac:(build_setter etaPoll perVOSpentVoiceCredits).
#[export] Instance set_numBatchesTallied : Setter numBatchesTallied :=
  ltac:(build_setter etaPoll numBatchesTallied).
#[export] Instance set_totalSpentVoiceCredits : Setter totalSpentVoiceCredits :=
  ltac:(build_setter etaPoll totalSpentVoiceCredits).
#[export] Instance set_subsidy : Setter subsidy := ltac:(build_setter etaPoll subsidy).
#[export] Instance set_subsidySalts : Setter subsidySalts := ltac:(build_setter etaPoll subsidySalts).
#[export] Instance set_rbi : Setter rbi := ltac:(build_setter etaPoll rbi).
#[export] Instance set_cbi : Setter cbi := ltac:(build_setter etaPoll cbi).
#[export] Instance set_emptyBallotHash : Setter emptyBallotHash :=
  ltac:(build_setter etaPoll emptyBallotHash).

(** What a method of a poll runs in: the poll, the [MaciState] it refers to,
    and the number of values drawn from the random source so far. *)
Record World := mkWorld {
  maci : MaciState.t;
  poll : Poll;
  drawn : nat
}.
Definition etaWorld (w : World) : World := mkWorld (maci w) (poll w) (drawn w).
#[export] Instance set_maci : Setter maci := ltac:(build_setter etaWorld maci).
#[export] Instance set_poll : Setter poll := ltac:(build_setter etaWorld poll).
#[export] Instance set_drawn : Setter drawn := ltac:(build_setter etaWorld drawn).

(** [this.f = g(this.f)] *)
Definition this (f : Poll -> Poll) : M World unit :=
  modify (fun w => w <| poll := f (poll w) |>).

(** A [for (let i = from; i < from + count; i++)] loop whose body may raise. *)
Fixpoint forLoop {St} (count from : nat) (body : nat -> St -> result St) (s : St) : result St :=
  match count with
  | 0 => Ok s
  | S count' => s' ← body from s; forLoop count' (S from) body s'
  end.

(** What [processMessage] returns. *)
Record IProcessMessagesOutput := {
  stateLeafIndex : nat;
  newStateLeaf : StateLeaf.t;
  originalStateLeaf : StateLeaf.t;
  originalStateLeafPathElements : PathElements;
  originalVoteWeight : Z;
  originalVoteWeightsPathElements : PathElements;
  newBallot : Ballot.t;
  originalBallot : Ballot.t;
  originalBallotPathElements : PathElements;
  command : PCommand.t
}.

Section PollMethods.
Context `{Externals}.

(** [tree.root] *)
Definition root (tr : QuinTree.t) : Z :=
  quinRoot (QuinTree.depth tr) (QuinTree.zeroValue tr) (QuinTree.arity tr) (QuinTree.leaves tr).

(** [tree.genMerklePath(index).pathElements] *)
Definition genMerklePath (tr : QuinTree.t) (index : nat) : result PathElements :=
  if decide (index < QuinTree.capacity tr) then Ok (quinPath tr index) else Throw JsError.

(** [genRandomSalt()] *)
Definition genRandomSalt : M World Z := fun w =>
  (w <| drawn := S (drawn w) |>, Ok (randomValue (drawn w))).

(** [new Keypair()]: a random private key and its public key. *)
Definition newKeypair : M World Keypair.t :=
  k ← genRandomSalt; mret (Keypair.mk k (genPubKey k)).

(** *** The constructor *)

Definition newPoll (pollEndTimestamp : Z) (coordinatorKeypair : Keypair.t)
    (treeDepths : TreeDepths) (batchSizes : BatchSizes) (maxValues : MaxValues)
    (maciStateRef : MaciState.t) : Poll :=
  let emptyBallot := Ballot.new (maxVoteOptions maxValues) (voteOptionTreeDepth treeDepths) in
  {| coordinatorKeypair := coordinatorKeypair;
     treeDepths := treeDepths;
     batchSizes := batchSizes;
     maxValues := maxValues;
     stateTreeDepth := MaciState.stateTreeDepth maciStateRef;
     pollEndTimestamp := pollEndTimestamp;
     ballots := [emptyBallot];
     ballotTree := None;
     messages := [];
     messageTree := QuinTree.new (messageTreeDepth treeDepths) NOTHING_UP_MY_SLEEVE MESSAGE_TREE_ARITY;
     commands := [];
     encPubKeys := [];
     stateCopied := false;
     stateLeaves := [blankStateLeaf];
     stateTree := None;
     numBatchesProcessed := 0;
     currentMessageBatchIndex := None;
     pollId := MaciState.numPolls maciStateRef;
     sbSalts := ∅;
     resultRootSalts := ∅;
     preVOSpentVoiceCreditsRootSalts := ∅;
     spentVoiceCreditSubtotalSalts := ∅;
     tallyResult := replicate (maxVoteOptions maxValues) 0%Z;
     perVOSpentVoiceCredits := replicate (maxVoteOptions maxValues) 0%Z;
     numBatchesTallied := 0;
     totalSpentVoiceCredits := 0;
     subsidy := replicate (maxVoteOptions maxValues) 0%Z;
     subsidySalts := ∅;
     rbi := 0;
     cbi := 0;
     MM := 50;
     WW := 4;
     emptyBallot := emptyBallot;
     emptyBallotHash := None |}.

(** *** [processMessage] *)

(** The vote option tree of a ballot: a fresh tree that receives
    [votes[0]], ..., [votes[n - 1]]. *)
Definition voteTree (depth n : nat) (votes : list Z) : result QuinTree.t :=
  forLoop n 0 (fun i vt => QuinTree.insertOpt (votes !! i) vt)
    (QuinTree.new depth 0 STATE_TREE_ARITY).

(** The body of the [try] block. *)
Definition processMessage_try (p : Poll) (message : Message.t) (encPubKey : PubKey)
    : result IProcessMessagesOutput :=
  let sharedKey := genEcdhSharedKey (Keypair.privKey (coordinatorKeypair p)) encPubKey in
  '(command, signature) ← defined (decrypt message sharedKey);
  let stateLeafIndex := PCommand.stateIndex command in
  (* a || b || c, left to right: [this.stateTree] is read last *)
  invalidIndex ←
    (if bool_decide (Z.of_nat (length (ballots p)) ≤ stateLeafIndex)%Z
        || bool_decide (stateLeafIndex < 1)%Z
     then Ok true
     else st ← defined (stateTree p);
          Ok (bool_decide (Z.of_nat (QuinTree.nextIndex st) ≤ stateLeafIndex)%Z));
  if invalidIndex : bool then Throw (ProcessMessageError InvalidStateLeafIndex) else
  let index := Z.to_nat stateLeafIndex in
  stateLeaf ← defined (stateLeaves p !! index);
  if negb (verifySignature command signature (StateLeaf.pubKey stateLeaf))
  then Throw (ProcessMessageError InvalidSignature) else
  ballot ← defined (ballots p !! index);
  if negb (bool_decide (PCommand.nonce command = Ballot.nonce ballot + 1)%Z)
  then Throw (ProcessMessageError InvalidNonce) else
  if bool_decide (PCommand.voteOptionIndex command < 0)%Z
     || bool_decide (Z.of_nat (maxVoteOptions (maxValues p)) ≤ PCommand.voteOptionIndex command)%Z
  then Throw (ProcessMessageError InvalidVoteOptionIndex) else
  let voteOptionIndex := Z.to_nat (PCommand.voteOptionIndex command) in
  originalVoteWeight ← defined (Ballot.votes ballot !! voteOptionIndex);
  let voiceCreditsLeft :=
    (StateLeaf.voiceCreditBalance stateLeaf
     + originalVoteWeight * originalVoteWeight
     - PCommand.newVoteWeight command * PCommand.newVoteWeight command)%Z in
  if bool_decide (voiceCreditsLeft < 0)%Z
  then Throw (ProcessMessageError InsufficientVoiceCredits) else
  let newStateLeaf :=
    stateLeaf <| StateLeaf.voiceCreditBalance := voiceCreditsLeft |>
              <| StateLeaf.pubKey := PCommand.newPubKey command |> in
  let newBallot :=
    ballot <| Ballot.nonce := (Ballot.nonce ballot + 1)%Z |>
           <| Ballot.votes := <[voteOptionIndex := PCommand.newVoteWeight command]> (Ballot.votes ballot) |> in
  st ← defined (stateTree p);
  originalStateLeafPathElements ← genMerklePath st index;
  bt ← defined (ballotTree p);
  originalBallotPathElements ← genMerklePath bt index;
  ballot0 ← defined (ballots p !! 0);
  vt ← voteTree (voteOptionTreeDepth (treeDepths p)) (length (Ballot.votes ballot0)) (Ballot.votes ballot);
  originalVoteWeightsPathElements ← genMerklePath vt voteOptionIndex;
  Ok {| stateLeafIndex := index;
        newStateLeaf := newStateLeaf;
        originalStateLeaf := stateLeaf;
        originalStateLeafPathElements := originalStateLeafPathElements;
        originalVoteWeight := originalVoteWeight;
        originalVoteWeightsPathElements := originalVoteWeightsPathElements;
        newBallot := newBallot;
        originalBallot := ballot;
        originalBallotPathElements := originalBallotPathElements;
        command := command |}.

(** [try { ... } catch (e)]: a [ProcessMessageError] is thrown again, anything
    else becomes [FailedDecryption]. *)
Definition processMessage (p : Poll) (message : Message.t) (encPubKey : PubKey)
    : result IProcessMessagesOutput :=
  match processMessage_try p message encPubKey with
  | Ok r => Ok r
  | Throw (ProcessMessageError kind) => Throw (ProcessMessageError kind)
  | Throw _ => Throw (ProcessMessageError FailedDecryption)
  end.

(** *** Message ingest *)

(** The fixed public key stored next to a top-up message. *)
Definition padKey : PubKey :=
  (10457101036533406547632367118273992217979173478358440826365724437999023779287%Z,
   19824078218392094440610104313265183977899662750282163392862422243483260492317%Z).

(** [for (const d of message.data) assert(d < SNARK_FIELD_SIZE, ...)] *)
Definition assertDataInRange (message : Message.t) : result unit :=
  assert (forallb (fun d => bool_decide (d < SNARK_FIELD_SIZE)%Z) (Message.data message))
    "The message data is not in the correct range".

(** [this.messageTree.insert(leaf)] *)
Definition messageTree_insert (leaf : Z) : M World unit :=
  p ← gets poll;
  mt ← lift (QuinTree.insert leaf (messageTree p));
  this (fun p => p <| messageTree := mt |>).

Definition topupMessage (message : Message.t) : M World unit :=
  lift (assert (bool_decide (Message.msgType message = 2)%Z) "A Topup message must have msgType 2");;
  lift (assertDataInRange message);;
  this (fun p => p <| messages := messages p ++ [message] |>);;
  this (fun p => p <| encPubKeys := encPubKeys p ++ [padKey] |>);;
  messageTree_insert (hashMessage message padKey);;
  p ← gets poll;
  let command :=
    TCommand.mk (Message.data0 message) (Message.data1 message) (Z.of_nat (pollId p)) in
  this (fun p => p <| commands := commands p ++ [TCmd command] |>).

Definition publishMessage (message : Message.t) (encPubKey : PubKey) : M World unit :=
  lift (assert (bool_decide (Message.msgType message = 1)%Z)
          "A vote or key change message must have msgType 1");;
  lift (assert (bool_decide (encPubKey.1 < SNARK_FIELD_SIZE)%Z
                && bool_decide (encPubKey.2 < SNARK_FIELD_SIZE)%Z)
          "The public key is not in the correct range");;
  lift (assertDataInRange message);;
  this (fun p => p <| encPubKeys := encPubKeys p ++ [encPubKey] |>);;
  this (fun p => p <| messages := messages p ++ [message] |>);;
  messageTree_insert (hashMessage message encPubKey);;
  p ← gets poll;
  let sharedKey := genEcdhSharedKey (Keypair.privKey (coordinatorKeypair p)) encPubKey in
  match decrypt message sharedKey with
  | Some (command, _) =>
      this (fun p => p <| commands := commands p ++ [PCmd command] |>)
  | None =>
      (* catch: an empty command under a fresh key *)
      keyPair ← newKeypair;
      let command := PCommand.mk 0 (Keypair.pubKey keyPair) 0 0 0 0 0 in
      this (fun p => p <| commands := commands p ++ [PCmd command] |>)
  end.

(** *** [hasUnprocessedMessages] *)

(** [totalBatches]; [None] is [Infinity], which [Math.floor(n / 0)] is for a
    positive [n]. *)
Definition totalBatches (p : Poll) : option nat :=
  let batchSize := messageBatchSize (batchSizes p) in
  let totalBatches :=
    if decide (length (messages p) ≤ batchSize) then Some 1
    else if decide (batchSize = 0) then None
    else Some (length (messages p) / batchSize) in
  if bool_decide (batchSize < length (messages p))
     && match jsRem (length (messages p)) batchSize with
        | Num r => bool_decide (0 < r)%Z
        | NaN => false
        end
  then S <$> totalBatches
  else totalBatches.

Definition hasUnprocessedMessages (p : Poll) : bool :=
  match totalBatches p with
  | Some n => bool_decide (numBatchesProcessed p < n)
  | None => true
  end.

(** *** [copyStateFromMaci] *)

(** [while (cond) body], for a loop the caller knows the length of. *)
Fixpoint repeatM {St} (count : nat) (body : M St unit) : M St unit :=
  match count with
  | 0 => mret tt
  | S count' => body;; repeatM count' body
  end.

(** [this.ballotTree.insert(leaf)] *)
Definition ballotTree_insert (leaf : Z) : M World unit :=
  p ← gets poll;
  bt ← lift (defined (ballotTree p));
  bt' ← lift (QuinTree.insert leaf bt);
  this (fun p => p <| ballotTree := Some bt' |>).

Definition copyStateFromMaci : M World unit :=
  m ← gets maci;
  lift (assert (bool_decide (length (MaciState.stateLeaves m)
                             = QuinTree.nextIndex (MaciState.stateTree m))) "");;
  this (fun p => p <| stateLeaves := MaciState.stateLeaves m |>);;
  this (fun p => p <| stateTree := Some (MaciState.stateTree m) |>);;
  p ← gets poll;
  let h := hashBallot (emptyBallot p) in
  this (fun p => p <| emptyBallotHash := Some h |>);;
  this (fun p => p <| ballotTree := Some (QuinTree.new (stateTreeDepth p) h STATE_TREE_ARITY) |>);;
  ballotTree_insert (hashBallot (emptyBallot p));;
  (* while (this.ballots.length < this.stateLeaves.length) *)
  repeatM (length (MaciState.stateLeaves m) - length (ballots p))
    (ballotTree_insert h;;
     this (fun p => p <| ballots := ballots p ++ [emptyBallot p] |>));;
  this (fun p => p <| stateCopied := true |>).

(** *** [processMessages] *)

(** The arrays a batch builds with [unshift]. A vote weight read from an
    empty [votes] array is [undefined]. *)
Record BatchWitness := mkBatchWitness {
  currentStateLeaves : list StateLeaf.t;
  currentStateLeavesPathElements : list PathElements;
  currentBallots : list Ballot.t;
  currentBallotsPathElements : list PathElements;
  currentVoteWeights : list (option Z);
  currentVoteWeightsPathElements : list PathElements
}.

Definition noWitness : BatchWitness := mkBatchWitness [] [] [] [] [] [].

Definition unshift (sl : StateLeaf.t) (slPath : PathElements) (b : Ballot.t)
    (bPath : PathElements) (w : option Z) (wPath : PathElements)
    (acc : BatchWitness) : BatchWitness :=
  {| currentStateLeaves := sl :: currentStateLeaves acc;
     currentStateLeavesPathElements := slPath :: currentStateLeavesPathElements acc;
     currentBallots := b :: currentBallots acc;
     currentBallotsPathElements := bPath :: currentBallotsPathElements acc;
     currentVoteWeights := w :: currentVoteWeights acc;
     currentVoteWeightsPathElements := wPath :: currentVoteWeightsPathElements acc |}.

(** The blank data of index 0, which stands for a rejected command and for a
    slot past the last message: the state leaf and the ballot of index 0 with
    their paths, the first vote weight of that ballot, and its path in a
    fresh vote option tree that holds this one weight. *)
Definition blankWitness (p : Poll) (acc : BatchWitness) : result BatchWitness :=
  stateLeaf0 ← defined (stateLeaves p !! 0);
  st ← defined (stateTree p);
  slPath ← genMerklePath st 0;
  ballot0 ← defined (ballots p !! 0);
  bt ← defined (ballotTree p);
  bPath ← genMerklePath bt 0;
  let w := Ballot.votes ballot0 !! 0 in
  vt ← QuinTree.insertOpt w (QuinTree.new (voteOptionTreeDepth (treeDepths p)) 0 STATE_TREE_ARITY);
  wPath ← genMerklePath vt 0;
  Ok (unshift stateLeaf0 slPath ballot0 bPath w wPath acc).

Definition unshiftBlank (acc : BatchWitness) : M World BatchWitness :=
  p ← gets poll; lift (blankWitness p acc).

(** [this.stateTree.update(index, leaf)] and [this.ballotTree.update(index, leaf)] *)
Definition stateTree_update (index : nat) (leaf : Z) : M World unit :=
  p ← gets poll;
  st ← lift (defined (stateTree p));
  st' ← lift (QuinTree.update index leaf st);
  this (fun p => p <| stateTree := Some st' |>).

Definition ballotTree_update (index : nat) (leaf : Z) : M World unit :=
  p ← gets poll;
  bt ← lift (defined (ballotTree p));
  bt' ← lift (QuinTree.update index leaf bt);
  this (fun p => p <| ballotTree := Some bt' |>).

(** A command [processMessage] accepted: the original data go to the front of
    the arrays, then the new leaf and the new ballot replace the old ones.
    Both array writes are in range: [processMessage] read these two slots. *)
Definition applyVote (r : IProcessMessagesOutput) (acc : BatchWitness) : M World BatchWitness :=
  let index := stateLeafIndex r in
  let acc' :=
    unshift (originalStateLeaf r) (originalStateLeafPathElements r)
      (originalBallot r) (originalBallotPathElements r)
      (Some (originalVoteWeight r)) (originalVoteWeightsPathElements r) acc in
  this (fun p => p <| stateLeaves := <[index := newStateLeaf r]> (stateLeaves p) |>);;
  stateTree_update index (hashStateLeaf (newStateLeaf r));;
  this (fun p => p <| ballots := <[index := newBallot r]> (ballots p) |>);;
  ballotTree_update index (hashBallot (newBallot r));;
  mret acc'.

(** A top-up message. The write to [stateLeaves] is in range: the slot was
    read just before. *)
Definition applyTopup (message : Message.t) (acc : BatchWitness) : M World BatchWitness :=
  p ← gets poll;
  let outOfRange := bool_decide (Z.of_nat (length (ballots p)) ≤ Message.data0 message)%Z in
  let stateIndex := if outOfRange then 0%Z else Message.data0 message in
  let amount := if outOfRange then 0%Z else Message.data1 message in
  stateLeaf ← lift (defined (lookupZ (stateLeaves p) stateIndex));
  let stateIndex := Z.to_nat stateIndex in
  st ← lift (defined (stateTree p));
  slPath ← lift (genMerklePath st stateIndex);
  let newStateLeaf :=
    stateLeaf <| StateLeaf.voiceCreditBalance := (StateLeaf.voiceCreditBalance stateLeaf + amount)%Z |> in
  this (fun p => p <| stateLeaves := <[stateIndex := newStateLeaf]> (stateLeaves p) |>);;
  stateTree_update stateIndex (hashStateLeaf newStateLeaf);;
  p ← gets poll;
  currentBallot ← lift (defined (ballots p !! stateIndex));
  bt ← lift (defined (ballotTree p));
  bPath ← lift (genMerklePath bt stateIndex);
  let w := Ballot.votes currentBallot !! 0 in
  ballot0 ← lift (defined (ballots p !! 0));
  vt ← lift (voteTree (voteOptionTreeDepth (treeDepths p)) (length (Ballot.votes ballot0))
               (Ballot.votes currentBallot));
  wPath ← lift (genMerklePath vt 0);
  mret (unshift stateLeaf slPath currentBallot bPath w wPath acc).

(** One turn of the loop, for the message index [idx] (already checked to be
    non-negative). An [encPubKeys[idx]] that is [undefined] makes the
    ECDH step inside the [try] of [processMessage] raise. *)
Definition processSlot (idx : nat) (acc : BatchWitness) : M World BatchWitness :=
  p ← gets poll;
  match messages p !! idx with
  | Some message =>
      if bool_decide (Message.msgType message = 1)%Z then
        let r :=
          match encPubKeys p !! idx with
          | Some encPubKey => processMessage p message encPubKey
          | None => Throw (ProcessMessageError FailedDecryption)
          end in
        match r with
        | Ok r => applyVote r acc
        | Throw (ProcessMessageError _) => unshiftBlank acc
        | Throw e => throw e
        end
      else if bool_decide (Message.msgType message = 2)%Z then
        applyTopup message acc
      else mret acc
  | None => unshiftBlank acc
  end.

(** [this.currentMessageBatchIndex + batchSize - i - 1] *)
Definition slotIndex (p : Poll) (i : nat) : number :=
  let start := match currentMessageBatchIndex p with Some n => n | None => NaN end in
  jsSub (jsSub (jsAdd start (Num (Z.of_nat (messageBatchSize (batchSizes p)))))
               (Num (Z.of_nat i)))
        (Num 1).

(** [for (let i = from; i < from + count; i++)]: the loop over the batch. *)
Fixpoint processBatch (count from : nat) (acc : BatchWitness) : M World BatchWitness :=
  match count with
  | 0 => mret acc
  | S count' =>
      p ← gets poll;
      let idx := slotIndex p from in
      lift (assert (jsNonNeg idx) "The message index must be >= 0");;
      acc' ← processSlot (match idx with Num z => Z.to_nat z | NaN => 0 end) acc;
      processBatch count' (S from) acc'
  end.

(** [this.sbSalts[this.currentMessageBatchIndex]] *)
Definition currentSbSalt (p : Poll) : option Z :=
  n ← currentMessageBatchIndex p; sbSalts p !! n.

(** The fields of the circuit inputs that Poll.ts computes itself. *)
Record ProcessMessagesInputs := {
  pmi_pollEndTimestamp : Z;
  pmi_packedVals : Z;
  pmi_msgRoot : Z;
  pmi_msgs : list Message.t;
  pmi_msgSubrootPathElements : PathElements;
  pmi_coordPrivKey : Z;
  pmi_coordPubKey : PubKey;
  pmi_encPubKeys : list PubKey;
  pmi_currentStateRoot : Z;
  pmi_currentBallotRoot : Z;
  pmi_currentSbCommitment : Z;
  pmi_currentSbSalt : Z;
  pmi_witness : BatchWitness;
  pmi_newSbSalt : Z;
  pmi_newSbCommitment : Z;
  pmi_inputHash : Z
}.

Definition genProcessMessagesCircuitInputsPartial (index : nat) : M World ProcessMessagesInputs :=
  p ← gets poll;
  let messageBatchSize := messageBatchSize (batchSizes p) in
  lift (assert (bool_decide (index ≤ length (messages p)))
          "The index must be <= the number of messages");;
  lift (assert (bool_decide (jsRem index messageBatchSize = Num 0))
          "The index must be a multiple of the message batch size");;
  let msgs := slice index (index + messageBatchSize) (padToBatch messageBatchSize (messages p)) in
  (* while (this.messageTree.nextIndex < index + messageBatchSize) *)
  repeatM (index + messageBatchSize - QuinTree.nextIndex (messageTree p))
    (p ← gets poll; messageTree_insert (QuinTree.zeroValue (messageTree p)));;
  p ← gets poll;
  messageSubrootPath ←
    lift (defined (quinSubrootPath (messageTree p) index (index + messageBatchSize)));
  lift (assert (verifyMerklePath messageSubrootPath) "The message subroot path is invalid");;
  let batchEndIndex :=
    if decide (length (messages p) < index + messageBatchSize)
    then length (messages p) else index + messageBatchSize in
  let encPubKeys :=
    slice index (index + messageBatchSize) (padToBatch messageBatchSize (encPubKeys p)) in
  let msgRoot := root (messageTree p) in
  st ← lift (defined (stateTree p));
  bt ← lift (defined (ballotTree p));
  salt ← lift (defined (currentSbSalt p));
  m ← gets maci;
  let packedVals :=
    (Z.of_nat (maxVoteOptions (maxValues p))
     + Z.shiftl (Z.of_nat (MaciState.numSignUps m)) 50
     + Z.shiftl (Z.of_nat index) 100
     + Z.shiftl (Z.of_nat batchEndIndex) 150)%Z in
  mret {| pmi_pollEndTimestamp := pollEndTimestamp p;
          pmi_packedVals := packedVals;
          pmi_msgRoot := msgRoot;
          pmi_msgs := msgs;
          pmi_msgSubrootPathElements := messageSubrootPath;
          pmi_coordPrivKey := Keypair.privKey (coordinatorKeypair p);
          pmi_coordPubKey := Keypair.pubKey (coordinatorKeypair p);
          pmi_encPubKeys := encPubKeys;
          pmi_currentStateRoot := root st;
          pmi_currentBallotRoot := root bt;
          pmi_currentSbCommitment := hash3 (root st) (root bt) salt;
          pmi_currentSbSalt := salt;
          pmi_witness := noWitness;
          pmi_newSbSalt := 0;
          pmi_newSbCommitment := 0;
          pmi_inputHash := 0 |}.

(** [let s = genRandomSalt(); while (current === s) s = genRandomSalt();],
    followed for at most [retries] further draws. *)
Fixpoint freshSalt (retries : nat) (current : option Z) : M World Z :=
  s ← genRandomSalt;
  if bool_decide (current = Some s) then
    match retries with
    | 0 => throw (OutOfModel "salt draws")
    | S retries' => freshSalt retries' current
    end
  else mret s.

(** [this.maciStateRef.f = v] *)
Definition maciStateRef (f : MaciState.t -> MaciState.t) : M World unit :=
  modify (fun w => w <| maci := f (maci w) |>).

(** [processMessages(pollId)]. [retries] bounds the salt loop. A salt that is
    [undefined] makes the hash that receives it raise. *)
Definition processMessages (retries : nat) (pollId : nat) : M World ProcessMessagesInputs :=
  p ← gets poll;
  lift (assert (hasUnprocessedMessages p) "No more messages to process");;
  let batchSize := messageBatchSize (batchSizes p) in
  (if decide (numBatchesProcessed p = 0) then
     lift (assert (bool_decide (currentMessageBatchIndex p = None))
             "The current message batch index should not be defined if this is the first batch");;
     maciStateRef (fun m => m <| MaciState.pollBeingProcessed := true |>);;
     maciStateRef (fun m => m <| MaciState.currentPollBeingProcessed := Some pollId |>)
   else mret tt);;
  (* Only allow one poll to be processed at a time *)
  m ← gets maci;
  (if MaciState.pollBeingProcessed m then
     lift (assert (bool_decide (MaciState.currentPollBeingProcessed m = Some pollId))
             "Another poll is currently being processed")
   else mret tt);;
  (if decide (numBatchesProcessed p = 0) then
     let r := jsRem (length (messages p)) batchSize in
     let index := Num (Z.of_nat (length (messages p))) in
     let index :=
       if jsPos index then
         if bool_decide (r = Num 0) then jsSub index (Num (Z.of_nat batchSize))
         else jsSub index r
       else index in
     this (fun p => p <| currentMessageBatchIndex := Some index |>);;
     this (fun p => p <| sbSalts := <[index := 0%Z]> (sbSalts p) |>)
   else mret tt);;
  (* The starting index must be valid *)
  p ← gets poll;
  let start := match currentMessageBatchIndex p with Some n => n | None => NaN end in
  lift (assert (jsNonNeg start) "The starting index must be >= 0");;
  lift (assert (match start with
                | Num z => bool_decide (jsRem (Z.to_nat z) batchSize = Num 0)
                | NaN => false
                end)
          "The starting index must be a multiple of the batch size");;
  let index := match start with Num z => Z.to_nat z | NaN => 0 end in
  (if stateCopied p then mret tt else copyStateFromMaci);;
  circuitInputs ← genProcessMessagesCircuitInputsPartial index;
  witness ← processBatch batchSize 0 noWitness;
  (* record that we processed one batch *)
  this (fun p => p <| numBatchesProcessed := numBatchesProcessed p + 1 |>);;
  (if jsPos start then
     this (fun p => p <| currentMessageBatchIndex := Some (jsSub start (Num (Z.of_nat batchSize))) |>)
   else mret tt);;
  p ← gets poll;
  let next := match currentMessageBatchIndex p with Some n => n | None => NaN end in
  newSbSalt ← freshSalt retries (sbSalts p !! next);
  this (fun p => p <| sbSalts := <[next := newSbSalt]> (sbSalts p) |>);;
  p ← gets poll;
  st ← lift (defined (stateTree p));
  bt ← lift (defined (ballotTree p));
  let newSbCommitment := hash3 (root st) (root bt) newSbSalt in
  let coordPubKeyHash := hashPubKey (Keypair.pubKey (coordinatorKeypair p)) in
  let inputHash :=
    sha256Hash [pmi_packedVals circuitInputs; coordPubKeyHash; pmi_msgRoot circuitInputs;
                pmi_currentSbCommitment circuitInputs; newSbCommitment; pollEndTimestamp p] in
  (* If this is the last batch, release the lock *)
  (if decide (length (messages p) ≤ numBatchesProcessed p * batchSize) then
     maciStateRef (fun m => m <| MaciState.pollBeingProcessed := false |>)
   else mret tt);;
  mret {| pmi_pollEndTimestamp := pmi_pollEndTimestamp circuitInputs;
          pmi_packedVals := pmi_packedVals circuitInputs;
          pmi_msgRoot := pmi_msgRoot circuitInputs;
          pmi_msgs := pmi_msgs circuitInputs;
          pmi_msgSubrootPathElements := pmi_msgSubrootPathElements circuitInputs;
          pmi_coordPrivKey := pmi_coordPrivKey circuitInputs;
          pmi_coordPubKey := pmi_coordPubKey circuitInputs;
          pmi_encPubKeys := pmi_encPubKeys circuitInputs;
          pmi_currentStateRoot := pmi_currentStateRoot circuitInputs;
          pmi_currentBallotRoot := pmi_currentBallotRoot circuitInputs;
          pmi_currentSbCommitment := pmi_currentSbCommitment circuitInputs;
          pmi_currentSbSalt := pmi_currentSbSalt circuitInputs;
          pmi_witness := witness;
          pmi_newSbSalt := newSbSalt;
          pmi_newSbCommitment := newSbCommitment;
          pmi_inputHash := inputHash |}.

(** *** The tally *)

(** A [for (let i = from; i < from + count; i++)] loop over [this]. *)
Fixpoint forM {St} (count from : nat) (body : nat -> M St unit) : M St unit :=
  match count with
  | 0 => mret tt
  | S count' => body from;; forM count' (S from) body
  end.

Definition hasUntalliedBallots (p : Poll) : bool :=
  bool_decide (numBatchesTallied p * tallyBatchSize (batchSizes p) < length (ballots p)).

(** A fresh tree of the vote option depth that receives [leaves] in order. *)
Definition optionTree (p : Poll) (leaves : list Z) : result QuinTree.t :=
  foldl (fun tr leaf => tr ← tr; QuinTree.insert leaf tr)
    (Ok (QuinTree.new (voteOptionTreeDepth (treeDepths p)) 0 VOTE_OPTION_TREE_ARITY)) leaves.

(** The commitments hash a salt; a salt that is [undefined] makes the hash
    raise. *)
Definition genResultsCommitment (p : Poll) (salt : option Z) : result Z :=
  resultsTree ← optionTree p (tallyResult p);
  salt ← defined salt;
  Ok (hashLeftRight (root resultsTree) salt).

(** [v * v] summed over the options [j] below [n] of one ballot. *)
Definition spentVoiceCredits (n : nat) (b : Ballot.t) (subtotal : Z) : result Z :=
  forLoop n 0 (fun j subtotal => v ← defined (Ballot.votes b !! j); Ok (subtotal + v * v)%Z) subtotal.

(** The loop over [i] stops at [numBallotsToCount] or at the last ballot. *)
Definition genSpentVoiceCreditSubtotalCommitment (p : Poll) (salt : option Z)
    (numBallotsToCount : nat) : result Z :=
  subtotal ← foldl (fun subtotal b => s ← subtotal; spentVoiceCredits (length (tallyResult p)) b s)
                   (Ok 0%Z) (take numBallotsToCount (ballots p));
  salt ← defined salt;
  Ok (hashLeftRight subtotal salt).

Definition perVOSpent (n : nat) (b : Ballot.t) (leaves : list Z) : result (list Z) :=
  forLoop n 0 (fun j leaves =>
                 v ← defined (Ballot.votes b !! j);
                 l ← defined (leaves !! j);
                 Ok (<[j := (l + v * v)%Z]> leaves)) leaves.

Definition genPerVOSpentVoiceCreditsCommitment (p : Poll) (salt : option Z)
    (numBallotsToCount : nat) : result Z :=
  leaves ← foldl (fun leaves b => l ← leaves; perVOSpent (length (tallyResult p)) b l)
                 (Ok (replicate (length (tallyResult p)) 0%Z))
                 (take numBallotsToCount (ballots p));
  resultsTree ← optionTree p leaves;
  salt ← defined salt;
  Ok (hashLeftRight (root resultsTree) salt).

(** The body of the loop over the vote options [j] of ballot [i]. Each of the
    three writes is made as soon as its right-hand side is computed. *)
Definition tallyVote (i j : nat) : M World unit :=
  p ← gets poll;
  ballot ← lift (defined (ballots p !! i));
  v ← lift (defined (Ballot.votes ballot !! j));
  r ← lift (defined (tallyResult p !! j));
  this (fun p => p <| tallyResult := <[j := (r + v)%Z]> (tallyResult p) |>);;
  s ← lift (defined (perVOSpentVoiceCredits p !! j));
  this (fun p => p <| perVOSpentVoiceCredits := <[j := (s + v * v)%Z]> (perVOSpentVoiceCredits p) |>);;
  this (fun p => p <| totalSpentVoiceCredits := (totalSpentVoiceCredits p + v * v)%Z |>).

(** The loop over the ballots of the batch; it breaks at the last ballot. *)
Fixpoint tallyBatch (count i : nat) (batch : list Ballot.t) : M World (list Ballot.t) :=
  match count with
  | 0 => mret batch
  | S count' =>
      p ← gets poll;
      match ballots p !! i with
      | None => mret batch
      | Some b =>
          forM (maxVoteOptions (maxValues p)) 0 (tallyVote i);;
          tallyBatch count' (S i) (batch ++ [b])
      end
  end.

Record TallyInputs := {
  ti_stateRoot : Z;
  ti_ballotRoot : Z;
  ti_sbSalt : Z;
  ti_sbCommitment : Z;
  ti_currentTallyCommitment : Z;
  ti_newTallyCommitment : Z;
  ti_packedVals : Z;
  ti_inputHash : Z;
  ti_ballots : list Ballot.t;
  ti_ballotPathElements : PathElements;
  ti_votes : list (list Z);
  ti_currentResults : list Z;
  ti_currentResultsRootSalt : Z;
  ti_currentSpentVoiceCreditSubtotal : Z;
  ti_currentSpentVoiceCreditSubtotalSalt : Z;
  ti_currentPerVOSpentVoiceCredits : list Z;
  ti_currentPerVOSpentVoiceCreditsRootSalt : Z;
  ti_newResultsRootSalt : Z;
  ti_newPerVOSpentVoiceCreditsRootSalt : Z;
  ti_newSpentVoiceCreditSubtotalSalt : Z
}.

Definition tallyVotes : M World TallyInputs :=
  p ← gets poll;
  let batchSize := tallyBatchSize (batchSizes p) in
  lift (assert (hasUntalliedBallots p) "No more ballots to tally");;
  let batchStartIndex := numBatchesTallied p * batchSize in
  let saltBefore (salts : gmap nat Z) : option Z :=
    if decide (batchStartIndex = 0) then Some 0%Z else salts !! (batchStartIndex - batchSize) in
  let currentResultsRootSalt := saltBefore (resultRootSalts p) in
  let currentPerVOSpentVoiceCreditsRootSalt := saltBefore (preVOSpentVoiceCreditsRootSalts p) in
  let currentSpentVoiceCreditSubtotalSalt := saltBefore (spentVoiceCreditSubtotalSalts p) in
  currentResultsCommitment ← lift (genResultsCommitment p currentResultsRootSalt);
  currentPerVOSpentVoiceCreditsCommitment ←
    lift (genPerVOSpentVoiceCreditsCommitment p currentPerVOSpentVoiceCreditsRootSalt batchStartIndex);
  currentSpentVoiceCreditsCommitment ←
    lift (genSpentVoiceCreditSubtotalCommitment p currentSpentVoiceCreditSubtotalSalt batchStartIndex);
  let currentTallyCommitment :=
    if decide (batchStartIndex = 0) then 0%Z
    else hash3 currentResultsCommitment currentSpentVoiceCreditsCommitment
               currentPerVOSpentVoiceCreditsCommitment in
  let currentResults := tallyResult p in
  let currentPerVOSpentVoiceCredits := perVOSpentVoiceCredits p in
  let currentSpentVoiceCreditSubtotal := totalSpentVoiceCredits p in
  batch ← tallyBatch batchSize batchStartIndex [];
  let emptyBallot := Ballot.new (maxVoteOptions (maxValues p)) (voteOptionTreeDepth (treeDepths p)) in
  (* while (ballots.length < batchSize) ballots.push(emptyBallot) *)
  let batch := batch ++ replicate (batchSize - length batch) emptyBallot in
  newResultsRootSalt ← genRandomSalt;
  newPerVOSpentVoiceCreditsRootSalt ← genRandomSalt;
  newSpentVoiceCreditSubtotalSalt ← genRandomSalt;
  this (fun p => p <| resultRootSalts := <[batchStartIndex := newResultsRootSalt]> (resultRootSalts p) |>);;
  this (fun p => p <| preVOSpentVoiceCreditsRootSalts :=
                        <[batchStartIndex := newPerVOSpentVoiceCreditsRootSalt]>
                          (preVOSpentVoiceCreditsRootSalts p) |>);;
  this (fun p => p <| spentVoiceCreditSubtotalSalts :=
                        <[batchStartIndex := newSpentVoiceCreditSubtotalSalt]>
                          (spentVoiceCreditSubtotalSalts p) |>);;
  p ← gets poll;
  newResultsCommitment ← lift (genResultsCommitment p (Some newResultsRootSalt));
  newSpentVoiceCreditsCommitment ←
    lift (genSpentVoiceCreditSubtotalCommitment p (Some newSpentVoiceCreditSubtotalSalt)
            (batchStartIndex + batchSize));
  newPerVOSpentVoiceCreditsCommitment ←
    lift (genPerVOSpentVoiceCreditsCommitment p (Some newPerVOSpentVoiceCreditsRootSalt)
            (batchStartIndex + batchSize));
  let newTallyCommitment :=
    hash3 newResultsCommitment newSpentVoiceCreditsCommitment newPerVOSpentVoiceCreditsCommitment in
  st ← lift (defined (stateTree p));
  bt ← lift (defined (ballotTree p));
  sbSalt ← lift (defined (currentSbSalt p));
  let sbCommitment := hash3 (root st) (root bt) sbSalt in
  m ← gets maci;
  packedVals ← lift (defined (packTallyVotesSmallVals batchStartIndex batchSize (MaciState.numSignUps m)));
  let inputHash := sha256Hash [packedVals; sbCommitment; currentTallyCommitment; newTallyCommitment] in
  ballotSubrootProof ←
    lift (defined (quinSubrootPath bt batchStartIndex (batchStartIndex + batchSize)));
  currentResultsRootSalt ← lift (defined currentResultsRootSalt);
  currentSpentVoiceCreditSubtotalSalt ← lift (defined currentSpentVoiceCreditSubtotalSalt);
  currentPerVOSpentVoiceCreditsRootSalt ← lift (defined currentPerVOSpentVoiceCreditsRootSalt);
  this (fun p => p <| numBatchesTallied := numBatchesTallied p + 1 |>);;
  mret {| ti_stateRoot := root st;
          ti_ballotRoot := root bt;
          ti_sbSalt := sbSalt;
          ti_sbCommitment := sbCommitment;
          ti_currentTallyCommitment := currentTallyCommitment;
          ti_newTallyCommitment := newTallyCommitment;
          ti_packedVals := packedVals;
          ti_inputHash := inputHash;
          ti_ballots := batch;
          ti_ballotPathElements := ballotSubrootProof;
          ti_votes := Ballot.votes <$> batch;
          ti_currentResults := currentResults;
          ti_currentResultsRootSalt := currentResultsRootSalt;
          ti_currentSpentVoiceCreditSubtotal := currentSpentVoiceCreditSubtotal;
          ti_currentSpentVoiceCreditSubtotalSalt := currentSpentVoiceCreditSubtotalSalt;
          ti_currentPerVOSpentVoiceCredits := currentPerVOSpentVoiceCredits;
          ti_currentPerVOSpentVoiceCreditsRootSalt := currentPerVOSpentVoiceCreditsRootSalt;
          ti_newResultsRootSalt := newResultsRootSalt;
          ti_newPerVOSpentVoiceCreditsRootSalt := newPerVOSpentVoiceCreditsRootSalt;
          ti_newSpentVoiceCreditSubtotalSalt := newSpentVoiceCreditSubtotalSalt |}.

(** *** The subsidy *)

Definition hasUnfinishedSubsidyCalculation (p : Poll) : bool :=
  let batchSize := subsidyBatchSize (batchSizes p) in
  bool_decide (rbi p * batchSize < length (ballots p))
  && bool_decide (cbi p * batchSize < length (ballots p)).

Definition increaseSubsidyIndex : M World unit :=
  p ← gets poll;
  let batchSize := subsidyBatchSize (batchSizes p) in
  if decide (cbi p * batchSize + batchSize < length (ballots p)) then
    this (fun p => p <| cbi := cbi p + 1 |>)
  else
    this (fun p => p <| rbi := rbi p + 1 |>);;
    this (fun p => p <| cbi := rbi p |>).

(** The key of the previous subsidy salt: the pair the code prints as
    ["rbi-cbi"]. With a batch size of [0], [Math.ceil] yields no integer and
    the key printed is one that no salt was ever stored under: [None]. *)
Definition previousSubsidyIndexToString (p : Poll) : option (Z * Z) :=
  let batchSize := subsidyBatchSize (batchSizes p) in
  if decide (cbi p = 0 ∧ rbi p = 0) then Some (0, 0)%Z
  else if decide (rbi p < cbi p) then Some (Z.of_nat (rbi p), Z.of_nat (cbi p) - 1)%Z
  else if decide (batchSize = 0) then None
  else
    let numBatches := (length (ballots p) + batchSize - 1) / batchSize in
    Some (Z.of_nat (rbi p) - 1, Z.of_nat numBatches - 1)%Z.

(** [BigInt(this.MM * 10 ** this.WW)]: the product is one of doubles, exact
    below [2 ^ 53]; the embedding does not follow a run past that. *)
Definition scaledMM (p : Poll) : result Z :=
  let product := (Z.of_nat (MM p) * 10 ^ Z.of_nat (WW p))%Z in
  if decide (product < 2 ^ 53)%Z then Ok product
  else Throw (OutOfModel "double rounding").

(** The division of two [bigint]s truncates; by [0n] it raises. *)
Definition coefficientCalculation (p : Poll) (rowBallot colBallot : Ballot.t) : result Z :=
  sum ← forLoop (maxVoteOptions (maxValues p)) 0
          (fun q sum =>
             a ← defined (Ballot.votes rowBallot !! q);
             b ← defined (Ballot.votes colBallot !! q);
             Ok (sum + a * b)%Z) 0%Z;
  scaled ← scaledMM p;
  if decide (Z.of_nat (MM p) + sum = 0)%Z then Throw JsError
  else Ok (Z.quot scaled (Z.of_nat (MM p) + sum)).

(** [row < this.ballots.length ? this.ballots[row] : emptyBallot] *)
Definition ballotOrEmpty (p : Poll) (row : nat) : Ballot.t :=
  match ballots p !! row with
  | Some b => b
  | None => Ballot.new (maxVoteOptions (maxValues p)) (voteOptionTreeDepth (treeDepths p))
  end.

(** The body of the loop over the vote options [q] for the pair [(i, j)]. *)
Definition subsidyVote (rowStartIndex colStartIndex i j : nat) (kij : Z)
    (rowBallot colBallot : Ballot.t) (q : nat) : M World unit :=
  vip ← lift (defined (Ballot.votes rowBallot !! q));
  vjp ← lift (defined (Ballot.votes colBallot !! q));
  if bool_decide (rowStartIndex ≠ colStartIndex)
     || (bool_decide (rowStartIndex = colStartIndex) && bool_decide (i < j))
  then
    p ← gets poll;
    s ← lift (defined (subsidy p !! q));
    this (fun p => p <| subsidy := <[q := (s + 2 * kij * vip * vjp)%Z]> (subsidy p) |>)
  else mret tt.

Definition subsidyPair (rowStartIndex colStartIndex i j : nat) : M World unit :=
  p ← gets poll;
  let rowBallot := ballotOrEmpty p (rowStartIndex + i) in
  let colBallot := ballotOrEmpty p (colStartIndex + j) in
  kij ← lift (coefficientCalculation p rowBallot colBallot);
  forM (maxVoteOptions (maxValues p)) 0
    (subsidyVote rowStartIndex colStartIndex i j kij rowBallot colBallot).

Definition subsidyCalculation (rowStartIndex colStartIndex : nat)
    : M World (list Ballot.t * list Ballot.t) :=
  p ← gets poll;
  let batchSize := subsidyBatchSize (batchSizes p) in
  let ballots1 := (fun i => ballotOrEmpty p (rowStartIndex + i)) <$> seq 0 batchSize in
  let ballots2 := (fun i => ballotOrEmpty p (colStartIndex + i)) <$> seq 0 batchSize in
  forM batchSize 0 (fun i =>
    forM batchSize 0 (fun j => subsidyPair rowStartIndex colStartIndex i j));;
  mret (ballots1, ballots2).

Record SubsidyInputs := {
  si_stateRoot : Z;
  si_ballotRoot : Z;
  si_sbSalt : Z;
  si_currentSubsidySalt : Z;
  si_newSubsidySalt : Z;
  si_sbCommitment : Z;
  si_currentSubsidyCommitment : Z;
  si_newSubsidyCommitment : Z;
  si_currentSubsidy : list Z;
  si_packedVals : Z;
  si_inputHash : Z;
  si_ballots1 : list Ballot.t;
  si_ballots2 : list Ballot.t;
  si_ballotPathElements1 : PathElements;
  si_ballotPathElements2 : PathElements
}.

Definition subsidyPerBatch : M World SubsidyInputs :=
  p ← gets poll;
  let batchSize := subsidyBatchSize (batchSizes p) in
  lift (assert (hasUnfinishedSubsidyCalculation p) "No more subsidy batches to calculate");;
  st ← lift (defined (stateTree p));
  bt ← lift (defined (ballotTree p));
  sbSalt ← lift (defined (currentSbSalt p));
  let sbCommitment := hash3 (root st) (root bt) sbSalt in
  let currentSubsidy := subsidy p in
  '(currentSubsidySalt, currentSubsidyCommitment) ←
    (if decide (rbi p ≠ 0 ∨ cbi p ≠ 0) then
       salt ← lift (defined (k ← previousSubsidyIndexToString p; subsidySalts p !! k));
       mret (salt, genTreeCommitment (subsidy p) salt (voteOptionTreeDepth (treeDepths p)))
     else mret (0%Z, 0%Z));
  let rowStartIndex := rbi p * batchSize in
  let colStartIndex := cbi p * batchSize in
  '(ballots1, ballots2) ← subsidyCalculation rowStartIndex colStartIndex;
  ballotSubrootProof1 ←
    lift (defined (quinSubrootPath bt rowStartIndex (rowStartIndex + batchSize)));
  ballotSubrootProof2 ←
    lift (defined (quinSubrootPath bt colStartIndex (colStartIndex + batchSize)));
  newSubsidySalt ← genRandomSalt;
  this (fun p => p <| subsidySalts :=
                        <[(Z.of_nat (rbi p), Z.of_nat (cbi p)) := newSubsidySalt]> (subsidySalts p) |>);;
  p ← gets poll;
  let newSubsidyCommitment :=
    genTreeCommitment (subsidy p) newSubsidySalt (voteOptionTreeDepth (treeDepths p)) in
  m ← gets maci;
  let packedVals := packSubsidySmallVals (rbi p) (cbi p) (MaciState.numSignUps m) in
  let inputHash :=
    sha256Hash [packedVals; sbCommitment; currentSubsidyCommitment; newSubsidyCommitment] in
  increaseSubsidyIndex;;
  mret {| si_stateRoot := root st;
          si_ballotRoot := root bt;
          si_sbSalt := sbSalt;
          si_currentSubsidySalt := currentSubsidySalt;
          si_newSubsidySalt := newSubsidySalt;
          si_sbCommitment := sbCommitment;
          si_currentSubsidyCommitment := currentSubsidyCommitment;
          si_newSubsidyCommitment := newSubsidyCommitment;
          si_currentSubsidy := currentSubsidy;
          si_packedVals := packedVals;
          si_inputHash := inputHash;
          si_ballots1 := ballots1;
          si_ballots2 := ballots2;
          si_ballotPathElements1 := ballotSubrootProof1;
          si_ballotPathElements2 := ballotSubrootProof2 |}.

(** *** Equality and the JSON form *)

(** [PubKey.equals]: both coordinates. *)
Definition PubKey_equals (a b : PubKey) : bool :=
  bool_decide (a.1 = b.1) && bool_decide (a.2 = b.2).

(** [this.equals(p)]. Each loop returns [false] at the first pair that
    differs; it runs over sequences of one length. *)
Definition equals (this p : Poll) : bool :=
  let result :=
    Keypair.equals (coordinatorKeypair this) (coordinatorKeypair p)
    && bool_decide (intStateTreeDepth (treeDepths this) = intStateTreeDepth (treeDepths p))
    && bool_decide (messageTreeDepth (treeDepths this) = messageTreeDepth (treeDepths p))
    && bool_decide (messageTreeSubDepth (treeDepths this) = messageTreeSubDepth (treeDepths p))
    && bool_decide (voteOptionTreeDepth (treeDepths this) = voteOptionTreeDepth (treeDepths p))
    && bool_decide (tallyBatchSize (batchSizes this) = tallyBatchSize (batchSizes p))
    && bool_decide (messageBatchSize (batchSizes this) = messageBatchSize (batchSizes p))
    && bool_decide (maxMessages (maxValues this) = maxMessages (maxValues p))
    && bool_decide (maxVoteOptions (maxValues this) = maxVoteOptions (maxValues p))
    && bool_decide (length (messages this) = length (messages p))
    && bool_decide (length (encPubKeys this) = length (encPubKeys p)) in
  if negb result then false
  else if negb (forallb (fun '(a, b) => Message.equals a b) (zip (messages this) (messages p)))
  then false
  else forallb (fun '(a, b) => PubKey_equals a b) (zip (encPubKeys this) (encPubKeys p)).


(** *** [processAllMessages] and [copy] *)

(** [while (this.hasUnprocessedMessages()) this.processMessages(this.pollId)],
    followed for at most [rounds] turns. *)
Fixpoint processRemaining (retries rounds : nat) : M World unit :=
  p ← gets poll;
  if hasUnprocessedMessages p then
    match rounds with
    | 0 => throw (OutOfModel "rounds")
    | S rounds' => processMessages retries (pollId p);; processRemaining retries rounds'
    end
  else mret tt.

(** [processAllMessages()]: what it returns are the copies of the state
    leaves and of the ballots it makes before the loop. *)
Definition processAllMessages (retries rounds : nat)
    : M World (list StateLeaf.t * list Ballot.t) :=
  p ← gets poll;
  let stateLeaves := stateLeaves p in
  let ballots := ballots p in
  processRemaining retries rounds;;
  mret (stateLeaves, ballots).

(** [command.copy()]: an object that only carries a [cmdType] has no such
    method. *)
Definition ICommand_copy (c : ICommand) : result ICommand :=
  match c with
  | OtherCmd _ => Throw JsError
  | _ => Ok c
  end.

(** [this.copy()]: a poll from the constructor, over the same MACI state,
    whose fields are then assigned one by one, the salts entry by entry. The
    constructor is what sets the fields that are not assigned: [stateTree],
    [stateCopied], [emptyBallotHash], [stateTreeDepth] and [emptyBallot]. *)
Definition copy : M World Poll :=
  p ← gets poll;
  m ← gets maci;
  let copied :=
    newPoll (pollEndTimestamp p) (coordinatorKeypair p) (treeDepths p) (batchSizes p)
      (maxValues p) m in
  commandsCopy ← lift (mapM ICommand_copy (commands p));
  mret {| coordinatorKeypair := coordinatorKeypair copied;
          treeDepths := treeDepths copied;
          batchSizes := batchSizes copied;
          maxValues := maxValues copied;
          stateTreeDepth := stateTreeDepth copied;
          pollEndTimestamp := pollEndTimestamp copied;
          ballots := ballots p;
          ballotTree := ballotTree p;
          messages := messages p;
          messageTree := messageTree p;
          commands := commandsCopy;
          encPubKeys := encPubKeys p;
          stateCopied := stateCopied copied;
          stateLeaves := stateLeaves p;
          stateTree := stateTree copied;
          numBatchesProcessed := numBatchesProcessed p;
          currentMessageBatchIndex := currentMessageBatchIndex p;
          pollId := pollId p;
          sbSalts := sbSalts p;
          resultRootSalts := resultRootSalts p;
          preVOSpentVoiceCreditsRootSalts := preVOSpentVoiceCreditsRootSalts p;
          spentVoiceCreditSubtotalSalts := spentVoiceCreditSubtotalSalts p;
          tallyResult := tallyResult p;
          perVOSpentVoiceCredits := perVOSpentVoiceCredits p;
          numBatchesTallied := numBatchesTallied p;
          totalSpentVoiceCredits := totalSpentVoiceCredits p;
          subsidy := subsidy p;
          subsidySalts := subsidySalts p;
          rbi := rbi p;
          cbi := cbi p;
          MM := MM p;
          WW := WW p;
          emptyBallot := emptyBallot copied;
          emptyBallotHash := emptyBallotHash copied |}.
(** *** Sequences of calls *)

(** A call of one of the two ingest methods, and a sequence of them: the
    sequence stops at the first call that raises. *)
Inductive IngestCall :=
| Publish (message : Message.t) (encPubKey : PubKey)
| Topup (message : Message.t).

Definition ingest (c : IngestCall) : M World unit :=
  match c with
  | Publish message encPubKey => publishMessage message encPubKey
  | Topup message => topupMessage message
  end.

Fixpoint ingestAll (calls : list IngestCall) : M World unit :=
  match calls with
  | [] => mret tt
  | c :: calls => ingest c;; ingestAll calls
  end.

(** The calls one after the other, the caller going on after a call that
    raises: the world after the last one. *)
Definition ingestEach (calls : list IngestCall) (w : World) : World :=
  foldl (fun w c => fst (ingest c w)) w calls.

(** [messages], [encPubKeys] and [commands] have one length, which is
    [messageTree.nextIndex]. *)
Definition aligned (p : Poll) : Prop :=
  length (encPubKeys p) = length (messages p)
  ∧ length (commands p) = length (messages p)
  ∧ QuinTree.nextIndex (messageTree p) = length (messages p).

(** What the ingest calls keep, [room] being the number of leaves the message
    tree can hold: the keys are as many as the messages, the commands as many
    as the leaves of the tree, and the leaves as many as the messages until
    the tree is full. *)
Definition ingested (room : nat) (p : Poll) : Prop :=
  QuinTree.capacity (messageTree p) = room
  ∧ length (encPubKeys p) = length (messages p)
  ∧ length (commands p) = QuinTree.nextIndex (messageTree p)
  ∧ QuinTree.nextIndex (messageTree p) = length (messages p) `min` room.


(** The slots of the batch that starts at [start], from the last one down to
    the first, and the loop body run over a list of slots in its order. *)
Definition batchSlots (start size : nat) : list nat :=
  (fun i => start + size - 1 - i) <$> seq 0 size.

Fixpoint processSlots (slots : list nat) (acc : BatchWitness) : M World BatchWitness :=
  match slots with
  | [] => mret acc
  | idx :: slots => acc' ← processSlot idx acc; processSlots slots acc'
  end.

(** *** The tally, in closed form *)

Definition sumZ (l : list Z) : Z := foldr Z.add 0%Z l.

(** [tally[j] += f j] for every [j] with [from <= j < from + count]. *)
Definition addEach (from count : nat) (f : nat -> Z) (tally : list Z) : list Z :=
  imap (fun j x => if decide (from ≤ j < from + count) then (x + f j)%Z else x) tally.

(** [tally[j] += values[j]] for every [j] with [from <= j < from + count]. *)
Definition addRange (from count : nat) (values tally : list Z) : list Z :=
  addEach from count (fun j => default 0%Z (values !! j)) tally.

(** [tally[j] += votes[j]] for every vote option [j] below [n]. *)
Definition addVotes (n : nat) (votes tally : list Z) : list Z := addRange 0 n votes tally.

Definition squares (votes : list Z) : list Z := (fun v => v * v)%Z <$> votes.

(** The three tallies after the ballots [batch] were added to them. *)
Definition talliedResult (n : nat) (batch : list Ballot.t) (tally : list Z) : list Z :=
  foldl (fun t b => addVotes n (Ballot.votes b) t) tally batch.
Definition talliedPerVO (n : nat) (batch : list Ballot.t) (tally : list Z) : list Z :=
  foldl (fun t b => addVotes n (squares (Ballot.votes b)) t) tally batch.
Definition talliedTotal (n : nat) (batch : list Ballot.t) (total : Z) : Z :=
  foldl (fun t b => (t + sumZ (take n (squares (Ballot.votes b))))%Z) total batch.

(** [tallyVotes] called until no ballot is left untallied, at most [calls]
    times. *)
Fixpoint tallyAll (calls : nat) : M World unit :=
  p ← gets poll;
  if hasUntalliedBallots p then
    match calls with
    | 0 => throw (OutOfModel "tally calls")
    | S calls' => tallyVotes;; tallyAll calls'
    end
  else mret tt.

(** *** The subsidy, in closed form *)

(** The sum of [f 0], ..., [f (n - 1)]. *)
Definition sumTo (n : nat) (f : nat -> Z) : Z := sumZ (f <$> seq 0 n).

(** [ballot.votes[q]] *)
Definition voteOf (b : Ballot.t) (q : nat) : Z := default 0%Z (Ballot.votes b !! q).

(** [k_ij]: the integer part of [MM * 10 ^ WW / (MM + sum over the options of
    v_i * v_j)]. *)
Definition coefficient (p : Poll) (rowBallot colBallot : Ballot.t) : Z :=
  (Z.of_nat (MM p) * 10 ^ Z.of_nat (WW p)
   / (Z.of_nat (MM p)
      + sumTo (maxVoteOptions (maxValues p))
          (fun q => voteOf rowBallot q * voteOf colBallot q)))%Z.

(** What the pair [(i, j)] of the row block at [rowStart] and the column
    block at [colStart] adds to [subsidy[q]]. *)
Definition pairSubsidy (p : Poll) (rowStart colStart i j q : nat) : Z :=
  let rowBallot := ballotOrEmpty p (rowStart + i) in
  let colBallot := ballotOrEmpty p (colStart + j) in
  if decide (rowStart ≠ colStart ∨ i < j)
  then (2 * coefficient p rowBallot colBallot * voteOf rowBallot q * voteOf colBallot q)%Z
  else 0%Z.

(** What one call adds to [subsidy[q]]. *)
Definition batchSubsidy (p : Poll) (rowStart colStart q : nat) : Z :=
  let size := subsidyBatchSize (batchSizes p) in
  sumTo size (fun i => sumTo size (fun j => pairSubsidy p rowStart colStart i j q)).
End PollMethods.

(** The serialisers of [maci-domainobjs] and of JavaScript, which Poll.ts
    calls one value at a time. A [None] is an exception. *)
Class JsonCodec := {
  Json : Type;
  bigintToString : Z -> string;
  stringToBigInt : string -> option Z;
  Message_toJSON : Message.t -> Json;
  Message_fromJSON : Json -> option Message.t;
  PCommand_toJSON : PCommand.t -> Json;
  PCommand_fromJSON : Json -> option PCommand.t;
  TCommand_toJSON : TCommand.t -> Json;
  TCommand_fromJSON : Json -> option TCommand.t;
  (** [json.cmdType] *)
  cmdTypeOf : Json -> string;
  Ballot_toJSON : Ballot.t -> Json;
  Ballot_fromJSON : Json -> option Ballot.t;
  StateLeaf_toJSON : StateLeaf.t -> Json;
  PubKey_serialize : PubKey -> string;
  PubKey_deserialize : string -> option PubKey;
  PrivKey_serialize : Z -> string;
  PrivKey_deserialize : string -> option Z
}.

Section PollJson.
Context `{Externals} `{JsonCodec}.

Record IJsonPoll := {
  json_pollEndTimestamp : string;
  json_treeDepths : TreeDepths;
  json_batchSizes : BatchSizes;
  json_maxValues : MaxValues;
  json_messages : list Json;
  json_commands : list Json;
  json_ballots : list Json;
  json_encPubKeys : list string;
  json_currentMessageBatchIndex : option number;
  json_stateLeaves : list Json;
  json_results : list string;
  json_numBatchesProcessed : nat
}.

(** [command.toJSON()]: an object that only carries a [cmdType] has no such
    method. *)
Definition ICommand_toJSON (c : ICommand) : result Json :=
  match c with
  | PCmd c => Ok (PCommand_toJSON c)
  | TCmd c => Ok (TCommand_toJSON c)
  | OtherCmd _ => Throw JsError
  end.

Definition toJSON (p : Poll) : result IJsonPoll :=
  commands ← mapM ICommand_toJSON (commands p);
  Ok {| json_pollEndTimestamp := bigintToString (pollEndTimestamp p);
        json_treeDepths := treeDepths p;
        json_batchSizes := batchSizes p;
        json_maxValues := maxValues p;
        json_messages := Message_toJSON <$> messages p;
        json_commands := commands;
        json_ballots := Ballot_toJSON <$> ballots p;
        json_encPubKeys := PubKey_serialize <$> encPubKeys p;
        json_currentMessageBatchIndex := currentMessageBatchIndex p;
        json_stateLeaves := StateLeaf_toJSON <$> stateLeaves p;
        json_results := bigintToString <$> tallyResult p;
        json_numBatchesProcessed := numBatchesProcessed p |}.

Definition ICommand_fromJSON (command : Json) : result ICommand :=
  if decide (cmdTypeOf command = "1") then c ← defined (PCommand_fromJSON command); Ok (PCmd c)
  else if decide (cmdTypeOf command = "2") then c ← defined (TCommand_fromJSON command); Ok (TCmd c)
  else Ok (OtherCmd (cmdTypeOf command)).

(** The loop of [fromJSON] that fills the message tree. *)
Definition fillMessageTree (i : nat) : M World unit :=
  p ← gets poll;
  message ← lift (defined (messages p !! i));
  encPubKey ← lift (defined (encPubKeys p !! i));
  messageTree_insert (hashMessage message encPubKey).

(** [Poll.fromJSON(json, maciState)], with [drawn] values taken from the
    random source before the call. The poll under construction is the poll of
    the world the steps run in. *)
Definition fromJSON (json : IJsonPoll) (maciState : MaciState.t) (drawn : nat)
    : World * result Poll :=
  match stringToBigInt (json_pollEndTimestamp json) with
  | None => (mkWorld maciState (newPoll 0 (Keypair.mk 0 (0, 0)%Z) (json_treeDepths json)
                                  (json_batchSizes json) (json_maxValues json) maciState) drawn,
             Throw JsError)
  | Some pollEndTimestamp =>
      let k := randomValue drawn in
      let poll0 :=
        newPoll pollEndTimestamp (Keypair.mk k (genPubKey k)) (json_treeDepths json)
          (json_batchSizes json) (json_maxValues json) maciState in
      (bs ← lift (mapM (fun b => defined (Ballot_fromJSON b)) (json_ballots json));
       this (fun p => p <| ballots := bs |>);;
       ks ← lift (mapM (fun k => defined (PubKey_deserialize k)) (json_encPubKeys json));
       this (fun p => p <| encPubKeys := ks |>);;
       ms ← lift (mapM (fun m => defined (Message_fromJSON m)) (json_messages json));
       this (fun p => p <| messages := ms |>);;
       cs ← lift (mapM ICommand_fromJSON (json_commands json));
       this (fun p => p <| commands := cs |>);;
       rs ← lift (mapM (fun r => defined (stringToBigInt r)) (json_results json));
       this (fun p => p <| tallyResult := rs |>);;
       this (fun p => p <| currentMessageBatchIndex := json_currentMessageBatchIndex json |>);;
       this (fun p => p <| numBatchesProcessed := json_numBatchesProcessed json |>);;
       (* fill the trees *)
       p ← gets poll;
       forM (length (messages p)) 0 fillMessageTree;;
       (* copy maci state *)
       copyStateFromMaci;;
       gets poll)
      (mkWorld maciState poll0 (S drawn))
  end.

(** [poll.setCoordinatorKeypair(serializedPrivateKey)] *)
Definition setCoordinatorKeypair (serializedPrivateKey : string) : M World unit :=
  k ← lift (defined (PrivKey_deserialize serializedPrivateKey));
  this (fun p => p <| coordinatorKeypair := Keypair.mk k (genPubKey k) |>).

End PollJson.

(** ** A concrete instance

    An instance of the external interfaces that computes, used to run the
    embedding on concrete polls. Encryption is the identity on a message
    whose last word is [0]: the ten words are the state index, the vote
    option index, the new vote weight, the nonce, the two coordinates of the
    new public key, the two coordinates of the key that signed, the poll id
    and the check word. A signature verifies against the key it names. The
    hashes are sums. *)
Module Sample.

Definition sum (l : list Z) : Z := foldr Z.add 0%Z l.

Definition readCommand (m : Message.t) (_ : SharedKey) : option (PCommand.t * Signature) :=
  match Message.dataRest m with
  | [weight; nonce; newX; newY; signerX; signerY; pollId; check] =>
      if decide (check = 0)%Z then
        Some (PCommand.mk (Message.data0 m) (newX, newY) (Message.data1 m) weight nonce pollId 0,
              {| R8 := (signerX, signerY); sigS := 0 |})
      else None
  | _ => None
  end.

#[local] Instance externals : Externals := {|
  SNARK_FIELD_SIZE :=
    21888242871839275222246405745257275088548364400416034343698204186575808495617;
  NOTHING_UP_MY_SLEEVE :=
    8370432830353022751713833565135785980866757267633941821328460903436894336785;
  blankStateLeaf := StateLeaf.mk padKey 0 0;
  hash3 a b c := (a + 2 * b + 3 * c)%Z;
  hashLeftRight a b := (a + 2 * b)%Z;
  sha256Hash l := sum l;
  genTreeCommitment leaves salt _ := (sum leaves + salt)%Z;
  randomValue n := (1000 + Z.of_nat n)%Z;
  quinRoot _ zero _ leaves := map_fold (fun i v acc => (acc + (Z.of_nat i + 1) * v)%Z) zero leaves;
  quinPath tr i := [[Z.of_nat i]];
  quinSubrootPath tr lo hi := Some [[Z.of_nat lo; Z.of_nat hi]];
  verifyMerklePath _ := true;
  genPubKey k := (k, k + 1)%Z;
  genEcdhSharedKey k pub := (k + pub.1, pub.2)%Z;
  decrypt := readCommand;
  verifySignature _ sig pub := bool_decide (R8 sig = pub);
  hashStateLeaf l :=
    ((StateLeaf.pubKey l).1 + (StateLeaf.pubKey l).2
     + StateLeaf.voiceCreditBalance l + StateLeaf.timestamp l)%Z;
  hashBallot b := (Ballot.nonce b + sum (Ballot.votes b))%Z;
  hashMessage m k := (Message.msgType m + sum (Message.data m) + k.1 + k.2)%Z;
  hashPubKey k := (k.1 + k.2)%Z;
  packTallyVotesSmallVals start size n :=
    if decide (size = 0) then None
    else Some (Z.of_nat (start / size) + Z.shiftl (Z.of_nat n) 50)%Z;
  packSubsidySmallVals row col n :=
    (Z.of_nat row + Z.shiftl (Z.of_nat col) 50 + Z.shiftl (Z.of_nat n) 100)%Z
|}.

(** A vote message: for the state leaf [stateIndex], signed by [signer]. *)
Definition vote (stateIndex voteOptionIndex weight nonce : Z) (newKey signer : PubKey)
    : Message.t :=
  Message.mk 1 stateIndex voteOptionIndex
    [weight; nonce; newKey.1; newKey.2; signer.1; signer.2; 0; 0]%Z.

(** A message that does not decrypt. *)
Definition garbage : Message.t := Message.mk 1 0 0 [0; 0; 0; 0; 0; 0; 0; 1]%Z.

Definition topup (stateIndex amount : Z) : Message.t :=
  Message.mk 2 stateIndex amount [0; 0; 0; 0; 0; 0; 0; 0]%Z.

(** Reading a decimal numeral. *)
Definition digitOf (c : Ascii.ascii) : option Z :=
  let n := Z.of_nat (Ascii.nat_of_ascii c) in
  if decide (48 ≤ n ≤ 57)%Z then Some (n - 48)%Z else None.

Fixpoint readDigits (s : string) (acc : Z) : option Z :=
  match s with
  | EmptyString => Some acc
  | String c s' => d ← digitOf c; readDigits s' (10 * acc + d)%Z
  end.

Definition readBigInt (s : string) : option Z :=
  match s with
  | String c s' =>
      if decide (Ascii.nat_of_ascii c = 45) then
        (if decide (s' = EmptyString) then None else Z.opp <$> readDigits s' 0)
      else readDigits s 0
  | EmptyString => Some 0%Z
  end.

(** The serialised forms keep the values; a number is printed in decimal and
    a public key as the number [x * 2 ^ 256 + y]. *)
Inductive json :=
| JMessage (m : Message.t)
| JPCommand (c : PCommand.t)
| JTCommand (c : TCommand.t)
| JBallot (b : Ballot.t)
| JStateLeaf (l : StateLeaf.t).

#[local] Instance codec : JsonCodec := {|
  Json := json;
  bigintToString z := pretty z;
  stringToBigInt := readBigInt;
  Message_toJSON := JMessage;
  Message_fromJSON j := match j with JMessage m => Some m | _ => None end;
  PCommand_toJSON := JPCommand;
  PCommand_fromJSON j := match j with JPCommand c => Some c | _ => None end;
  TCommand_toJSON := JTCommand;
  TCommand_fromJSON j := match j with JTCommand c => Some c | _ => None end;
  cmdTypeOf j := match j with JPCommand _ => "1" | JTCommand _ => "2" | _ => "0" end;
  Ballot_toJSON := JBallot;
  Ballot_fromJSON j := match j with JBallot b => Some b | _ => None end;
  StateLeaf_toJSON := JStateLeaf;
  PubKey_serialize k := pretty (k.1 * 2 ^ 256 + k.2)%Z;
  PubKey_deserialize s := z ← readBigInt s; Some (z / 2 ^ 256, z mod 2 ^ 256)%Z;
  PrivKey_serialize k := pretty k;
  PrivKey_deserialize := readBigInt
|}.

End Sample.

(** ** Concrete polls

    Two sign-ups, with the keys [(5, 6)] and [(11, 12)] and 100 voice credits
    each; batches of five, 25 vote options, trees of depth 10, 2 and 2. *)
Module Fixture.
Import Sample.
#[local] Existing Instance Sample.externals.
#[local] Existing Instance Sample.codec.

Definition voterKey : PubKey := (5, 6)%Z.
Definition otherKey : PubKey := (9, 10)%Z.
Definition encKey : PubKey := (7, 8)%Z.
Definition voter : StateLeaf.t := StateLeaf.mk voterKey 100 0.
Definition secondKey : PubKey := (11, 12)%Z.
Definition secondVoter : StateLeaf.t := StateLeaf.mk secondKey 100 0.

Definition depths : TreeDepths :=
  {| intStateTreeDepth := 1; messageTreeDepth := 2; messageTreeSubDepth := 1;
     voteOptionTreeDepth := 2 |}.
Definition sizes : BatchSizes :=
  {| tallyBatchSize := 5; subsidyBatchSize := 5; messageBatchSize := 5 |}.
Definition limits : MaxValues := {| maxMessages := 25; maxVoteOptions := 25 |}.

(** The state tree of a MACI instance that holds [leaves]. *)
Definition stateTreeOf (leaves : list StateLeaf.t) : QuinTree.t :=
  {| QuinTree.depth := 10; QuinTree.zeroValue := hashStateLeaf blankStateLeaf;
     QuinTree.arity := STATE_TREE_ARITY;
     QuinTree.leaves := list_to_map (zip (seq 0 (length leaves)) (hashStateLeaf <$> leaves));
     QuinTree.nextIndex := length leaves |}.

Definition maciOf (leaves : list StateLeaf.t) : MaciState.t :=
  {| MaciState.stateLeaves := leaves;
     MaciState.stateTree := stateTreeOf leaves;
     MaciState.stateTreeDepth := 10;
     MaciState.numSignUps := length leaves - 1;
     MaciState.numPolls := 0;
     MaciState.pollBeingProcessed := false;
     MaciState.currentPollBeingProcessed := None |}.

Definition maciState : MaciState.t := maciOf [blankStateLeaf; voter; secondVoter].

Definition coordinator : Keypair.t := Keypair.mk 1 (genPubKey 1).

(** A poll as the constructor leaves it. *)
Definition fresh : World :=
  mkWorld maciState (newPoll 1000 coordinator depths sizes limits maciState) 0.

(** The same poll once the state of the MACI instance was copied into it. *)
Definition copied : World := fst (copyStateFromMaci fresh).

(** Vote 5 on option 3 with nonce 1: accepted. *)
Definition goodVote : Message.t := vote 1 3 5 1 voterKey voterKey.
(** Vote 11 on option 0: 121 credits, more than the 100 there are. *)
Definition overspend : Message.t := vote 1 0 11 1 voterKey voterKey.
Definition wrongIndex : Message.t := vote 7 3 5 1 voterKey voterKey.
Definition wrongSignature : Message.t := vote 1 3 5 1 voterKey otherKey.
Definition wrongNonce : Message.t := vote 1 3 5 2 voterKey voterKey.
Definition wrongOption : Message.t := vote 1 25 5 1 voterKey voterKey.

(** What [processMessage] returns for [goodVote]. *)
Definition accepted : IProcessMessagesOutput :=
  {| stateLeafIndex := 1;
     newStateLeaf := StateLeaf.mk voterKey 75 0;
     originalStateLeaf := voter;
     originalStateLeafPathElements := [[1%Z]];
     originalVoteWeight := 0;
     originalVoteWeightsPathElements := [[3%Z]];
     newBallot := Ballot.mk 1 (<[3 := 5%Z]> (replicate 25 0%Z)) 2;
     originalBallot := Ballot.new 25 2;
     originalBallotPathElements := [[1%Z]];
     command := PCommand.mk 1 voterKey 3 5 1 0 0 |}.

(** The second voter votes 2 on option 3. *)
Definition secondVote : Message.t := vote 2 3 2 1 secondKey secondKey.

(** Three messages published to the fresh poll; the last one published is
    the first one processed. *)
Definition calls : list IngestCall :=
  [Publish goodVote encKey; Publish secondVote encKey; Publish overspend encKey].
Definition queued : World := fst (ingestAll calls fresh).

(** The queue, with the state of the MACI instance copied. *)
Definition ready : World := fst (copyStateFromMaci queued).

(** After the one batch was processed, and after the one batch was tallied. *)
Definition processed : World := fst (processMessages 1 0 queued).
Definition tallied : World := fst (tallyVotes processed).

(** A MACI instance that a poll with the id [0] is processing, and a second
    poll of it, with the id [1] and one message, none of them processed. *)
Definition lockedByFirst : MaciState.t :=
  {| MaciState.stateLeaves := MaciState.stateLeaves maciState;
     MaciState.stateTree := MaciState.stateTree maciState;
     MaciState.stateTreeDepth := MaciState.stateTreeDepth maciState;
     MaciState.numSignUps := MaciState.numSignUps maciState;
     MaciState.numPolls := 1;
     MaciState.pollBeingProcessed := true;
     MaciState.currentPollBeingProcessed := Some 0 |}.
Definition secondPoll : World :=
  fst (publishMessage goodVote encKey
         (mkWorld lockedByFirst (newPoll 1000 coordinator depths sizes limits lockedByFirst) 0)).

(** A top-up of 50 voice credits for the first voter as the only message,
    with the state copied. *)
Definition toppedUp : World :=
  fst (copyStateFromMaci (fst (topupMessage (topup 1 50) fresh))).

(** The vote that is rejected as the only message, with the state copied and
    the batch index at the first batch. *)
Definition rejectedOnly : World :=
  let w := fst (copyStateFromMaci (fst (publishMessage overspend encKey fresh))) in
  w <| poll := (poll w) <| currentMessageBatchIndex := Some (Num 0) |> |>.

(** The three messages in batches of two: two batches of messages, two of
    ballots. *)
Definition pairs : BatchSizes :=
  {| tallyBatchSize := 2; subsidyBatchSize := 2; messageBatchSize := 2 |}.
Definition freshPairs : World :=
  mkWorld maciState (newPoll 1000 coordinator depths pairs limits maciState) 0.
Definition queuedPairs : World := fst (ingestAll calls freshPairs).
Definition halfProcessed : World := fst (processMessages 1 0 queuedPairs).
Definition processedPairs : World := fst (processMessages 1 0 halfProcessed).

(** A poll whose message tree has the depth 1, so room for five messages,
    and six calls of [publishMessage] with the vote that is accepted. *)
Definition shallow : TreeDepths :=
  {| intStateTreeDepth := 1; messageTreeDepth := 1; messageTreeSubDepth := 1;
     voteOptionTreeDepth := 2 |}.
Definition freshShallow : World :=
  mkWorld maciState (newPoll 1000 coordinator shallow sizes limits maciState) 0.
Definition sixCalls : list IngestCall := replicate 6 (Publish goodVote encKey).

(** The poll read back from the JSON form of the queue. *)
Definition readBack : World * result Poll :=
  match toJSON (poll queued) with
  | Ok json => fromJSON json maciState 0
  | Throw e => (queued, Throw e)
  end.
End Fixture.

(** ** Predicates and relations of the statements and their proofs *)

(** What the code after the five rules can raise is never a
    [ProcessMessageError]. *)
Definition plain {A} (r : result A) : Prop :=
  ∀ kind, r ≠ Throw (ProcessMessageError kind).

(** [preserves R m]: every run of [m], whether it returns or raises, takes a
    world to one that is [R]-related to it. *)
Definition preserves {A} (R : World -> World -> Prop) (m : M World A) : Prop :=
  ∀ w w' r, m w = (w', r) -> R w w'.

(** A relation that says that some part [f] of the world is the same. *)
Definition same {X} (f : World -> X) : World -> World -> Prop :=
  fun w w' => f w' = f w.

(** A part of the world that no write to the state leaves, the ballots and
    their trees touches. *)
Class IgnoresVoters {X} (f : World -> X) : Prop := {
  ignores_stateLeaves w v : f (w <| poll := (poll w) <| stateLeaves := v |> |>) = f w;
  ignores_stateTree w v : f (w <| poll := (poll w) <| stateTree := v |> |>) = f w;
  ignores_ballots w v : f (w <| poll := (poll w) <| ballots := v |> |>) = f w;
  ignores_ballotTree w v : f (w <| poll := (poll w) <| ballotTree := v |> |>) = f w;
  ignores_emptyBallotHash w v : f (w <| poll := (poll w) <| emptyBallotHash := v |> |>) = f w;
  ignores_stateCopied w v : f (w <| poll := (poll w) <| stateCopied := v |> |>) = f w;
  ignores_drawn w v : f (w <| drawn := v |>) = f w
}.

(** The part of the poll that the loop over a batch reads to find its
    slots. *)
Definition batchFrame (w : World)
    : option number * BatchSizes * list Message.t * list PubKey * nat :=
  (currentMessageBatchIndex (poll w), batchSizes (poll w), messages (poll w),
   encPubKeys (poll w), numBatchesProcessed (poll w)).

(** The message queue. *)
Definition queue (w : World) : list Message.t * list PubKey * list ICommand * QuinTree.t :=
  (messages (poll w), encPubKeys (poll w), commands (poll w), messageTree (poll w)).

(** The queue is kept: the three arrays are the same and the message tree
    has the leaves it had, possibly followed by more. *)
Definition queueKept (w w' : World) : Prop :=
  messages (poll w') = messages (poll w)
  ∧ encPubKeys (poll w') = encPubKeys (poll w)
  ∧ commands (poll w') = commands (poll w)
  ∧ QuinTree.nextIndex (messageTree (poll w)) ≤ QuinTree.nextIndex (messageTree (poll w'))
  ∧ ∀ i, i < QuinTree.nextIndex (messageTree (poll w)) ->
         QuinTree.leaves (messageTree (poll w')) !! i
         = QuinTree.leaves (messageTree (poll w)) !! i.

(** The world with its three tallies replaced. *)
Definition withTallies (T P : list Z) (S : Z) (w : World) : World :=
  w <| poll := (poll w) <| tallyResult := T |> <| perVOSpentVoiceCredits := P |>
                        <| totalSpentVoiceCredits := S |> |>.

(** The world with its subsidy replaced. *)
Definition withSubsidy (S : list Z) (w : World) : World :=
  w <| poll := (poll w) <| subsidy := S |> |>.

(** A ballot without a negative vote. *)
Definition nonNegative (b : Ballot.t) : Prop := Forall (fun v => 0 ≤ v)%Z (Ballot.votes b).

(** What [equals] compares, but for the key pair. *)
Definition compared (w : World)
    : Keypair.t * TreeDepths * BatchSizes * MaxValues * list Message.t * list PubKey :=
  (coordinatorKeypair (poll w), treeDepths (poll w), batchSizes (poll w),
   maxValues (poll w), messages (poll w), encPubKeys (poll w)).

(** A slot of a batch that holds nothing to apply: no message, a message that
    is neither a vote nor a top-up, or a vote that [processMessage] rejects
    (one without an encryption key is rejected: it does not decrypt). *)
Definition idleSlot `{Externals} (p : Poll) (idx : nat) : Prop :=
  match messages p !! idx with
  | None => True
  | Some message =>
      if decide (Message.msgType message = 1%Z) then
        match encPubKeys p !! idx with
        | Some encPubKey =>
            ∃ kind, processMessage p message encPubKey = Throw (ProcessMessageError kind)
        | None => True
        end
      else Message.msgType message ≠ 2%Z
  end.

(** What the calculation of one subsidy batch reads and does not write. *)
Definition subsidyFrame (w : World) :=
  (subsidySalts (poll w), rbi (poll w), cbi (poll w), ballots (poll w), batchSizes (poll w),
   treeDepths (poll w)).

(** What steers [processMessages] from one batch to the next: the lock, the
    salts, the batch index and the count of batches, with the queue they
    refer to. Neither the copy of the state nor the loop over a batch writes
    any of it. *)
Definition steering (w : World)
    : MaciState.t * gmap number Z * option number * nat * list Message.t * BatchSizes * nat :=
  (maci w, sbSalts (poll w), currentMessageBatchIndex (poll w),
   numBatchesProcessed (poll w), messages (poll w), batchSizes (poll w), pollId (poll w)).

(** The same, with the mark of the copy of the state. *)
Definition control (w : World) : bool * _ := (stateCopied (poll w), steering w).

(** The leaves that stand for the queue: the hash of each message under its
    key. *)
Definition queueLeaves `{Externals} (p : Poll) : list Z :=
  zip_with hashMessage (messages p) (encPubKeys p).

(** The message tree of the constructor after [leaves] were inserted, one
    after the other. *)
Definition messageTreeOf `{Externals} (depths : TreeDepths) (leaves : list Z) : QuinTree.t :=
  {| QuinTree.depth := messageTreeDepth depths;
     QuinTree.zeroValue := NOTHING_UP_MY_SLEEVE;
     QuinTree.arity := MESSAGE_TREE_ARITY;
     QuinTree.leaves := map_seq 0 leaves;
     QuinTree.nextIndex := length leaves |}.

(** The state of the voters: the leaves, the ballots and their two trees. *)
Definition voters (w : World)
    : list StateLeaf.t * option QuinTree.t * list Ballot.t * option QuinTree.t :=
  (stateLeaves (poll w), stateTree (poll w), ballots (poll w), ballotTree (poll w)).

(** ** Properties *)

(** *** Reasoning about results and methods *)

Lemma bind_Ok {A B} (r : result A) (f : A -> result B) b :
  r ≫= f = Ok b -> ∃ a, r = Ok a ∧ f a = Ok b.
Proof. destruct r; simpl; [eauto | discriminate]. Qed.

Lemma defined_Ok {A} (o : option A) a : defined o = Ok a -> o = Some a.
Proof. destruct o; simpl; congruence. Qed.

Lemma assert_Ok b msg u : assert b msg = Ok u -> b = true.
Proof. destruct b; simpl; congruence. Qed.

Lemma M_bind_Ok {St A B} (m : M St A) (f : A -> M St B) s s' b :
  (m ≫= f) s = (s', Ok b) -> ∃ s1 a, m s = (s1, Ok a) ∧ f a s1 = (s', Ok b).
Proof.
  unfold mbind, M_bind. destruct (m s) as [s1 [a|e]]; [eauto | discriminate].
Qed.

Lemma M_bind_inv {St A B} (m : M St A) (f : A -> M St B) s s' r :
  (m ≫= f) s = (s', r) ->
  (∃ s1 a, m s = (s1, Ok a) ∧ f a s1 = (s', r)) ∨ (∃ e, m s = (s', Throw e) ∧ r = Throw e).
Proof.
  unfold mbind, M_bind. destruct (m s) as [s1 [a|e]]; [eauto | intros [= <- <-]; eauto].
Qed.

Lemma lift_Ok {St A} (r : result A) (s s' : St) a :
  lift r s = (s', Ok a) -> s' = s ∧ r = Ok a.
Proof. unfold lift. intros [= -> ->]. done. Qed.

Lemma gets_Ok {St A} (f : St -> A) (s s' : St) a :
  gets f s = (s', Ok a) -> s' = s ∧ a = f s.
Proof. unfold gets. intros [= -> ->]. done. Qed.

Lemma mret_Ok {St A} (x : A) (s s' : St) a :
  mret (M := M St) x s = (s', Ok a) -> s' = s ∧ a = x.
Proof. unfold mret, M_ret. intros [= -> ->]. done. Qed.

Lemma mret_Ok' {St A} (x : A) (s s' : St) r :
  mret (M := M St) x s = (s', r) -> s' = s ∧ r = Ok x.
Proof. unfold mret, M_ret. intros [= -> ->]. done. Qed.

Lemma modify_Ok {St} (f : St -> St) (s s' : St) u :
  modify f s = (s', Ok u) -> s' = f s.
Proof. unfold modify. by intros [= ->]. Qed.

(** One step of a run that ended well: the run of [m ≫= f] is split into
    the run of [m] and the run of [f], and a step that only reads, checks or
    writes is resolved. *)
Ltac run_step H :=
  lazymatch type of H with
  | (_ ≫= _) _ = (_, Ok _) =>
      let s := fresh "w" in let a := fresh "a" in let H1 := fresh "Hrun" in
      apply M_bind_Ok in H as (s & a & H1 & H); run_step H1
  | lift _ _ = (_, Ok _) =>
      let H1 := fresh "Hval" in apply lift_Ok in H as [-> H1]
  | gets _ _ = (_, Ok _) => apply gets_Ok in H as [-> ->]
  | mret _ _ = (_, Ok _) => apply mret_Ok in H as [-> ->]
  | modify _ _ = (_, Ok _) => apply modify_Ok in H as ->
  | this _ _ = (_, Ok _) => apply modify_Ok in H as ->
  | maciStateRef _ _ = (_, Ok _) => apply modify_Ok in H as ->
  | genRandomSalt _ = (_, Ok _) => unfold genRandomSalt in H; injection H as <- <-
  | _ => idtac
  end.

Section Properties.
Context `{Externals}.

(** *** hasUnprocessedMessages *)

(** C10. [hasUnprocessedMessages] counts one batch when there are at most
    [messageBatchSize] messages (none included), and otherwise the quotient
    of the number of messages by the batch size, plus one when the remainder
    is positive; it answers whether [numBatchesProcessed] is below that
    count. A poll without messages that has processed no batch has
    unprocessed messages. (A batch size of [0] with at least one message
    yields [Infinity] batches.) *)
Theorem C10_hasUnprocessedMessages_counts_batches (p : Poll) :
  let n := length (messages p) in
  let size := messageBatchSize (batchSizes p) in
  (n ≤ size ->
     totalBatches p = Some 1
     ∧ hasUnprocessedMessages p = bool_decide (numBatchesProcessed p < 1))
  ∧ (size < n -> 0 < size ->
     totalBatches p = Some (n / size + (if decide (0 < n mod size) then 1 else 0))
     ∧ hasUnprocessedMessages p
       = bool_decide (numBatchesProcessed p < n / size + (if decide (0 < n mod size) then 1 else 0)))
  ∧ (size < n -> size = 0 -> totalBatches p = None ∧ hasUnprocessedMessages p = true)
  ∧ (n = 0 -> numBatchesProcessed p = 0 -> hasUnprocessedMessages p = true).
Proof.
  intros n size. unfold hasUnprocessedMessages, totalBatches, jsRem.
  fold n. fold size.
  split; [intros Hle | split; [intros Hlt Hpos | split; [intros Hlt Hzero | intros Hn Hp]]].
  - destruct (decide (n ≤ size)); [|lia].
    rewrite bool_decide_eq_false_2 by lia. done.
  - destruct (decide (n ≤ size)); [lia|].
    destruct (decide (size = 0)); [lia|].
    rewrite bool_decide_eq_true_2 by lia. simpl.
    destruct (decide (0 < n mod size)).
    + rewrite bool_decide_eq_true_2 by lia. simpl.
      split; [f_equal; lia | apply bool_decide_ext; lia].
    + rewrite bool_decide_eq_false_2 by lia. simpl.
      split; [f_equal; lia | apply bool_decide_ext; lia].
  - destruct (decide (n ≤ size)); [lia|].
    destruct (decide (size = 0)); [|lia]. simpl.
    rewrite andb_false_r. done.
  - destruct (decide (n ≤ size)); [|lia].
    rewrite bool_decide_eq_false_2 by lia. simpl.
    rewrite Hp. done.
Qed.

(** *** processMessage *)

(** C1. A command that [processMessage] accepts passed the five rules, and
    the new state leaf is the old one with the public key of the command and
    the balance [old balance + w_old² - w_new²], computed over the integers;
    the new ballot is the old one with the nonce increased by one and the
    vote of the option set to [w_new]. Hence the new balance plus [w_new²]
    is the old balance plus [w_old²]. *)
Theorem C1_accepted_vote_updates_leaf_and_ballot
    (p : Poll) (message : Message.t) (encPubKey : PubKey) (r : IProcessMessagesOutput) :
  processMessage p message encPubKey = Ok r ->
  ∃ signature st stateLeaf ballot w_old,
    let c := command r in
    let w_new := PCommand.newVoteWeight c in
    let option := Z.to_nat (PCommand.voteOptionIndex c) in
    decrypt message (genEcdhSharedKey (Keypair.privKey (coordinatorKeypair p)) encPubKey)
      = Some (c, signature)
    (* the five rules *)
    ∧ stateTree p = Some st
    ∧ (1 ≤ PCommand.stateIndex c
         < Z.of_nat (length (ballots p) `min` QuinTree.nextIndex st))%Z
    ∧ verifySignature c signature (StateLeaf.pubKey stateLeaf) = true
    ∧ PCommand.nonce c = (Ballot.nonce ballot + 1)%Z
    ∧ (0 ≤ PCommand.voteOptionIndex c < Z.of_nat (maxVoteOptions (maxValues p)))%Z
    ∧ (0 ≤ StateLeaf.voiceCreditBalance stateLeaf + w_old * w_old - w_new * w_new)%Z
    (* the leaf and the ballot the command is applied to *)
    ∧ Z.of_nat (stateLeafIndex r) = PCommand.stateIndex c
    ∧ stateLeaves p !! stateLeafIndex r = Some stateLeaf
    ∧ ballots p !! stateLeafIndex r = Some ballot
    ∧ Ballot.votes ballot !! option = Some w_old
    (* what is returned *)
    ∧ newStateLeaf r
      = StateLeaf.mk (PCommand.newPubKey c)
          (StateLeaf.voiceCreditBalance stateLeaf + w_old * w_old - w_new * w_new)
          (StateLeaf.timestamp stateLeaf)
    ∧ newBallot r
      = Ballot.mk (Ballot.nonce ballot + 1)
          (<[option := w_new]> (Ballot.votes ballot))
          (Ballot.voteOptionTreeDepth ballot)
    ∧ (StateLeaf.voiceCreditBalance (newStateLeaf r) + w_new * w_new
       = StateLeaf.voiceCreditBalance stateLeaf + w_old * w_old)%Z.
Proof.
  unfold processMessage. intros Hr.
  destruct (processMessage_try p message encPubKey) as [r'|e] eqn:Htry;
    [|destruct e; discriminate].
  injection Hr as ->.
  unfold processMessage_try in Htry.
  repeat (apply bind_Ok in Htry as (? & ? & Htry) || (case_match; try discriminate)).
  simplify_eq.
  repeat match goal with Hd : defined _ = Ok _ |- _ => apply defined_Ok in Hd end.
  repeat match goal with
         | Hb : _ || _ = false |- _ => apply orb_false_iff in Hb as [? ?]
         | Hb : negb _ = false |- _ => apply negb_false_iff in Hb
         | Hb : bool_decide _ = false |- _ => apply bool_decide_eq_false_1 in Hb
         | Hb : bool_decide _ = true |- _ => apply bool_decide_eq_true_1 in Hb
         end.
  match goal with
  | Hst : stateTree p = Some _, Hs : defined (stateTree p) ≫= _ = Ok false |- _ =>
      rewrite Hst in Hs; simpl in Hs; injection Hs as Hs;
      apply bool_decide_eq_false_1 in Hs
  end.
  eexists _, _, _, _, _. cbn.
  repeat split; try eassumption; try reflexivity; simpl; lia.
Qed.


Lemma plain_Ok {A} (a : A) : plain (Ok a).
Proof. intros kind. discriminate. Qed.

Lemma plain_bind {A B} (r : result A) (f : A -> result B) :
  plain r -> (∀ a, plain (f a)) -> plain (r ≫= f).
Proof.
  intros Hr Hf kind. destruct r as [a|e]; simpl; [apply Hf|].
  intros [= ->]. by destruct (Hr kind).
Qed.

Lemma plain_defined {A} (o : option A) : plain (defined o).
Proof. intros kind. destruct o; discriminate. Qed.

Lemma plain_update i v tr : plain (QuinTree.update i v tr).
Proof. intros kind. unfold QuinTree.update. case_decide; discriminate. Qed.

Lemma plain_insert v tr : plain (QuinTree.insert v tr).
Proof.
  unfold QuinTree.insert. apply plain_bind; [apply plain_update | intros; apply plain_Ok].
Qed.

Lemma plain_insertOpt v tr : plain (QuinTree.insertOpt v tr).
Proof.
  unfold QuinTree.insertOpt. apply plain_bind; [apply plain_defined | intros; apply plain_insert].
Qed.

Lemma plain_forLoop {St} count from (body : nat -> St -> result St) s :
  (∀ i s, plain (body i s)) -> plain (forLoop count from body s).
Proof.
  intros Hbody. revert from s. induction count as [|count IH]; intros from s; simpl.
  - apply plain_Ok.
  - apply plain_bind; [apply Hbody | intros; apply IH].
Qed.

Lemma plain_genMerklePath tr i : plain (genMerklePath tr i).
Proof. intros kind. unfold genMerklePath. case_decide; discriminate. Qed.

Lemma plain_voteTree depth n votes : plain (voteTree depth n votes).
Proof. unfold voteTree. apply plain_forLoop. intros. apply plain_insertOpt. Qed.

Create HintDb plain.
#[local] Hint Resolve plain_Ok plain_defined plain_update plain_insert plain_insertOpt
  plain_genMerklePath plain_voteTree : plain.

(** C2. The rules of [processMessage] are tried in a fixed order and the
    first that fails decides the error: the state index (between 1 and the
    smaller of the number of ballots and the size of the state tree), the
    signature against the key of the stored state leaf, the nonce (that of
    the ballot plus one), the vote option index (below [maxVoteOptions]) and
    the voice credits left (not negative). No exception other than a
    [ProcessMessageError] leaves [processMessage]: a message that does not
    decrypt, and whatever else is raised, is a [FailedDecryption]. *)
Theorem C2_first_failing_rule_decides_the_error
    (p : Poll) (message : Message.t) (encPubKey : PubKey) :
  let r := processMessage p message encPubKey in
  let sharedKey := genEcdhSharedKey (Keypair.privKey (coordinatorKeypair p)) encPubKey in
  (∀ e, r = Throw e -> ∃ kind, e = ProcessMessageError kind)
  ∧ (decrypt message sharedKey = None -> r = Throw (ProcessMessageError FailedDecryption))
  ∧ (∀ c signature st,
       decrypt message sharedKey = Some (c, signature) ->
       stateTree p = Some st ->
       let i := PCommand.stateIndex c in
       let option := PCommand.voteOptionIndex c in
       let w_new := PCommand.newVoteWeight c in
       let validIndex :=
         (1 ≤ i < Z.of_nat (length (ballots p) `min` QuinTree.nextIndex st))%Z in
       let validOption := (0 ≤ option < Z.of_nat (maxVoteOptions (maxValues p)))%Z in
       (* rule 1 *)
       (¬ validIndex -> r = Throw (ProcessMessageError InvalidStateLeafIndex))
       ∧ (validIndex ->
          ∀ stateLeaf ballot,
            stateLeaves p !! Z.to_nat i = Some stateLeaf ->
            ballots p !! Z.to_nat i = Some ballot ->
            (* rule 2 *)
            (verifySignature c signature (StateLeaf.pubKey stateLeaf) = false ->
               r = Throw (ProcessMessageError InvalidSignature))
            ∧ (verifySignature c signature (StateLeaf.pubKey stateLeaf) = true ->
               (* rule 3 *)
               (PCommand.nonce c ≠ (Ballot.nonce ballot + 1)%Z ->
                  r = Throw (ProcessMessageError InvalidNonce))
               ∧ (PCommand.nonce c = (Ballot.nonce ballot + 1)%Z ->
                  (* rule 4 *)
                  (¬ validOption -> r = Throw (ProcessMessageError InvalidVoteOptionIndex))
                  ∧ (validOption ->
                     ∀ w_old,
                       Ballot.votes ballot !! Z.to_nat option = Some w_old ->
                       let credits_left :=
                         (StateLeaf.voiceCreditBalance stateLeaf + w_old * w_old
                          - w_new * w_new)%Z in
                       (* rule 5 *)
                       ((credits_left < 0)%Z ->
                          r = Throw (ProcessMessageError InsufficientVoiceCredits))
                       ∧ ((0 ≤ credits_left)%Z ->
                          (∃ out, r = Ok out)
                          ∨ r = Throw (ProcessMessageError FailedDecryption))))))).
Proof.
  intros r sharedKey. subst r.
  split; [|split].
  - intros e. unfold processMessage. destruct (processMessage_try p message encPubKey) as [out|[]];
      intros [= <-]; eauto.
  - intros Hdec. unfold processMessage, processMessage_try. fold sharedKey. rewrite Hdec. done.
  - intros c signature st Hdec Hst i option w_new validIndex validOption.
    unfold processMessage, processMessage_try. fold sharedKey. rewrite Hdec, Hst. cbn.
    fold i option w_new.
    split.
    { intros Hbad. subst validIndex.
      repeat case_bool_decide; simpl; try done; lia. }
    intros Hidx. subst validIndex.
    rewrite (bool_decide_eq_false_2 (_ ≤ i)%Z) by lia.
    rewrite (bool_decide_eq_false_2 (i < 1)%Z) by lia.
    cbn.
    rewrite (bool_decide_eq_false_2 (_ ≤ i)%Z) by lia.
    intros stateLeaf ballot Hleaf Hballot. rewrite Hleaf. cbn.
    split; [intros ->; done | intros ->; cbn].
    rewrite Hballot. cbn.
    split; [intros Hn; rewrite bool_decide_eq_false_2 by done; done|].
    intros Hn. rewrite bool_decide_eq_true_2 by done. cbn.
    split.
    { intros Hbad. subst validOption.
      repeat case_bool_decide; simpl; try done; lia. }
    intros Hopt. subst validOption.
    rewrite (bool_decide_eq_false_2 (option < 0)%Z) by lia.
    rewrite (bool_decide_eq_false_2 (_ ≤ option)%Z) by lia.
    cbn. intros w_old Hw. rewrite Hw. cbn.
    split; [intros Hneg; rewrite bool_decide_eq_true_2 by done; done|].
    intros Hpos. rewrite bool_decide_eq_false_2 by lia.
    match goal with
    | |- (∃ out, match ?x with _ => _ end = _) ∨ _ =>
        assert (plain x) as Hplain
          by (repeat (apply plain_bind; [auto with plain | intros]); auto with plain);
        destruct x as [out|[kind|msg| |why]]; eauto; by destruct (Hplain kind)
    end.
Qed.

(** *** Message ingest *)

Ltac run_cases H :=
  unfold publishMessage, topupMessage, messageTree_insert, newKeypair, genRandomSalt,
    this, modify, gets, lift, assert, assertDataInRange, QuinTree.insert, QuinTree.update,
    mbind, mret, M_bind, M_ret, result_bind in H;
  cbn in H;
  repeat (case_match; simplify_eq/=).

Lemma insert_nextIndex v tr tr' :
  QuinTree.insert v tr = Ok tr' -> QuinTree.nextIndex tr' = QuinTree.nextIndex tr + 1.
Proof.
  unfold QuinTree.insert, QuinTree.update. case_decide; simpl; [|done].
  by intros [= <-].
Qed.

Lemma ingest_ingested room c w w' r :
  ingest c w = (w', r) ->
  ingested room (poll w) ->
  ingested room (poll w')
  ∧ length (messages (poll w')) ≤ S (length (messages (poll w)))
  ∧ (r = Ok tt ->
       length (messages (poll w')) = S (length (messages (poll w)))
       ∧ length (encPubKeys (poll w')) = S (length (encPubKeys (poll w)))
       ∧ length (commands (poll w')) = S (length (commands (poll w)))
       ∧ QuinTree.nextIndex (messageTree (poll w'))
         = S (QuinTree.nextIndex (messageTree (poll w))))
  ∧ (∀ msg, r = Throw (AssertionError msg) -> w' = w)
  ∧ (r = Throw JsError ->
       QuinTree.nextIndex (messageTree (poll w)) = room
       ∧ length (messages (poll w')) = S (length (messages (poll w)))
       ∧ length (encPubKeys (poll w')) = S (length (encPubKeys (poll w)))
       ∧ commands (poll w') = commands (poll w)
       ∧ messageTree (poll w') = messageTree (poll w)).
Proof.
  intros Hrun (Hroom & Hkeys & Hcommands & Hnext).
  unfold ingested, QuinTree.capacity in *.
  destruct c; unfold ingest in Hrun; run_cases Hrun;
    unfold QuinTree.capacity in *; rewrite ?length_app; cbn.
  all: (split; [repeat split; lia|]); (split; [lia|]).
  all: (split; [intros Hr; try discriminate Hr; lia|]).
  all: (split; [intros msg [=]; done|]).
  all: intros Hr; try discriminate Hr.
  all: try (unfold assert in *; case_match; simplify_eq).
  all: repeat split; first [lia | done].
Qed.

Lemma ingestEach_snoc calls c w :
  ingestEach (calls ++ [c]) w = fst (ingest c (ingestEach calls w)).
Proof. unfold ingestEach. by rewrite foldl_snoc. Qed.

Lemma ingestEach_ingested room calls w :
  ingested room (poll w) ->
  ingested room (poll (ingestEach calls w))
  ∧ length (messages (poll (ingestEach calls w))) ≤ length (messages (poll w)) + length calls.
Proof.
  intros Hw. induction calls as [|c calls IH] using rev_ind.
  - cbn. split; [done | lia].
  - rewrite ingestEach_snoc, length_app. cbn.
    destruct IH as [Hin Hlen].
    destruct (ingest c (ingestEach calls w)) as [w1 r] eqn:Hc. cbn.
    destruct (ingest_ingested room c _ _ _ Hc Hin) as (Hin1 & Hlen1 & _).
    split; [done | lia].
Qed.

Lemma ingestAll_ingested room calls w w' r :
  ingestAll calls w = (w', r) ->
  ingested room (poll w) ->
  ingested room (poll w')
  ∧ (r = Ok tt ->
       w' = ingestEach calls w
       ∧ length (messages (poll w')) = length (messages (poll w)) + length calls
       ∧ QuinTree.nextIndex (messageTree (poll w'))
         = QuinTree.nextIndex (messageTree (poll w)) + length calls).
Proof.
  revert w. induction calls as [|c calls IH]; intros w Hrun Hw; cbn in Hrun.
  - apply mret_Ok' in Hrun as [-> ->]. split; [done|]. intros _. cbn. repeat split; lia.
  - apply M_bind_inv in Hrun as [(w1 & [] & Hc & Hrest)|(e & Hc & ->)].
    + destruct (ingest_ingested room c _ _ _ Hc Hw) as (Hw1 & _ & Hok & _).
      destruct (Hok eq_refl) as (Hm & _ & _ & Hn).
      destruct (IH w1 Hrest Hw1) as [Hw' Hall].
      split; [done|]. intros Hr. destruct (Hall Hr) as (-> & Hlen & Hnext).
      cbn. rewrite Hc. cbn. repeat split; lia.
    + destruct (ingest_ingested room c _ _ _ Hc Hw) as (Hw1 & _).
      split; [done | done].
Qed.

Lemma newPoll_ingested pollEndTimestamp coordinatorKeypair treeDepths batchSizes maxValues
    maciState :
  ingested (MESSAGE_TREE_ARITY ^ messageTreeDepth treeDepths)
    (newPoll pollEndTimestamp coordinatorKeypair treeDepths batchSizes maxValues maciState).
Proof. unfold ingested, QuinTree.capacity. cbn. repeat split; lia. Qed.

Lemma ingest_Ok_lengths c w w' :
  ingest c w = (w', Ok tt) ->
  length (messages (poll w')) = S (length (messages (poll w)))
  ∧ length (encPubKeys (poll w')) = S (length (encPubKeys (poll w))).
Proof.
  intros Hrun. destruct c; unfold ingest in Hrun; run_cases Hrun;
    rewrite ?length_app; cbn; lia.
Qed.

(** The message tree after calls that return, on a new poll: the leaves of
    the queue and nothing else. *)
Lemma ingest_queue_tree c w w' :
  ingest c w = (w', Ok tt) ->
  length (encPubKeys (poll w)) = length (messages (poll w)) ->
  messageTree (poll w) = messageTreeOf (treeDepths (poll w)) (queueLeaves (poll w)) ->
  messageTree (poll w') = messageTreeOf (treeDepths (poll w')) (queueLeaves (poll w')).
Proof.
  intros Hrun Hlen Htree.
  destruct c; unfold ingest in Hrun; run_cases Hrun;
    rewrite Htree; unfold messageTreeOf, queueLeaves; cbn;
    (rewrite zip_with_app by done); cbn;
    rewrite map_seq_snoc, length_app; cbn; done.
Qed.

Lemma ingestAll_queue_tree calls w w' :
  ingestAll calls w = (w', Ok tt) ->
  length (encPubKeys (poll w)) = length (messages (poll w)) ->
  messageTree (poll w) = messageTreeOf (treeDepths (poll w)) (queueLeaves (poll w)) ->
  messageTree (poll w') = messageTreeOf (treeDepths (poll w')) (queueLeaves (poll w')).
Proof.
  revert w. induction calls as [|c calls IH]; intros w Hrun Hlen Htree; cbn in Hrun.
  - by apply mret_Ok in Hrun as [-> _].
  - apply M_bind_Ok in Hrun as (w1 & [] & Hc & Hrest).
    apply (IH w1 Hrest).
    + destruct (ingest_Ok_lengths c _ _ Hc) as [Hm Hk]. lia.
    + by apply (ingest_queue_tree c w).
Qed.

(** C5. After any sequence of [publishMessage] and [topupMessage] calls on a
    new poll, whichever of them return and whichever raise, [encPubKeys] has
    the length of [messages] and [commands] has the length
    [messageTree.nextIndex]. The two numbers are one as long as the messages
    fit in the message tree, that is, exactly when there are at most
    [MESSAGE_TREE_ARITY ^ messageTreeDepth] messages. A call that fails one
    of its assertions changes nothing; a call that returns adds one element
    to each of the three arrays and one leaf to the tree, whether the command
    decrypted or a placeholder was stored; and a call that passes its
    assertions when the tree is full raises, in the insert, after the message
    and the key were added: the messages are then ahead of the commands and
    of the tree. *)
Theorem C5_ingest_keeps_arrays_and_tree_aligned_while_the_tree_has_room
    (pollEndTimestamp : Z) (coordinatorKeypair : Keypair.t) (treeDepths : TreeDepths)
    (batchSizes : BatchSizes) (maxValues : MaxValues) (maciState : MaciState.t) (drawn : nat)
    (calls : list IngestCall) :
  let p0 := newPoll pollEndTimestamp coordinatorKeypair treeDepths batchSizes maxValues maciState in
  let room := MESSAGE_TREE_ARITY ^ messageTreeDepth treeDepths in
  let p := poll (ingestEach calls (mkWorld maciState p0 drawn)) in
  (* after the calls, each of them run to its end or to its exception *)
  length (encPubKeys p) = length (messages p)
  ∧ length (commands p) = QuinTree.nextIndex (messageTree p)
  ∧ QuinTree.nextIndex (messageTree p) = length (messages p) `min` room
  ∧ length (messages p) ≤ length calls
  ∧ (aligned p <-> length (messages p) ≤ room)
  ∧ (length calls ≤ room -> aligned p)
  (* the calls up to the first that raises *)
  ∧ (∀ w' r,
       ingestAll calls (mkWorld maciState p0 drawn) = (w', r) ->
       length (encPubKeys (poll w')) = length (messages (poll w'))
       ∧ length (commands (poll w')) = QuinTree.nextIndex (messageTree (poll w'))
       ∧ QuinTree.nextIndex (messageTree (poll w')) = length (messages (poll w')) `min` room
       ∧ (r = Ok tt -> aligned (poll w') ∧ length (messages (poll w')) = length calls))
  (* one call, from a world the calls have led to *)
  ∧ (∀ w c w1 r,
       ingested room (poll w) ->
       ingest c w = (w1, r) ->
       (r = Ok tt ->
          length (messages (poll w1)) = S (length (messages (poll w)))
          ∧ length (encPubKeys (poll w1)) = S (length (encPubKeys (poll w)))
          ∧ length (commands (poll w1)) = S (length (commands (poll w)))
          ∧ QuinTree.nextIndex (messageTree (poll w1))
            = S (QuinTree.nextIndex (messageTree (poll w))))
       ∧ (∀ msg, r = Throw (AssertionError msg) -> w1 = w)
       ∧ (r = Throw JsError ->
            QuinTree.nextIndex (messageTree (poll w)) = room
            ∧ length (messages (poll w1)) = S (length (messages (poll w)))
            ∧ length (encPubKeys (poll w1)) = S (length (encPubKeys (poll w)))
            ∧ commands (poll w1) = commands (poll w)
            ∧ messageTree (poll w1) = messageTree (poll w))).
Proof.
  intros p0 room p.
  pose proof (newPoll_ingested pollEndTimestamp coordinatorKeypair treeDepths batchSizes
                maxValues maciState) as H0.
  fold p0 room in H0.
  destruct (ingestEach_ingested room calls (mkWorld maciState p0 drawn) H0)
    as [(Hroom & Hkeys & Hcommands & Hnext) Hlen].
  fold p in Hroom, Hkeys, Hcommands, Hnext, Hlen. cbn in Hlen.
  unfold aligned.
  split; [done|]. split; [done|]. split; [done|]. split; [lia|].
  split; [split; [intros (_ & _ & Ha) | intros Hfit; repeat split]; lia|].
  split; [intros Hfit; repeat split; lia|].
  split.
  - intros w' r Hrun.
    destruct (ingestAll_ingested room calls _ _ _ Hrun H0)
      as [(_ & Hkeys' & Hcommands' & Hnext') Hall].
    split; [done|]. split; [done|]. split; [done|].
    intros Hr. destruct (Hall Hr) as (_ & Hlen' & Hnext''). cbn in Hlen', Hnext''.
    repeat split; lia.
  - intros w c w1 r Hw Hc.
    destruct (ingest_ingested room c _ _ _ Hc Hw) as (_ & _ & Hok & Hassert & Hfull).
    done.
Qed.

(** *** What a method leaves as it is *)

Section Preserves.
Context (R : World -> World -> Prop) `{!PreOrder R}.

Lemma preserves_bind {A B} (m : M World A) (f : A -> M World B) :
  preserves R m -> (∀ a, preserves R (f a)) -> preserves R (m ≫= f).
Proof.
  intros Hm Hf w w' r Hrun.
  apply M_bind_inv in Hrun as [(w1 & a & Hrun1 & Hrun2)|(e & Hrun1 & _)].
  - etrans; [by eapply Hm | by eapply Hf].
  - by eapply Hm.
Qed.

Lemma preserves_mret {A} (a : A) : preserves R (mret a).
Proof. intros w w' r [= <- _]. done. Qed.

Lemma preserves_lift {A} (x : result A) : preserves R (lift x).
Proof. intros w w' r [= <- _]. done. Qed.

Lemma preserves_gets {A} (f : World -> A) : preserves R (gets f).
Proof. intros w w' r [= <- _]. done. Qed.

Lemma preserves_throw {A} (e : exn) : preserves R (throw (A := A) e).
Proof. intros w w' r [= <- _]. done. Qed.

Lemma preserves_modify (f : World -> World) :
  (∀ w, R w (f w)) -> preserves R (modify f).
Proof. intros Hf w w' r [= <- _]. apply Hf. Qed.

Lemma preserves_this (f : Poll -> Poll) :
  (∀ w, R w (w <| poll := f (poll w) |>)) -> preserves R (this f).
Proof. intros Hf. by apply preserves_modify. Qed.

Lemma preserves_maciStateRef (f : MaciState.t -> MaciState.t) :
  (∀ w, R w (w <| maci := f (maci w) |>)) -> preserves R (maciStateRef f).
Proof. intros Hf. by apply preserves_modify. Qed.

Lemma preserves_repeatM count (body : M World unit) :
  preserves R body -> preserves R (repeatM count body).
Proof.
  intros Hbody. induction count as [|count IH]; simpl.
  - apply preserves_mret.
  - apply preserves_bind; [done | intros; apply IH].
Qed.

Lemma preserves_forM count from (body : nat -> M World unit) :
  (∀ i, preserves R (body i)) -> preserves R (forM count from body).
Proof.
  intros Hbody. revert from. induction count as [|count IH]; intros from; simpl.
  - apply preserves_mret.
  - apply preserves_bind; [done | intros; apply IH].
Qed.
End Preserves.


#[local] Instance same_preorder {X} (f : World -> X) : PreOrder (same f).
Proof. split; [done | intros w1 w2 w3; unfold same; congruence]. Qed.

(** Decomposes a goal [preserves R m] along the structure of [m]; [side]
    proves that a single write respects [R]. *)
Ltac frame_goal :=
  lazymatch goal with
  | |- PreOrder _ => apply _
  | |- ∀ _, preserves _ _ => intros ?
  | |- _ => idtac
  end.

Ltac frame_using known side :=
  repeat first
    [ solve [known]
    | apply preserves_mret; frame_goal
    | apply preserves_lift; frame_goal
    | apply preserves_gets; frame_goal
    | apply preserves_throw; frame_goal
    | apply preserves_bind; frame_goal
    | apply preserves_this; [intros ?; side]
    | apply preserves_maciStateRef; [intros ?; side]
    | apply preserves_repeatM; frame_goal
    | apply preserves_forM; frame_goal
    | assumption
    | match goal with |- preserves _ (match ?x with _ => _ end) => destruct x end
    | match goal with |- preserves _ (if ?x then _ else _) => destruct x end
    | match goal with |- preserves _ (let '(_, _) := ?x in _) => destruct x end ].

Ltac frame_with side := frame_using ltac:(fail) side.
Ltac frame := frame_with ltac:(try done; try reflexivity).


Ltac ignores :=
  first [ apply ignores_stateLeaves | apply ignores_stateTree | apply ignores_ballots
        | apply ignores_ballotTree | apply ignores_emptyBallotHash
        | apply ignores_stateCopied | apply ignores_drawn ].


#[local] Instance batchFrame_ignores : IgnoresVoters batchFrame.
Proof. by split. Qed.


#[local] Instance queue_ignores : IgnoresVoters queue.
Proof. by split. Qed.

Section Frames.
Context {X} (f : World -> X) `{!IgnoresVoters f}.

Lemma stateTree_update_frame index leaf : preserves (same f) (stateTree_update index leaf).
Proof. unfold stateTree_update. frame_with ltac:(ignores). Qed.

Lemma ballotTree_update_frame index leaf : preserves (same f) (ballotTree_update index leaf).
Proof. unfold ballotTree_update. frame_with ltac:(ignores). Qed.

Lemma ballotTree_insert_frame leaf : preserves (same f) (ballotTree_insert leaf).
Proof. unfold ballotTree_insert. frame_with ltac:(ignores). Qed.

Lemma processSlot_frame idx acc : preserves (same f) (processSlot idx acc).
Proof.
  unfold processSlot, applyVote, applyTopup, unshiftBlank.
  frame_using
    ltac:(first [apply stateTree_update_frame | apply ballotTree_update_frame])
    ltac:(ignores).
Qed.

Lemma processBatch_frame count from acc : preserves (same f) (processBatch count from acc).
Proof.
  revert from acc. induction count as [|count IH]; intros from acc; cbn [processBatch].
  - frame.
  - frame_using ltac:(first [apply processSlot_frame | apply IH]) ltac:(done).
Qed.

Lemma copyStateFromMaci_frame : preserves (same f) copyStateFromMaci.
Proof.
  unfold copyStateFromMaci.
  frame_using ltac:(apply ballotTree_insert_frame) ltac:(ignores).
Qed.

Lemma genRandomSalt_frame : preserves (same f) genRandomSalt.
Proof. intros w w' r [= <- _]. apply ignores_drawn. Qed.

Lemma freshSalt_frame retries current : preserves (same f) (freshSalt retries current).
Proof.
  induction retries as [|retries IH]; cbn [freshSalt].
  - frame_using ltac:(apply genRandomSalt_frame) ltac:(done).
  - frame_using ltac:(first [apply genRandomSalt_frame | apply IH]) ltac:(done).
Qed.
End Frames.

Lemma messageTree_insert_frame {X} (f : World -> X) leaf :
  (∀ w mt, f (w <| poll := (poll w) <| messageTree := mt |> |>) = f w) ->
  preserves (same f) (messageTree_insert leaf).
Proof. intros Hf. unfold messageTree_insert. frame_with ltac:(apply Hf). Qed.

Lemma genProcessMessagesCircuitInputsPartial_batchFrame index :
  preserves (same batchFrame) (genProcessMessagesCircuitInputsPartial index).
Proof.
  unfold genProcessMessagesCircuitInputsPartial.
  frame_using ltac:(by apply messageTree_insert_frame) ltac:(try done; try reflexivity).
Qed.

(** *** The loop over a batch *)

Lemma processBatch_slots count from acc w (start size : nat) :
  currentMessageBatchIndex (poll w) = Some (Num (Z.of_nat start)) ->
  messageBatchSize (batchSizes (poll w)) = size ->
  from + count ≤ size ->
  processBatch count from acc w
  = processSlots ((fun i => start + size - 1 - i) <$> seq from count) acc w.
Proof.
  revert from acc w. induction count as [|count IH]; intros from acc w Hstart Hsize Hle.
  - done.
  - cbn [processBatch seq fmap list_fmap processSlots].
    unfold mbind at 1, M_bind at 1, gets at 1. cbn beta iota.
    assert (slotIndex (poll w) from = Num (Z.of_nat (start + size - 1 - from))) as ->.
    { unfold slotIndex. rewrite Hstart, Hsize. simpl. f_equal. lia. }
    unfold mbind at 1, M_bind at 1. unfold lift at 1, assert at 1, jsNonNeg.
    rewrite bool_decide_eq_true_2 by lia. cbn beta iota.
    rewrite Nat2Z.id.
    unfold mbind, M_bind.
    destruct (processSlot (start + size - 1 - from) acc w) as [w1 [acc'|e]] eqn:Hslot; [|done].
    apply (processSlot_frame batchFrame) in Hslot. unfold same, batchFrame in Hslot.
    injection Hslot as Hc Hb _ _.
    apply IH; [congruence | congruence | lia].
Qed.

(** *** processMessages *)

Lemma jsRem_zero a b : jsRem a b = Num 0 -> b ≠ 0 ∧ a mod b = 0.
Proof. unfold jsRem. case_decide; [done|]. intros [= Hz]. split; [done | lia]. Qed.

Lemma mod_sub_self a b : b ≠ 0 -> 0 < a -> a mod b = 0 -> b ≤ a ∧ (a - b) mod b = 0.
Proof.
  intros Hb Ha Hmod.
  apply Nat.Lcm0.mod_divide in Hmod as [k ->].
  destruct k as [|k]; [lia|]. split; [lia|].
  replace (S k * b - b) with (k * b) by lia. apply Nat.Div0.mod_mul.
Qed.

(** The batch index the first call of [processMessages] computes. *)
Lemma first_batch_index (n size : nat) (z : Z) :
  (if jsPos (Num (Z.of_nat n))
   then if bool_decide (jsRem n size = Num 0)
        then jsSub (Num (Z.of_nat n)) (Num (Z.of_nat size))
        else jsSub (Num (Z.of_nat n)) (jsRem n size)
   else Num (Z.of_nat n)) = Num z ->
  size ≠ 0 ->
  Z.to_nat z
  = if decide (n = 0) then 0
    else n - (if decide (n mod size = 0) then size else n mod size).
Proof.
  intros Hz Hsize. unfold jsPos in Hz. case_bool_decide as Hn.
  - destruct (decide (n = 0)); [lia|].
    case_bool_decide as Hr.
    + apply jsRem_zero in Hr as [_ Hr]. rewrite decide_True by done.
      injection Hz as <-. lia.
    + unfold jsRem in Hz, Hr. rewrite decide_False in Hz, Hr by done.
      rewrite decide_False by (intros Hm; apply Hr; by rewrite Hm).
      injection Hz as <-. pose proof (Nat.Div0.mod_le n size). lia.
  - rewrite decide_True by lia. injection Hz as <-. lia.
Qed.

(** C3. A call of [processMessages] that returns handled exactly
    [messageBatchSize] slots, those of the indices
    [start + size - 1 - i] for [i = 0, ..., size - 1] in this order, where
    [start] is the batch index of the call: a multiple of the batch size,
    which on the first call is the number of messages minus the batch size
    when that divides the number of messages, minus the remainder when it
    does not, and [0] when there are no messages. The call leaves the batch
    index at [start - size] when [start] is positive and at [start]
    otherwise, again a multiple of the batch size, and counts one batch
    more. *)
Theorem C3_batch_slots_in_reverse_order
    (retries pollId : nat) (w w' : World) (out : ProcessMessagesInputs) :
  processMessages retries pollId w = (w', Ok out) ->
  let size := messageBatchSize (batchSizes (poll w)) in
  let n := length (messages (poll w)) in
  ∃ (start : nat) (w1 w2 : World),
    (* the batch index of this call *)
    0 < size ∧ start mod size = 0
    ∧ (numBatchesProcessed (poll w) = 0 ->
       start = if decide (n = 0) then 0
               else n - (if decide (n mod size = 0) then size else n mod size))
    ∧ (numBatchesProcessed (poll w) ≠ 0 ->
       currentMessageBatchIndex (poll w) = Some (Num (Z.of_nat start)))
    (* the loop, entered in [w1] and left in [w2] *)
    ∧ currentMessageBatchIndex (poll w1) = Some (Num (Z.of_nat start))
    ∧ messages (poll w1) = messages (poll w)
    ∧ processBatch size 0 noWitness w1 = (w2, Ok (pmi_witness out))
    ∧ processBatch size 0 noWitness w1 = processSlots (batchSlots start size) noWitness w1
    ∧ batchSlots start size = (fun i => start + size - 1 - i) <$> seq 0 size
    ∧ length (batchSlots start size) = size
    (* after the loop *)
    ∧ numBatchesProcessed (poll w') = numBatchesProcessed (poll w) + 1
    ∧ currentMessageBatchIndex (poll w')
      = Some (Num (Z.of_nat (if decide (0 < start) then start - size else start)))
    ∧ (if decide (0 < start) then start - size else start) mod size = 0.
Proof.
  intros Hrun size n. unfold processMessages in Hrun.
  do 11 run_step Hrun.
  fold size in Hrun0, Hrun2, Hval1, Hrun.
  fold n in Hrun2.
  (* the asserts on the batch index *)
  apply assert_Ok in Hval0, Hval1.
  destruct (currentMessageBatchIndex (poll w2)) as [[z|]|] eqn:Hidx; try done.
  apply bool_decide_eq_true_1 in Hval0.
  apply bool_decide_eq_true_1, jsRem_zero in Hval1 as [Hsize Hmod].
  (* the state before the asserts *)
  assert (numBatchesProcessed (poll w2) = numBatchesProcessed (poll w)
          ∧ messages (poll w2) = messages (poll w)
          ∧ batchSizes (poll w2) = batchSizes (poll w)
          ∧ (numBatchesProcessed (poll w) = 0 ->
             Z.to_nat z = if decide (n = 0) then 0
                          else n - (if decide (n mod size = 0) then size else n mod size))
          ∧ (numBatchesProcessed (poll w) ≠ 0 ->
             currentMessageBatchIndex (poll w) = Some (Num z)))
    as (Hnbp & Hmsgs & Hsizes & Hfirst & Hlater).
  { destruct (decide (numBatchesProcessed (poll w) = 0)) as [Hz|Hnz].
    - do 3 run_step Hrun0. do 2 run_step Hrun2.
      assert (poll w1 = poll w) as Hp.
      { destruct (MaciState.pollBeingProcessed _); run_step Hrun1; done. }
      cbn in Hidx. injection Hidx as Hidx.
      cbn. rewrite Hp. repeat split; try done.
      intros _. by apply first_batch_index.
    - run_step Hrun0. run_step Hrun2.
      assert (w1 = w) as ->.
      { destruct (MaciState.pollBeingProcessed _); run_step Hrun1; done. }
      repeat split; try done. }
  (* copying the state and the partial inputs leave the batch index alone *)
  assert (batchFrame w3 = batchFrame w2) as Hf3.
  { destruct (stateCopied (poll w2)).
    - by run_step Hrun3.
    - by apply (copyStateFromMaci_frame batchFrame) in Hrun3. }
  apply genProcessMessagesCircuitInputsPartial_batchFrame in Hrun4 as Hf4.
  run_step Hrun. rename Hrun5 into Hloop. rename w5 into w5'.
  apply (processBatch_frame batchFrame) in Hloop as Hf5.
  unfold same, batchFrame in Hf3, Hf4, Hf5.
  injection Hf3 as Hc3 Hb3 Hm3 _ Hn3.
  injection Hf4 as Hc4 Hb4 Hm4 _ Hn4.
  injection Hf5 as Hc5 Hb5 Hm5 _ Hn5.
  (* the steps after the loop *)
  run_step Hrun. run_step Hrun.
  rename Hrun5 into Hdec. rename w5 into w6.
  assert (currentMessageBatchIndex (poll w6)
          = Some (Num (if decide (0 < z)%Z then z - Z.of_nat size else z))
          ∧ numBatchesProcessed (poll w6) = numBatchesProcessed (poll w5') + 1)
    as [Hc6 Hn6].
  { unfold jsPos in Hdec. case_bool_decide.
    - run_step Hdec. cbn. rewrite decide_True by done. done.
    - run_step Hdec. cbn. rewrite decide_False by done. split; [congruence | done]. }
  do 2 run_step Hrun.
  match goal with
  | Hs : freshSalt _ _ _ = (?w, Ok ?a) |- _ =>
      rename Hs into Hsalt; rename w into w7; rename a into newSbSalt
  end.
  apply (freshSalt_frame batchFrame) in Hsalt as Hf7.
  unfold same, batchFrame in Hf7. injection Hf7 as Hc7 _ _ _ Hn7.
  do 4 run_step Hrun.
  apply M_bind_Ok in Hrun as (w8 & [] & Hrel & Hret).
  apply mret_Ok in Hret as [-> ->].
  assert (currentMessageBatchIndex (poll w8) = currentMessageBatchIndex (poll w7)
          ∧ numBatchesProcessed (poll w8) = numBatchesProcessed (poll w7)) as [Hc' Hn'].
  { match type of Hrel with
    | (if ?c then _ else _) _ = _ =>
        destruct c; [apply modify_Ok in Hrel as -> | apply mret_Ok in Hrel as [-> _]]; done
    end. }
  exists (Z.to_nat z), w4, w5'.
  assert (Z.of_nat (Z.to_nat z) = z) as Hzz by lia.
  rewrite Hzz.
  split; [lia|]. split; [done|]. split; [done|]. split; [done|].
  split; [congruence|]. split; [congruence|].
  split; [done|].
  split.
  { apply processBatch_slots; [rewrite Hzz; congruence | | lia].
    rewrite Hb4, Hb3, Hsizes. done. }
  split; [done|].
  split; [unfold batchSlots; by rewrite length_fmap, length_seq|].
  split; [lia|].
  split.
  { rewrite Hc', Hc7, Hc6. do 2 f_equal.
    destruct (decide (0 < z)%Z).
    - rewrite decide_True by lia.
      destruct (mod_sub_self (Z.to_nat z) size) as [Hle _]; [done | lia | done |]. lia.
    - rewrite decide_False by lia. lia. }
  destruct (decide (0 < Z.to_nat z)); [|done].
  by apply mod_sub_self.
Qed.

(** *** Rejected messages *)


#[local] Instance queueKept_preorder : PreOrder queueKept.
Proof.
  split.
  - intros w. unfold queueKept. naive_solver.
  - intros w1 w2 w3 (Hm & Hk & Hc & Hn & Hl) (Hm' & Hk' & Hc' & Hn' & Hl').
    unfold queueKept. repeat split; try congruence; try lia.
    intros i Hi. rewrite Hl' by lia. by apply Hl.
Qed.

Lemma same_queue_kept w w' : same queue w w' -> queueKept w w'.
Proof.
  unfold same, queue. intros [= Hm Hk Hc Ht]. unfold queueKept. rewrite Hm, Hk, Hc, Ht.
  naive_solver.
Qed.

Lemma preserves_queue_kept {A} (m : M World A) :
  preserves (same queue) m -> preserves queueKept m.
Proof. intros Hm w w' r Hrun. apply same_queue_kept. by eapply Hm. Qed.

Lemma messageTree_insert_kept leaf : preserves queueKept (messageTree_insert leaf).
Proof.
  intros w w' r. unfold messageTree_insert, QuinTree.insert, QuinTree.update, this, modify,
    gets, lift, mbind, M_bind, result_bind.
  cbn. case_decide; cbn; intros [= <- _]; [|reflexivity].
  unfold queueKept. cbn. repeat split; try done; try lia.
  intros i Hi. apply lookup_insert_ne. lia.
Qed.

Lemma genProcessMessagesCircuitInputsPartial_kept index :
  preserves queueKept (genProcessMessagesCircuitInputsPartial index).
Proof.
  unfold genProcessMessagesCircuitInputsPartial.
  frame_using ltac:(apply messageTree_insert_kept) ltac:(done).
Qed.

Lemma processMessages_kept retries pollId :
  preserves queueKept (processMessages retries pollId).
Proof.
  unfold processMessages.
  frame_using
    ltac:(first [ apply genProcessMessagesCircuitInputsPartial_kept
                | apply preserves_queue_kept;
                  first [ apply copyStateFromMaci_frame | apply processBatch_frame
                        | apply freshSalt_frame ]; apply _ ])
    ltac:(by apply same_queue_kept).
Qed.

(** What [blankWitness] returns, field by field. *)
Lemma blankWitness_Ok (p : Poll) (acc acc' : BatchWitness) :
  blankWitness p acc = Ok acc'
  <-> ∃ stateLeaf0 ballot0 weight0 st bt,
        stateLeaves p !! 0 = Some stateLeaf0
        ∧ ballots p !! 0 = Some ballot0
        ∧ Ballot.votes ballot0 !! 0 = Some weight0
        ∧ stateTree p = Some st
        ∧ ballotTree p = Some bt
        ∧ 0 < QuinTree.capacity st
        ∧ 0 < QuinTree.capacity bt
        ∧ acc'
          = {| currentStateLeaves := stateLeaf0 :: currentStateLeaves acc;
               currentStateLeavesPathElements :=
                 quinPath st 0 :: currentStateLeavesPathElements acc;
               currentBallots := ballot0 :: currentBallots acc;
               currentBallotsPathElements := quinPath bt 0 :: currentBallotsPathElements acc;
               currentVoteWeights := Some weight0 :: currentVoteWeights acc;
               currentVoteWeightsPathElements :=
                 quinPath
                   {| QuinTree.depth := voteOptionTreeDepth (treeDepths p);
                      QuinTree.zeroValue := 0;
                      QuinTree.arity := STATE_TREE_ARITY;
                      QuinTree.leaves := {[0 := weight0]};
                      QuinTree.nextIndex := 1 |} 0
                 :: currentVoteWeightsPathElements acc |}.
Proof.
  assert (0 < STATE_TREE_ARITY ^ voteOptionTreeDepth (treeDepths p)) as Hroom.
  { unfold STATE_TREE_ARITY. apply Nat.neq_0_lt_0, Nat.pow_nonzero. lia. }
  split.
  - intros Hrun. unfold blankWitness in Hrun.
    apply bind_Ok in Hrun as (stateLeaf0 & Hleaf%defined_Ok & Hrun).
    apply bind_Ok in Hrun as (st & Hst%defined_Ok & Hrun).
    apply bind_Ok in Hrun as (slPath & HslPath & Hrun).
    apply bind_Ok in Hrun as (ballot0 & Hballot%defined_Ok & Hrun).
    apply bind_Ok in Hrun as (bt & Hbt%defined_Ok & Hrun).
    apply bind_Ok in Hrun as (bPath & HbPath & Hrun).
    apply bind_Ok in Hrun as (vt & Hvt & Hrun).
    apply bind_Ok in Hrun as (wPath & HwPath & Hrun).
    unfold QuinTree.insertOpt in Hvt.
    apply bind_Ok in Hvt as (weight0 & Hweight%defined_Ok & Hvt).
    unfold QuinTree.insert, QuinTree.update, QuinTree.capacity, QuinTree.new in Hvt.
    cbn in Hvt. rewrite decide_True in Hvt by done. cbn in Hvt. injection Hvt as <-.
    unfold genMerklePath in HslPath, HbPath, HwPath.
    destruct (decide (0 < QuinTree.capacity st)); [|done]. injection HslPath as <-.
    destruct (decide (0 < QuinTree.capacity bt)); [|done]. injection HbPath as <-.
    case_decide; [|done]. injection HwPath as <-.
    injection Hrun as <-. rewrite Hweight.
    exists stateLeaf0, ballot0, weight0, st, bt. by rewrite insert_empty.
  - intros (stateLeaf0 & ballot0 & weight0 & st & bt
            & Hleaf & Hballot & Hweight & Hst & Hbt & Hsroom & Hbroom & ->).
    unfold blankWitness. rewrite Hleaf, Hst. cbn.
    unfold genMerklePath. rewrite (decide_True _ _ Hsroom). cbn.
    rewrite Hballot, Hbt. cbn. rewrite (decide_True _ _ Hbroom). cbn.
    rewrite Hweight. cbn.
    unfold QuinTree.insert, QuinTree.update, QuinTree.capacity, QuinTree.new. cbn.
    rewrite (decide_True _ _ Hroom). cbn.
    rewrite (decide_True _ _ Hroom). cbn. by rewrite insert_empty.
Qed.

(** C4. A vote message that [processMessage] rejects leaves the whole poll
    as it is, the state leaves, the ballots and their two trees included,
    whatever the result of its slot. The slot returns exactly when the poll
    has the data of index 0 to stand for the command (the state leaf, the
    ballot with its first vote weight, and the two trees), and what it
    returns are the arrays of the batch with these blank data put in front:
    the state leaf and the ballot of index 0, their paths, the first vote
    weight of that ballot and its path in a new tree of this one weight. The
    loop then goes on with the next slot, in the same world. No call of
    [processMessages] removes or changes a message, its key, its command or
    its leaf in the message tree. *)
Theorem C4_rejected_vote_leaves_the_state_unchanged
    (w : World) (idx : nat) (acc : BatchWitness)
    (message : Message.t) (encPubKey : PubKey) (kind : ProcessMessageErrors) :
  messages (poll w) !! idx = Some message ->
  encPubKeys (poll w) !! idx = Some encPubKey ->
  Message.msgType message = 1%Z ->
  processMessage (poll w) message encPubKey = Throw (ProcessMessageError kind) ->
  (* the slot: the same world *)
  (∃ r, processSlot idx acc w = (w, r))
  (* the slot returns the blank data in front of the arrays *)
  ∧ (∀ acc',
       processSlot idx acc w = (w, Ok acc')
       <-> ∃ stateLeaf0 ballot0 weight0 st bt,
             stateLeaves (poll w) !! 0 = Some stateLeaf0
             ∧ ballots (poll w) !! 0 = Some ballot0
             ∧ Ballot.votes ballot0 !! 0 = Some weight0
             ∧ stateTree (poll w) = Some st
             ∧ ballotTree (poll w) = Some bt
             ∧ 0 < QuinTree.capacity st
             ∧ 0 < QuinTree.capacity bt
             ∧ acc'
               = {| currentStateLeaves := stateLeaf0 :: currentStateLeaves acc;
                    currentStateLeavesPathElements :=
                      quinPath st 0 :: currentStateLeavesPathElements acc;
                    currentBallots := ballot0 :: currentBallots acc;
                    currentBallotsPathElements :=
                      quinPath bt 0 :: currentBallotsPathElements acc;
                    currentVoteWeights := Some weight0 :: currentVoteWeights acc;
                    currentVoteWeightsPathElements :=
                      quinPath
                        {| QuinTree.depth := voteOptionTreeDepth (treeDepths (poll w));
                           QuinTree.zeroValue := 0;
                           QuinTree.arity := STATE_TREE_ARITY;
                           QuinTree.leaves := {[0 := weight0]};
                           QuinTree.nextIndex := 1 |} 0
                      :: currentVoteWeightsPathElements acc |})
  (* the loop goes on with the slots that follow *)
  ∧ (∀ acc' slots,
       processSlot idx acc w = (w, Ok acc') ->
       processSlots (idx :: slots) acc w = processSlots slots acc' w)
  (* a whole call, from any world, whether it returns or raises *)
  ∧ (∀ retries pollId w0 w1 r,
       processMessages retries pollId w0 = (w1, r) ->
       messages (poll w1) = messages (poll w0)
       ∧ encPubKeys (poll w1) = encPubKeys (poll w0)
       ∧ commands (poll w1) = commands (poll w0)
       ∧ ∀ i, i < QuinTree.nextIndex (messageTree (poll w0)) ->
              QuinTree.leaves (messageTree (poll w1)) !! i
              = QuinTree.leaves (messageTree (poll w0)) !! i).
Proof.
  intros Hm Hk Htype Hrej.
  assert (processSlot idx acc w = (w, blankWitness (poll w) acc)) as Hslot.
  { unfold processSlot, mbind, M_bind, gets. cbn beta iota.
    rewrite Hm. rewrite bool_decide_eq_true_2 by done. rewrite Hk. cbn zeta.
    rewrite Hrej. reflexivity. }
  split; [by eexists|]. split; [|split].
  - intros acc'. rewrite Hslot. rewrite <- blankWitness_Ok.
    split; [by intros [= ->] | by intros ->].
  - intros acc' slots Hrun. cbn [processSlots]. unfold mbind at 1, M_bind.
    by rewrite Hrun.
  - intros retries pollId w0 w1 r Hrun.
    apply processMessages_kept in Hrun as (? & ? & ? & ? & ?). done.
Qed.

(** *** The tally *)


Lemma withTallies_id w :
  withTallies (tallyResult (poll w)) (perVOSpentVoiceCredits (poll w))
    (totalSpentVoiceCredits (poll w)) w = w.
Proof. by destruct w as [m [] d]. Qed.

Lemma addEach_nil from f tally : addEach from 0 f tally = tally.
Proof.
  unfold addEach. apply list_eq. intros j. rewrite list_lookup_imap.
  destruct (tally !! j); simpl; [|done]. rewrite decide_False by lia. done.
Qed.

Lemma addEach_step from count f tally x :
  tally !! from = Some x ->
  addEach (S from) count f (<[from := (x + f from)%Z]> tally)
  = addEach from (S count) f tally.
Proof.
  intros Hx. unfold addEach. apply list_eq. intros j. rewrite !list_lookup_imap.
  destruct (decide (j = from)) as [->|Hne].
  - rewrite list_lookup_insert_eq by (by eapply lookup_lt_Some). rewrite Hx. simpl.
    rewrite decide_False by lia. rewrite decide_True by lia. done.
  - rewrite list_lookup_insert_ne by done.
    destruct (tally !! j); simpl; [|done].
    destruct (decide (from ≤ j < from + S count)).
    + rewrite decide_True by lia. done.
    + rewrite decide_False by lia. done.
Qed.

Lemma length_addEach from count f tally : length (addEach from count f tally) = length tally.
Proof. unfold addEach. apply length_imap. Qed.

Lemma addRange_nil from values tally : addRange from 0 values tally = tally.
Proof. apply addEach_nil. Qed.

Lemma addRange_step from count values tally x :
  tally !! from = Some x ->
  addRange (S from) count values (<[from := (x + default 0 (values !! from))%Z]> tally)
  = addRange from (S count) values tally.
Proof. apply (addEach_step from count (fun j => default 0%Z (values !! j))). Qed.

Lemma length_addRange from count values tally :
  length (addRange from count values tally) = length tally.
Proof. apply length_addEach. Qed.

Lemma length_addVotes n votes tally : length (addVotes n votes tally) = length tally.
Proof. apply length_addRange. Qed.

Lemma tallyVote_Ok i j w w' :
  tallyVote i j w = (w', Ok tt) ->
  ∃ b v r s,
    ballots (poll w) !! i = Some b
    ∧ Ballot.votes b !! j = Some v
    ∧ tallyResult (poll w) !! j = Some r
    ∧ perVOSpentVoiceCredits (poll w) !! j = Some s
    ∧ w' = withTallies (<[j := (r + v)%Z]> (tallyResult (poll w)))
             (<[j := (s + v * v)%Z]> (perVOSpentVoiceCredits (poll w)))
             (totalSpentVoiceCredits (poll w) + v * v) w.
Proof.
  intros Hrun. unfold tallyVote in Hrun. repeat run_step Hrun.
  repeat match goal with Hd : defined _ = Ok _ |- _ => apply defined_Ok in Hd end.
  eexists _, _, _, _. repeat split; eassumption.
Qed.

Lemma withTallies_twice T P S T' P' S' w :
  withTallies T' P' S' (withTallies T P S w) = withTallies T' P' S' w.
Proof. done. Qed.

Lemma forM_tallyVote count from i w w' b :
  ballots (poll w) !! i = Some b ->
  forM count from (tallyVote i) w = (w', Ok tt) ->
  from + count ≤ length (Ballot.votes b) + (if decide (count = 0) then from else 0)
  ∧ w' = withTallies
           (addRange from count (Ballot.votes b) (tallyResult (poll w)))
           (addRange from count (squares (Ballot.votes b)) (perVOSpentVoiceCredits (poll w)))
           (totalSpentVoiceCredits (poll w)
            + sumZ (take count (drop from (squares (Ballot.votes b)))))
           w.
Proof.
  revert from w. induction count as [|count IH]; intros from w Hb Hrun.
  - apply mret_Ok in Hrun as [-> _]. rewrite !addRange_nil. simpl.
    rewrite Z.add_0_r, withTallies_id. split; [lia | done].
  - cbn [forM] in Hrun. apply M_bind_Ok in Hrun as (w1 & [] & Hstep & Hrest).
    apply tallyVote_Ok in Hstep as (b' & v & r & s & Hb' & Hv & Hr & Hs & ->).
    rewrite Hb in Hb'. injection Hb' as <-.
    apply IH in Hrest as [Hlen ->]; [|done].
    cbn [poll withTallies tallyResult perVOSpentVoiceCredits totalSpentVoiceCredits] in *.
    rewrite withTallies_twice. cbn.
    assert (squares (Ballot.votes b) !! from = Some (v * v)%Z) as Hsq.
    { unfold squares. rewrite list_lookup_fmap, Hv. done. }
    split.
    { apply lookup_lt_Some in Hv. rewrite decide_False by lia.
      destruct (decide (count = 0)); lia. }
    f_equal.
    + rewrite <- (addRange_step from count (Ballot.votes b) _ r) by done.
      by rewrite Hv.
    + rewrite <- (addRange_step from count (squares (Ballot.votes b)) _ s) by done.
      by rewrite Hsq.
    + rewrite (drop_S _ _ _ Hsq). simpl. lia.
Qed.

Lemma tallyBatch_Ok count i acc w w' batch' :
  tallyBatch count i acc w = (w', Ok batch') ->
  let n := maxVoteOptions (maxValues (poll w)) in
  let batch := take count (drop i (ballots (poll w))) in
  batch' = acc ++ batch
  ∧ Forall (fun b => n ≤ length (Ballot.votes b)) batch
  ∧ w' = withTallies
           (talliedResult n batch (tallyResult (poll w)))
           (talliedPerVO n batch (perVOSpentVoiceCredits (poll w)))
           (talliedTotal n batch (totalSpentVoiceCredits (poll w)))
           w.
Proof.
  revert i acc w. induction count as [|count IH]; intros i acc w Hrun n batch.
  - apply mret_Ok in Hrun as [-> ->]. subst batch. simpl.
    rewrite app_nil_r, withTallies_id. done.
  - cbn [tallyBatch] in Hrun. run_step Hrun.
    destruct (ballots (poll w) !! i) as [b|] eqn:Hb.
    + apply M_bind_Ok in Hrun as (w1 & [] & Hinner & Hrest).
      apply (forM_tallyVote _ _ _ _ _ b) in Hinner as [Hlen ->]; [|done].
      apply IH in Hrest as (-> & Hall & ->).
      cbn [poll withTallies ballots maxValues tallyResult perVOSpentVoiceCredits
             totalSpentVoiceCredits] in *.
      subst batch. rewrite (drop_S _ _ _ Hb). cbn [take].
      rewrite <- app_assoc. split; [done|]. split.
      * constructor; [|done]. fold n in Hlen. destruct (decide (n = 0)); lia.
      * rewrite withTallies_twice. unfold talliedResult, talliedPerVO, talliedTotal. cbn.
        unfold addVotes. fold n. by rewrite drop_0.
    + apply mret_Ok in Hrun as [-> ->]. subst batch.
      rewrite drop_ge by (by apply lookup_ge_None). rewrite take_nil. simpl.
      rewrite app_nil_r, withTallies_id. done.
Qed.

Lemma tallyVotes_Ok w w' out :
  tallyVotes w = (w', Ok out) ->
  let n := maxVoteOptions (maxValues (poll w)) in
  let size := tallyBatchSize (batchSizes (poll w)) in
  let batch := take size (drop (numBatchesTallied (poll w) * size) (ballots (poll w))) in
  hasUntalliedBallots (poll w) = true
  ∧ Forall (fun b => n ≤ length (Ballot.votes b)) batch
  ∧ tallyResult (poll w') = talliedResult n batch (tallyResult (poll w))
  ∧ perVOSpentVoiceCredits (poll w') = talliedPerVO n batch (perVOSpentVoiceCredits (poll w))
  ∧ totalSpentVoiceCredits (poll w') = talliedTotal n batch (totalSpentVoiceCredits (poll w))
  ∧ ballots (poll w') = ballots (poll w)
  ∧ maxValues (poll w') = maxValues (poll w)
  ∧ batchSizes (poll w') = batchSizes (poll w)
  ∧ numBatchesTallied (poll w') = numBatchesTallied (poll w) + 1.
Proof.
  intros Hrun n size batch. unfold tallyVotes in Hrun.
  repeat run_step Hrun.
  match goal with
  | Hb : tallyBatch _ _ _ _ = _ |- _ => apply tallyBatch_Ok in Hb as (_ & Hall & ->)
  end.
  match goal with Ha : assert _ _ = Ok _ |- _ => apply assert_Ok in Ha end.
  cbn. repeat split; try done.
Qed.

Lemma lookup_addVotes n votes tally j x :
  tally !! j = Some x ->
  addVotes n votes tally !! j
  = Some (if decide (j < n) then (x + default 0 (votes !! j))%Z else x).
Proof.
  intros Hx. unfold addVotes, addRange, addEach. rewrite list_lookup_imap, Hx. simpl.
  destruct (decide (j < n)); [rewrite decide_True by lia | rewrite decide_False by lia]; done.
Qed.

Lemma sumZ_imap_add (values tally : list Z) :
  length tally ≤ length values ->
  sumZ (imap (fun j x => (x + default 0 (values !! j))%Z) tally)
  = (sumZ tally + sumZ (take (length tally) values))%Z.
Proof.
  revert values. induction tally as [|x tally IH]; intros values Hlen; [done|].
  destruct values as [|v values]; simpl in Hlen; [lia|].
  cbn [imap length take]. unfold sumZ in *. cbn [foldr].
  rewrite (imap_ext _ (fun j x => (x + default 0 (values !! j))%Z)) by done.
  rewrite IH by lia. simpl. lia.
Qed.

Lemma sumZ_addVotes n votes tally :
  length tally = n -> n ≤ length votes ->
  sumZ (addVotes n votes tally) = (sumZ tally + sumZ (take n votes))%Z.
Proof.
  intros Hlen Hn. unfold addVotes, addRange, addEach.
  rewrite (imap_ext _ (fun j x => (x + default 0 (votes !! j))%Z)).
  - rewrite sumZ_imap_add by lia. by rewrite Hlen.
  - intros j x Hx. apply lookup_lt_Some in Hx. rewrite decide_True by lia. done.
Qed.

Lemma sumZ_replicate_0 n : sumZ (replicate n 0%Z) = 0%Z.
Proof. induction n as [|n IH]; simpl; [done | by rewrite IH]. Qed.

Lemma sumZ_cons x l : sumZ (x :: l) = (x + sumZ l)%Z.
Proof. done. Qed.

Lemma talliedResult_sum n batch tally :
  length tally = n ->
  Forall (fun b => n ≤ length (Ballot.votes b)) batch ->
  length (talliedResult n batch tally) = n
  ∧ sumZ (talliedResult n batch tally)
    = (sumZ tally + sumZ ((fun b => sumZ (take n (Ballot.votes b))) <$> batch))%Z.
Proof.
  intros Hlen Hall. revert tally Hlen.
  induction Hall as [|b batch Hb _ IH]; intros tally Hlen.
  - split; [done | simpl; lia].
  - destruct (IH (addVotes n (Ballot.votes b) tally)) as [Hl Hs].
    { unfold addVotes. by rewrite length_addRange. }
    unfold talliedResult in *. cbn [foldl]. split; [done|].
    rewrite Hs, sumZ_addVotes by done. rewrite fmap_cons, sumZ_cons. lia.
Qed.

Lemma talliedPerVO_sum n batch tally total :
  length tally = n ->
  Forall (fun b => n ≤ length (Ballot.votes b)) batch ->
  (sumZ (talliedPerVO n batch tally) - sumZ tally
   = talliedTotal n batch total - total)%Z.
Proof.
  intros Hlen Hall. revert tally total Hlen.
  induction Hall as [|b batch Hb _ IH]; intros tally total Hlen.
  - simpl. lia.
  - unfold talliedPerVO, talliedTotal in *. cbn [foldl].
    specialize (IH (addVotes n (squares (Ballot.votes b)) tally)
                  (total + sumZ (take n (squares (Ballot.votes b))))%Z).
    rewrite sumZ_addVotes in IH; [| done | unfold squares; by rewrite length_fmap].
    rewrite length_addVotes in IH. specialize (IH Hlen). lia.
Qed.

Lemma tallyAll_Ok calls w w' :
  tallyAll calls w = (w', Ok tt) ->
  let n := maxVoteOptions (maxValues (poll w)) in
  let size := tallyBatchSize (batchSizes (poll w)) in
  let rest := drop (numBatchesTallied (poll w) * size) (ballots (poll w)) in
  hasUntalliedBallots (poll w') = false
  ∧ Forall (fun b => n ≤ length (Ballot.votes b)) rest
  ∧ tallyResult (poll w') = talliedResult n rest (tallyResult (poll w))
  ∧ perVOSpentVoiceCredits (poll w') = talliedPerVO n rest (perVOSpentVoiceCredits (poll w))
  ∧ totalSpentVoiceCredits (poll w') = talliedTotal n rest (totalSpentVoiceCredits (poll w))
  ∧ ballots (poll w') = ballots (poll w).
Proof.
  revert w. induction calls as [|calls IH]; intros w Hrun n size rest;
    cbn [tallyAll] in Hrun; run_step Hrun;
    destruct (hasUntalliedBallots (poll w)) eqn:Hmore.
  - discriminate.
  - apply mret_Ok in Hrun as [-> _].
    unfold hasUntalliedBallots in Hmore. apply bool_decide_eq_false_1 in Hmore.
    subst rest. fold size in Hmore. rewrite drop_ge by lia.
    split; [by apply bool_decide_eq_false_2|]. done.
  - apply M_bind_Ok in Hrun as (w1 & out & Hcall & Hrest).
    apply tallyVotes_Ok in Hcall as (_ & Hall & HT & HP & HS & HB & HM & HZ & HN).
    apply IH in Hrest as (Hdone & Hall' & HT' & HP' & HS' & HB').
    rewrite HM, HZ, HN, HB in *. fold n size in Hall, HT, HP, HS, Hall', HT', HP', HS'.
    assert (rest = take size (drop (numBatchesTallied (poll w) * size) (ballots (poll w)))
                   ++ drop ((numBatchesTallied (poll w) + 1) * size) (ballots (poll w)))
      as Hsplit.
    { subst rest.
      rewrite <- (take_drop size (drop _ (ballots (poll w)))) at 1.
      rewrite drop_drop. do 2 f_equal. lia. }
    rewrite Hsplit. split; [done|]. split; [by apply Forall_app|].
    unfold talliedResult, talliedPerVO, talliedTotal in *. rewrite !foldl_app.
    rewrite HT', HP', HS', HT, HP, HS, HB'. done.
  - apply mret_Ok in Hrun as [-> _].
    unfold hasUntalliedBallots in Hmore. apply bool_decide_eq_false_1 in Hmore.
    subst rest. fold size in Hmore. rewrite drop_ge by lia.
    split; [by apply bool_decide_eq_false_2|]. done.
Qed.

(** C6. A call of [tallyVotes] that returns has added to the tallies, for each
    ballot [i] of its batch (those from [numBatchesTallied * tallyBatchSize]
    on, [tallyBatchSize] of them or as many as are left) and each vote option
    [j] with the vote [v]: [v] to [tallyResult[j]], [v²] to
    [perVOSpentVoiceCredits[j]] and [v²] to [totalSpentVoiceCredits]. Hence,
    when the calls made on a poll with zero tallies have left no ballot
    untallied, the entries of [tallyResult] add up to the sum of all votes of
    all ballots, and those of [perVOSpentVoiceCredits] to
    [totalSpentVoiceCredits]. *)
Theorem C6_tally_accumulates_votes_and_squares :
  (* one call *)
  (∀ w w' out,
     tallyVotes w = (w', Ok out) ->
     let n := maxVoteOptions (maxValues (poll w)) in
     let size := tallyBatchSize (batchSizes (poll w)) in
     let batch := take size (drop (numBatchesTallied (poll w) * size) (ballots (poll w))) in
     tallyResult (poll w') = talliedResult n batch (tallyResult (poll w))
     ∧ perVOSpentVoiceCredits (poll w')
       = talliedPerVO n batch (perVOSpentVoiceCredits (poll w))
     ∧ totalSpentVoiceCredits (poll w')
       = talliedTotal n batch (totalSpentVoiceCredits (poll w))
     ∧ numBatchesTallied (poll w') = numBatchesTallied (poll w) + 1
     ∧ ballots (poll w') = ballots (poll w))
  (* what adding the votes of one ballot means *)
  ∧ (∀ n votes tally j x,
       tally !! j = Some x ->
       addVotes n votes tally !! j
       = Some (if decide (j < n) then (x + default 0 (votes !! j))%Z else x))
  (* all calls *)
  ∧ (∀ calls w w',
       tallyAll calls w = (w', Ok tt) ->
       let n := maxVoteOptions (maxValues (poll w)) in
       numBatchesTallied (poll w) = 0 ->
       tallyResult (poll w) = replicate n 0%Z ->
       perVOSpentVoiceCredits (poll w) = replicate n 0%Z ->
       totalSpentVoiceCredits (poll w) = 0%Z ->
       hasUntalliedBallots (poll w') = false
       ∧ Forall (fun b => n ≤ length (Ballot.votes b)) (ballots (poll w))
       ∧ sumZ (tallyResult (poll w'))
         = sumZ ((fun b => sumZ (take n (Ballot.votes b))) <$> ballots (poll w))
       ∧ sumZ (perVOSpentVoiceCredits (poll w')) = totalSpentVoiceCredits (poll w')).
Proof.
  split; [|split].
  - intros w w' out Hrun n size batch.
    apply tallyVotes_Ok in Hrun as (_ & _ & HT & HP & HS & HB & _ & _ & HN). done.
  - apply lookup_addVotes.
  - intros calls w w' Hrun n Hnone HT0 HP0 HS0.
    apply tallyAll_Ok in Hrun as (Hdone & Hall & HT & HP & HS & HB).
    rewrite Hnone in *. cbn [Nat.mul] in *. rewrite drop_0 in *.
    fold n in Hall, HT, HP, HS.
    split; [done|]. split; [done|].
    destruct (talliedResult_sum n (ballots (poll w)) (tallyResult (poll w))) as [_ Hsum];
      [rewrite HT0; by rewrite length_replicate | done |].
    pose proof (talliedPerVO_sum n (ballots (poll w)) (perVOSpentVoiceCredits (poll w))
                  (totalSpentVoiceCredits (poll w))) as Hsq.
    rewrite HT, HP, HS, Hsum.
    rewrite HT0, HP0, HS0, sumZ_replicate_0 in *.
    split; [lia|]. rewrite length_replicate in Hsq. specialize (Hsq eq_refl Hall). lia.
Qed.

(** *** The subsidy *)


Lemma withSubsidy_id w : withSubsidy (subsidy (poll w)) w = w.
Proof. by destruct w as [m [] d]. Qed.

Lemma sumZ_snoc l x : sumZ (l ++ [x]) = (sumZ l + x)%Z.
Proof.
  induction l as [|y l IH]; cbn [app].
  - rewrite sumZ_cons. unfold sumZ. simpl. lia.
  - rewrite !sumZ_cons, IH. lia.
Qed.

Lemma sumTo_S n f : sumTo (S n) f = (sumTo n f + f n)%Z.
Proof. unfold sumTo. rewrite seq_S, fmap_app. simpl. apply sumZ_snoc. Qed.

Lemma sumTo_nonneg n f : (∀ q, q < n -> (0 ≤ f q)%Z) -> (0 ≤ sumTo n f)%Z.
Proof.
  induction n as [|n IH]; intros Hf; [done|].
  rewrite sumTo_S. pose proof (Hf n). assert (0 ≤ sumTo n f)%Z by (apply IH; auto with lia).
  lia.
Qed.

(** The loop of [coefficientCalculation]. *)
Lemma dot_loop count from (row col : list Z) acc r :
  forLoop count from
    (fun q sum => a ← defined (row !! q); b ← defined (col !! q); Ok (sum + a * b)%Z) acc
  = Ok r ->
  (∀ q, from ≤ q < from + count -> is_Some (row !! q) ∧ is_Some (col !! q))
  ∧ r = (acc + sumZ ((fun q => default 0 (row !! q) * default 0 (col !! q))%Z
                       <$> seq from count))%Z.
Proof.
  revert from acc. induction count as [|count IH]; intros from acc Hrun; simpl in Hrun.
  - injection Hrun as <-. split; [lia | simpl; lia].
  - apply bind_Ok in Hrun as (acc' & Hstep & Hrest).
    apply bind_Ok in Hstep as (a & Ha & Hstep). apply bind_Ok in Hstep as (b & Hb & Hstep).
    apply defined_Ok in Ha, Hb. injection Hstep as <-.
    apply IH in Hrest as [Hdef ->]. split.
    + intros q Hq. destruct (decide (q = from)) as [->|]; [eauto | apply Hdef; lia].
    + cbn [seq fmap list_fmap]. rewrite sumZ_cons, Ha, Hb. simpl. lia.
Qed.


Lemma voteOf_nonneg b q : nonNegative b -> (0 ≤ voteOf b q)%Z.
Proof.
  intros Hb. unfold voteOf. destruct (Ballot.votes b !! q) as [v|] eqn:Hv; simpl; [|done].
  by eapply (Forall_lookup_1 _ _ _ _ Hb).
Qed.

Lemma ballotOrEmpty_nonneg p i :
  Forall nonNegative (ballots p) -> nonNegative (ballotOrEmpty p i).
Proof.
  intros Hall. unfold ballotOrEmpty. destruct (ballots p !! i) as [b|] eqn:Hb.
  - by eapply (Forall_lookup_1 _ _ _ _ Hall).
  - unfold nonNegative, Ballot.new. simpl. apply Forall_replicate. done.
Qed.

Lemma coefficientCalculation_Ok p row col k :
  coefficientCalculation p row col = Ok k ->
  nonNegative row -> nonNegative col ->
  (∀ q, q < maxVoteOptions (maxValues p) ->
        is_Some (Ballot.votes row !! q) ∧ is_Some (Ballot.votes col !! q))
  ∧ k = coefficient p row col.
Proof.
  intros Hrun Hrow Hcol. unfold coefficientCalculation in Hrun.
  apply bind_Ok in Hrun as (sum & Hsum & Hrun).
  apply bind_Ok in Hrun as (scaled & Hscaled & Hrun).
  apply dot_loop in Hsum as [Hdef ->].
  unfold scaledMM in Hscaled.
  cbv zeta in Hscaled.
  destruct (decide (_ < 2 ^ 53)%Z); [|done]. injection Hscaled as <-.
  match type of Hrun with (if ?c then _ else _) = _ => destruct c as [|Hzero]; [done|] end.
  injection Hrun as <-.
  split; [intros q Hq; apply Hdef; lia|].
  unfold coefficient, sumTo, voteOf.
  rewrite Z.add_0_l in *.
  apply Z.quot_div_nonneg; [lia|].
  assert (0 ≤ sumTo (maxVoteOptions (maxValues p))
                (fun q => voteOf row q * voteOf col q))%Z as Hpos.
  { apply sumTo_nonneg. intros q _.
    apply Z.mul_nonneg_nonneg; by apply voteOf_nonneg. }
  unfold sumTo, voteOf in Hpos. lia.
Qed.

Lemma addEach_step_zero from count f tally :
  f from = 0%Z -> addEach (S from) count f tally = addEach from (S count) f tally.
Proof.
  intros Hz. unfold addEach. apply imap_ext. intros j x _. simpl.
  destruct (decide (j = from)) as [->|].
  - rewrite decide_False by lia. rewrite decide_True by lia. lia.
  - destruct (decide (from ≤ j < from + S count)).
    + rewrite decide_True by lia. done.
    + rewrite decide_False by lia. done.
Qed.

Lemma addEach_compose n f g tally :
  addEach 0 n g (addEach 0 n f tally) = addEach 0 n (fun q => f q + g q)%Z tally.
Proof.
  unfold addEach. apply list_eq. intros j. rewrite !list_lookup_imap.
  destruct (tally !! j); simpl; [|done]. f_equal.
  repeat case_decide; lia.
Qed.

Lemma addEach_zero n tally : addEach 0 n (fun _ => 0%Z) tally = tally.
Proof.
  unfold addEach. apply list_eq. intros j. rewrite list_lookup_imap.
  destruct (tally !! j); simpl; [|done]. f_equal. case_decide; lia.
Qed.

Lemma addEach_ext from count f g tally :
  (∀ q, f q = g q) -> addEach from count f tally = addEach from count g tally.
Proof. intros Hfg. unfold addEach. apply imap_ext. intros j x _. simpl. by rewrite Hfg. Qed.

Lemma lookup_addEach n f tally q x :
  tally !! q = Some x -> q < n -> addEach 0 n f tally !! q = Some (x + f q)%Z.
Proof.
  intros Hx Hq. unfold addEach. rewrite list_lookup_imap, Hx. simpl.
  rewrite decide_True by lia. done.
Qed.

Lemma withSubsidy_twice S S' w : withSubsidy S' (withSubsidy S w) = withSubsidy S' w.
Proof. done. Qed.

(** The loop over the vote options for one pair of ballots. *)
Lemma forM_subsidyVote count from rs cs i j kij row col w w' :
  forM count from (subsidyVote rs cs i j kij row col) w = (w', Ok tt) ->
  w' = withSubsidy
         (addEach from count
            (fun q => if decide (rs ≠ cs ∨ i < j)
                      then (2 * kij * voteOf row q * voteOf col q)%Z else 0%Z)
            (subsidy (poll w)))
         w.
Proof.
  revert from w. induction count as [|count IH]; intros from w Hrun.
  - apply mret_Ok in Hrun as [-> _]. by rewrite addEach_nil, withSubsidy_id.
  - cbn [forM] in Hrun. apply M_bind_Ok in Hrun as (w1 & [] & Hstep & Hrest).
    apply IH in Hrest as ->. clear IH.
    unfold subsidyVote in Hstep. do 2 run_step Hstep.
    apply defined_Ok in Hval, Hval0.
    destruct (decide (rs ≠ cs ∨ i < j)) as [Hc|Hc].
    + assert (bool_decide (rs ≠ cs) || (bool_decide (rs = cs) && bool_decide (i < j)) = true)
        as Hb.
      { destruct Hc as [Hc|Hc].
        - by rewrite (bool_decide_eq_true_2 _ Hc).
        - rewrite (bool_decide_eq_true_2 _ Hc). rewrite andb_true_r.
          destruct (decide (rs = cs)).
          + rewrite (bool_decide_eq_true_2 (rs = cs)) by done. apply orb_true_r.
          + by rewrite (bool_decide_eq_true_2 (rs ≠ cs)). }
      rewrite Hb in Hstep. repeat run_step Hstep. apply defined_Ok in Hval1.
      rewrite <- (addEach_step from count _ _ _ Hval1). cbn beta.
      unfold voteOf. rewrite Hval, Hval0. done.
    + assert (bool_decide (rs ≠ cs) || (bool_decide (rs = cs) && bool_decide (i < j)) = false)
        as Hb.
      { apply orb_false_iff. split.
        - apply bool_decide_eq_false_2. tauto.
        - apply andb_false_iff. right. apply bool_decide_eq_false_2. tauto. }
      rewrite Hb in Hstep. apply mret_Ok in Hstep as [-> _].
      by rewrite addEach_step_zero.
Qed.

(** One pair of ballots. *)
Lemma subsidyPair_Ok rs cs i j w w' :
  subsidyPair rs cs i j w = (w', Ok tt) ->
  Forall nonNegative (ballots (poll w)) ->
  w' = withSubsidy
         (addEach 0 (maxVoteOptions (maxValues (poll w)))
            (pairSubsidy (poll w) rs cs i j) (subsidy (poll w)))
         w.
Proof.
  intros Hrun Hall. unfold subsidyPair in Hrun. do 2 run_step Hrun.
  apply coefficientCalculation_Ok in Hval as [_ ->]; [|by apply ballotOrEmpty_nonneg..].
  apply forM_subsidyVote in Hrun as ->. done.
Qed.

(** A loop whose every round adds [g i q] to each [subsidy[q]] adds their
    sum. *)
Lemma forM_addEach (n : nat) (g : nat -> nat -> Z) (body : nat -> M World unit) w0 :
  (∀ i S w', body i (withSubsidy S w0) = (w', Ok tt) ->
             w' = withSubsidy (addEach 0 n (g i) S) w0) ->
  ∀ count from S w',
    forM count from body (withSubsidy S w0) = (w', Ok tt) ->
    w' = withSubsidy
           (addEach 0 n (fun q => sumZ ((fun i => g i q) <$> seq from count)) S) w0.
Proof.
  intros Hbody count. induction count as [|count IH]; intros from S w' Hrun.
  - apply mret_Ok in Hrun as [-> _]. simpl. by rewrite addEach_zero.
  - cbn [forM] in Hrun. apply M_bind_Ok in Hrun as (w1 & [] & Hstep & Hrest).
    apply Hbody in Hstep as ->. apply IH in Hrest as ->. f_equal.
    rewrite addEach_compose. apply addEach_ext. intros q.
    cbn [seq]. rewrite fmap_cons, sumZ_cons. done.
Qed.

Lemma subsidyCalculation_Ok rs cs w w' out :
  subsidyCalculation rs cs w = (w', Ok out) ->
  Forall nonNegative (ballots (poll w)) ->
  w' = withSubsidy
         (addEach 0 (maxVoteOptions (maxValues (poll w)))
            (batchSubsidy (poll w) rs cs) (subsidy (poll w)))
         w.
Proof.
  intros Hrun Hall. unfold subsidyCalculation in Hrun. run_step Hrun.
  apply M_bind_Ok in Hrun as (w1 & [] & Hloop & Hrest).
  apply mret_Ok in Hrest as [-> _].
  set (n := maxVoteOptions (maxValues (poll w))) in *.
  set (size := subsidyBatchSize (batchSizes (poll w))) in *.
  assert (∀ i S w2,
            forM size 0 (fun j => subsidyPair rs cs i j) (withSubsidy S w) = (w2, Ok tt) ->
            w2 = withSubsidy
                   (addEach 0 n (fun q => sumTo size (fun j => pairSubsidy (poll w) rs cs i j q)) S)
                   w) as Hinner.
  { intros i S w2.
    apply (forM_addEach n (fun j q => pairSubsidy (poll w) rs cs i j q)).
    intros j S' w3 Hpair. apply subsidyPair_Ok in Hpair; [|done]. by rewrite Hpair. }
  pose proof (forM_addEach n
                (fun i q => sumTo size (fun j => pairSubsidy (poll w) rs cs i j q))
                (fun i => forM size 0 (fun j => subsidyPair rs cs i j))
                w Hinner size 0 (subsidy (poll w)) w1) as Houter.
  rewrite withSubsidy_id in Houter. by rewrite (Houter Hloop).
Qed.

Lemma increaseSubsidyIndex_subsidy w w' r :
  increaseSubsidyIndex w = (w', r) -> subsidy (poll w') = subsidy (poll w).
Proof.
  unfold increaseSubsidyIndex, mbind, M_bind, gets, this, modify. simpl.
  case_decide; intros [= <- _]; done.
Qed.

(** C9. One call of [subsidyPerBatch], over the row block that starts at
    [rowStart = rbi * batchSize] and the column block that starts at
    [colStart = cbi * batchSize], adds to every [subsidy[q]] the sum over the
    pairs [(i, j)] of [batchSize x batchSize] of what the pair contributes:
    [2 * k_ij * v_i[q] * v_j[q]] when [rowStart <> colStart] or [i < j], and
    nothing for the pairs of the diagonal block with [i >= j]. Here [v_i] and
    [v_j] are the votes of the ballots at [rowStart + i] and [colStart + j],
    the empty ballot past the end of [ballots], and [k_ij] is the integer
    part of [MM * 10 ^ WW / (MM + sum over the options of v_i * v_j)]. A new
    poll has [MM = 50] and [WW = 4]. The votes are not negative, as those of
    accepted commands are. *)
Theorem C9_subsidy_batch_adds_pair_contributions (w w' : World) (out : SubsidyInputs) :
  subsidyPerBatch w = (w', Ok out) ->
  Forall nonNegative (ballots (poll w)) ->
  let p := poll w in
  let size := subsidyBatchSize (batchSizes p) in
  let rowStart := rbi p * size in
  let colStart := cbi p * size in
  (∀ q s,
     q < maxVoteOptions (maxValues p) ->
     subsidy p !! q = Some s ->
     subsidy (poll w') !! q
     = Some (s + sumTo size (fun i => sumTo size (fun j =>
                   pairSubsidy p rowStart colStart i j q)))%Z)
  ∧ (∀ i j q,
       let v_i := voteOf (ballotOrEmpty p (rowStart + i)) in
       let v_j := voteOf (ballotOrEmpty p (colStart + j)) in
       let k_ij :=
         (Z.of_nat (MM p) * 10 ^ Z.of_nat (WW p)
          / (Z.of_nat (MM p) + sumTo (maxVoteOptions (maxValues p)) (fun o => v_i o * v_j o)))%Z in
       (rowStart ≠ colStart ∨ i < j ->
          pairSubsidy p rowStart colStart i j q = (2 * k_ij * v_i q * v_j q)%Z)
       ∧ (rowStart = colStart -> j ≤ i -> pairSubsidy p rowStart colStart i j q = 0%Z))
  ∧ (∀ pollEndTimestamp keypair depths sizes limits maciState,
       let fresh := newPoll pollEndTimestamp keypair depths sizes limits maciState in
       MM fresh = 50 ∧ WW fresh = 4).
Proof.
  intros Hrun Hall p size rowStart colStart. split; [|split].
  - intros q s Hq Hs. unfold subsidyPerBatch in Hrun.
    do 5 run_step Hrun.
    apply M_bind_Ok in Hrun as (w1 & [salt com] & Hsalt & Hrun).
    assert (w1 = w) as ->.
    { destruct (decide _); [run_step Hsalt|]; by apply mret_Ok in Hsalt as [-> _]. }
    clear Hsalt.
    apply M_bind_Ok in Hrun as (w2 & [b1 b2] & Hcalc & Hrun).
    apply subsidyCalculation_Ok in Hcalc as ->; [|done].
    repeat run_step Hrun.
    apply increaseSubsidyIndex_subsidy in Hrun0. cbn in Hrun0.
    rewrite Hrun0. by apply lookup_addEach.
  - intros i j q v_i v_j k_ij. unfold pairSubsidy. split.
    + intros Hc. rewrite decide_True by done. done.
    + intros Heq Hle. rewrite decide_False by lia. done.
  - done.
Qed.

(** *** The JSON round trip *)

Section JsonProperties.
Context `{JsonCodec}.

(** Reading back what was written, one value at a time. *)
Lemma mapM_round_trip {A} (write : A -> Json) (read : Json -> option A) (l l' : list A) :
  mapM (fun j => defined (read j)) (write <$> l) = Ok l' ->
  Forall (fun x => read (write x) = Some x) l ->
  l' = l.
Proof.
  revert l'. induction l as [|x l IH]; intros l' Hrun Hall.
  - by injection Hrun as <-.
  - cbn in Hrun. apply Forall_cons in Hall as [Hx Hall]. rewrite Hx in Hrun. cbn in Hrun.
    apply bind_Ok in Hrun as (k & Hk & Hrun). injection Hrun as <-.
    f_equal. by apply IH.
Qed.

Lemma mapM_strings_round_trip {A} (write : A -> string) (read : string -> option A)
    (l l' : list A) :
  mapM (fun j => defined (read j)) (write <$> l) = Ok l' ->
  Forall (fun x => read (write x) = Some x) l ->
  l' = l.
Proof.
  revert l'. induction l as [|x l IH]; intros l' Hrun Hall.
  - by injection Hrun as <-.
  - cbn in Hrun. apply Forall_cons in Hall as [Hx Hall]. rewrite Hx in Hrun. cbn in Hrun.
    apply bind_Ok in Hrun as (k & Hk & Hrun). injection Hrun as <-.
    f_equal. by apply IH.
Qed.


#[local] Instance compared_ignores : IgnoresVoters compared.
Proof. by split. Qed.

#[local] Instance messageTree_ignores : IgnoresVoters (fun w => messageTree (poll w)).
Proof. by split. Qed.

(** The loop of [fromJSON] over the messages inserts the leaves of the queue,
    in their order. *)
Lemma fillMessageTree_loop (depths : TreeDepths) count from w w' u :
  forM count from fillMessageTree w = (w', Ok u) ->
  messageTree (poll w) = messageTreeOf depths (take from (queueLeaves (poll w))) ->
  from ≤ length (queueLeaves (poll w)) ->
  messageTree (poll w') = messageTreeOf depths (take (from + count) (queueLeaves (poll w)))
  ∧ from + count ≤ length (queueLeaves (poll w)).
Proof.
  revert from w. induction count as [|count IH]; intros from w Hrun Htree Hfrom;
    cbn [forM] in Hrun.
  - run_step Hrun. by rewrite Nat.add_0_r.
  - apply M_bind_Ok in Hrun as (w1 & [] & Hfill & Hrest).
    unfold fillMessageTree in Hfill. do 3 run_step Hfill.
    repeat match goal with Hd : defined _ = Ok _ |- _ => apply defined_Ok in Hd end.
    unfold messageTree_insert in Hfill. do 3 run_step Hfill.
    rename Hval into Hm, Hval0 into Hk, Hval1 into Hi.
    match type of Hi with
    | QuinTree.insert (hashMessage ?m ?k) _ = _ =>
        assert (queueLeaves (poll w) !! from = Some (hashMessage m k)) as Hleaf
          by (unfold queueLeaves; rewrite lookup_zip_with, Hm, Hk; done)
    end.
    rewrite Htree in Hi.
    unfold QuinTree.insert, QuinTree.update, messageTreeOf in Hi. cbn in Hi.
    case_decide; [|done]. cbn in Hi. injection Hi as <-.
    replace (from + S count) with (S from + count) by lia.
    match type of Hrest with
    | forM _ _ _ ?w1 = _ =>
        assert (queueLeaves (poll w1) = queueLeaves (poll w)) as Hsame
          by (by destruct w as [m0 [] d0])
    end.
    rewrite <- Hsame. apply IH; [done| |].
    + rewrite Hsame. cbn. rewrite (take_S_r _ _ _ Hleaf).
      unfold messageTreeOf. rewrite map_seq_snoc, length_app, length_take. cbn.
      repeat f_equal; lia.
    + rewrite Hsame. apply lookup_lt_Some in Hleaf. lia.
Qed.

Lemma fillMessageTree_frame i : preserves (same compared) (fillMessageTree i).
Proof.
  unfold fillMessageTree.
  frame_using ltac:(by apply messageTree_insert_frame) ltac:(try done; try reflexivity).
Qed.

Lemma Message_equals_refl m : Message.equals m m = true.
Proof. unfold Message.equals. by rewrite !bool_decide_eq_true_2. Qed.

Lemma PubKey_equals_refl k : PubKey_equals k k = true.
Proof. unfold PubKey_equals. by rewrite !bool_decide_eq_true_2. Qed.

Lemma forallb_zip_refl {A} (eqb : A -> A -> bool) (l : list A) :
  (∀ x, eqb x x = true) -> forallb (fun '(a, b) => eqb a b) (zip l l) = true.
Proof. intros Hrefl. induction l as [|x l IH]; [done|]. cbn. by rewrite Hrefl, IH. Qed.

(** Two polls that agree on what [compared] lists are [equals] exactly when
    their key pairs are. *)
Lemma equals_compared (q p : Poll) :
  treeDepths q = treeDepths p -> batchSizes q = batchSizes p -> maxValues q = maxValues p ->
  messages q = messages p -> encPubKeys q = encPubKeys p ->
  equals q p = Keypair.equals (coordinatorKeypair q) (coordinatorKeypair p).
Proof.
  intros Hd Hb Hv Hm Hk. unfold equals. rewrite Hd, Hb, Hv, Hm, Hk.
  rewrite !bool_decide_eq_true_2 by done. rewrite !andb_true_r.
  rewrite (forallb_zip_refl Message.equals) by apply Message_equals_refl.
  rewrite (forallb_zip_refl PubKey_equals) by apply PubKey_equals_refl.
  by destruct (Keypair.equals _ _).
Qed.

Lemma Keypair_equals_refl k : Keypair.equals k k = true.
Proof. unfold Keypair.equals. by rewrite !bool_decide_eq_true_2. Qed.

(** What [compared] lists, after the round trip. *)
Lemma fromJSON_compared (p : Poll) (json : IJsonPoll) (maciState : MaciState.t) (drawn : nat)
    (w : World) (q : Poll) :
  toJSON p = Ok json ->
  fromJSON json maciState drawn = (w, Ok q) ->
  Forall (fun m => Message_fromJSON (Message_toJSON m) = Some m) (messages p) ->
  Forall (fun k => PubKey_deserialize (PubKey_serialize k) = Some k) (encPubKeys p) ->
  poll w = q
  ∧ compared w
    = (Keypair.mk (randomValue drawn) (genPubKey (randomValue drawn)), treeDepths p,
       batchSizes p, maxValues p, messages p, encPubKeys p)
  ∧ messageTree (poll w) = messageTreeOf (treeDepths p) (queueLeaves p).
Proof.
  intros Hto Hfrom Hmessages Hkeys.
  apply bind_Ok in Hto as (cs & _ & Hto). injection Hto as <-.
  unfold fromJSON in Hfrom. cbn [json_pollEndTimestamp] in Hfrom.
  destruct (stringToBigInt _) as [t|]; [|by injection Hfrom].
  cbv zeta in Hfrom.
  match type of Hfrom with _ ?W0 = _ => remember W0 as W eqn:HW in Hfrom end.
  cbn [json_ballots json_encPubKeys json_messages json_commands json_results
       json_currentMessageBatchIndex json_numBatchesProcessed json_treeDepths json_batchSizes
       json_maxValues] in *.
  repeat run_step Hfrom.
  apply mapM_strings_round_trip in Hval0 as ->; [|done].
  apply mapM_round_trip in Hval1 as ->; [|done].
  split; [done|].
  lazymatch goal with
  | Hfill : forM _ _ fillMessageTree ?v = _, Hcopy : copyStateFromMaci _ = _ |- _ =>
      assert (messageTree (poll v) = messageTreeOf (treeDepths p) [] ∧ queueLeaves (poll v) = queueLeaves p)
        as [Hnew Hleaves] by (by rewrite HW);
      pose proof (fillMessageTree_loop (treeDepths p) _ 0 _ _ _ Hfill) as Hloop;
      rewrite Hleaves in Hloop;
      destruct (Hloop Hnew ltac:(lia)) as [Htree Hlen]; clear Hloop;
      apply (copyStateFromMaci_frame (fun w => messageTree (poll w))) in Hcopy as Hkept;
      unfold same in Hkept; cbv beta in Hkept;
      apply (preserves_forM (same compared)) in Hfill; [|intros; apply fillMessageTree_frame];
      apply (copyStateFromMaci_frame compared) in Hcopy;
      unfold same in Hfill, Hcopy; rewrite Hfill in Hcopy; clear Hfill;
      rewrite Hcopy
  end.
  split; [by rewrite HW|].
  rewrite Hkept, Htree.
  f_equal. apply take_ge. cbn in Hlen. unfold queueLeaves in *.
  rewrite length_zip_with in *. cbn. lia.
Qed.

(** Leaves of the zero value at the end of a tree do not change its root,
    where the root of the library takes a missing leaf for the zero value. *)
Lemma root_padded (depths : TreeDepths) (leaves : list Z) (padding : nat) :
  (∀ depth zero arity (leaves : gmap nat Z) i,
     leaves !! i = None ->
     quinRoot depth zero arity (<[i := zero]> leaves) = quinRoot depth zero arity leaves) ->
  root (messageTreeOf depths (leaves ++ replicate padding NOTHING_UP_MY_SLEEVE))
  = root (messageTreeOf depths leaves).
Proof.
  intros Hzero. induction padding as [|padding IH].
  - by rewrite app_nil_r.
  - rewrite <- IH. unfold root, messageTreeOf. cbn [QuinTree.depth QuinTree.zeroValue
      QuinTree.arity QuinTree.leaves].
    rewrite replicate_S_end, app_assoc, map_seq_snoc.
    apply Hzero, map_seq_snoc_disjoint.
Qed.

(** C7. [Poll.fromJSON(p.toJSON(), maciState)] is a poll with the tree
    depths, the batch sizes, the maximum values, the messages and the
    encryption keys of [p], where the serialisers of the messages and of the
    keys read back what they wrote. Its coordinator key pair is not that of
    [p], which the JSON form does not carry: it is a new one, drawn from the
    random source. So the poll read back [equals] [p] exactly when the new
    key pair is that of [p]; it does once [setCoordinatorKeypair] is called
    with the private key of [p]. Its message tree is built anew from the
    messages and the keys: it is the message tree of [p], with the root of
    [p], when the tree of [p] holds the hashes of its messages and nothing
    else; and it has the root of [p] when the tree of [p] holds zero leaves
    after them, as [processMessages] adds, where the root of the library
    takes a missing leaf for the zero value. *)
Theorem C7_round_trip_keeps_all_but_the_coordinator_keypair
    (p : Poll) (json : IJsonPoll) (maciState : MaciState.t) (drawn : nat)
    (w : World) (q : Poll) :
  toJSON p = Ok json ->
  fromJSON json maciState drawn = (w, Ok q) ->
  Forall (fun m => Message_fromJSON (Message_toJSON m) = Some m) (messages p) ->
  Forall (fun k => PubKey_deserialize (PubKey_serialize k) = Some k) (encPubKeys p) ->
  let k := randomValue drawn in
  poll w = q
  ∧ coordinatorKeypair q = Keypair.mk k (genPubKey k)
  ∧ treeDepths q = treeDepths p
  ∧ batchSizes q = batchSizes p
  ∧ maxValues q = maxValues p
  ∧ messages q = messages p
  ∧ encPubKeys q = encPubKeys p
  ∧ equals q p = Keypair.equals (Keypair.mk k (genPubKey k)) (coordinatorKeypair p)
  ∧ (∀ privKey,
       coordinatorKeypair p = Keypair.mk privKey (genPubKey privKey) ->
       PrivKey_deserialize (PrivKey_serialize privKey) = Some privKey ->
       ∃ w', setCoordinatorKeypair (PrivKey_serialize privKey) w = (w', Ok tt)
             ∧ equals (poll w') p = true)
  (* the message tree *)
  ∧ messageTree q = messageTreeOf (treeDepths p) (queueLeaves p)
  ∧ (messageTree p = messageTreeOf (treeDepths p) (queueLeaves p) ->
     messageTree q = messageTree p ∧ root (messageTree q) = root (messageTree p))
  ∧ (∀ padding,
       (∀ depth zero arity (leaves : gmap nat Z) i,
          leaves !! i = None ->
          quinRoot depth zero arity (<[i := zero]> leaves) = quinRoot depth zero arity leaves) ->
       messageTree p
       = messageTreeOf (treeDepths p)
           (queueLeaves p ++ replicate padding NOTHING_UP_MY_SLEEVE) ->
       root (messageTree q) = root (messageTree p)).
Proof.
  intros Hto Hfrom Hmessages Hkeys k.
  destruct (fromJSON_compared p json maciState drawn w q Hto Hfrom Hmessages Hkeys)
    as (Hq & Hc & Htree).
  subst q. unfold compared in Hc. injection Hc as Hkp Hd Hb Hv Hm Hk.
  assert (equals (poll w) p
          = Keypair.equals (Keypair.mk k (genPubKey k)) (coordinatorKeypair p)) as Heq.
  { rewrite (equals_compared _ _ Hd Hb Hv Hm Hk). by rewrite Hkp. }
  do 8 (split; [done|]).
  split; [|split; [done|split]].
  - intros privKey Hpriv Hread.
    unfold setCoordinatorKeypair, mbind, M_bind, lift, this, modify. rewrite Hread.
    eexists. split; [reflexivity|].
    rewrite equals_compared; [|assumption..].
    rewrite Hpriv. apply Keypair_equals_refl.
  - intros Hp. by rewrite Htree, Hp.
  - intros padding Hzero Hp. rewrite Htree, Hp. symmetry. by apply root_padded.
Qed.

End JsonProperties.

(** *** What the ingest methods refuse and what they store *)

Lemma forallb_below_Exists (bound : Z) (l : list Z) :
  forallb (fun d => bool_decide (d < bound)%Z) l = false
  <-> Exists (fun d => bound ≤ d)%Z l.
Proof.
  induction l as [|d l IH]; cbn.
  - split; [done | by intros ?%Exists_nil].
  - rewrite Exists_cons, <- IH. case_bool_decide; cbn; [|split; [left; lia | done]].
    split; [by right | intros [?|?]; [lia | done]].
Qed.

(** X1. [publishMessage] fails one of its three assertions exactly when the
    message is not of type 1, a coordinate of the key is not below
    [SNARK_FIELD_SIZE], or a data word is not; it fails before any write, and
    the poll and the MACI state are as they were. *)
Theorem publishMessage_refuses_before_any_write
    (message : Message.t) (encPubKey : PubKey) (w : World) :
  let refused :=
    Message.msgType message ≠ 1%Z
    ∨ (SNARK_FIELD_SIZE ≤ encPubKey.1)%Z
    ∨ (SNARK_FIELD_SIZE ≤ encPubKey.2)%Z
    ∨ Exists (fun d => SNARK_FIELD_SIZE ≤ d)%Z (Message.data message) in
  (refused -> ∃ msg, publishMessage message encPubKey w = (w, Throw (AssertionError msg)))
  ∧ (∀ w' msg,
       publishMessage message encPubKey w = (w', Throw (AssertionError msg)) ->
       refused ∧ w' = w)
  ∧ (∀ w', publishMessage message encPubKey w = (w', Ok tt) -> ¬ refused).
Proof.
  intros refused.
  destruct (decide (Message.msgType message = 1%Z)) as [Htype|Htype].
  2:{ assert (∀ r, publishMessage message encPubKey w = r ->
                   r = (w, Throw (AssertionError
                                    "A vote or key change message must have msgType 1")))
        as Hrun.
      { intros r <-. unfold publishMessage, mbind, M_bind, lift, assert.
        by rewrite bool_decide_eq_false_2. }
      split; [eauto|]. split.
      - intros w' msg Hr. apply Hrun in Hr. injection Hr as -> _. split; [by left | done].
      - intros w' Hr. by apply Hrun in Hr. }
  destruct (decide (encPubKey.1 < SNARK_FIELD_SIZE ∧ encPubKey.2 < SNARK_FIELD_SIZE)%Z)
    as [Hkey|Hkey].
  2:{ assert (∀ r, publishMessage message encPubKey w = r ->
                   r = (w, Throw (AssertionError "The public key is not in the correct range")))
        as Hrun.
      { intros r <-. unfold publishMessage, mbind, M_bind, lift, assert.
        rewrite bool_decide_eq_true_2 by done.
        destruct (decide (encPubKey.1 < SNARK_FIELD_SIZE)%Z).
        - rewrite (bool_decide_eq_true_2 (encPubKey.1 < _)%Z) by done.
          rewrite (bool_decide_eq_false_2 (encPubKey.2 < _)%Z) by tauto. done.
        - by rewrite (bool_decide_eq_false_2 (encPubKey.1 < _)%Z). }
      assert refused as Href by (unfold refused; lia).
      split; [eauto|]. split.
      - intros w' msg Hr. apply Hrun in Hr. by injection Hr as -> _.
      - intros w' Hr. by apply Hrun in Hr. }
  destruct (forallb (fun d => bool_decide (d < SNARK_FIELD_SIZE)%Z) (Message.data message))
    eqn:Hdata.
  - (* nothing is refused *)
    assert (¬ refused) as Hnot.
    { intros [?|[?|[?|Hex]]]; try lia.
      apply forallb_below_Exists in Hex. congruence. }
    split; [done|]. split; [|done].
    intros w' msg Hrun. exfalso.
    unfold publishMessage at 1 in Hrun. unfold assertDataInRange in Hrun.
    rewrite Hdata in Hrun.
    unfold mbind, M_bind, lift, assert in Hrun.
    rewrite bool_decide_eq_true_2 in Hrun by done.
    destruct Hkey as [Hx Hy].
    rewrite !bool_decide_eq_true_2 in Hrun by done. cbn in Hrun.
    run_cases Hrun.
  - assert refused as Href.
    { do 3 right. by apply forallb_below_Exists. }
    assert (∀ r, publishMessage message encPubKey w = r ->
                 r = (w, Throw (AssertionError "The message data is not in the correct range")))
      as Hrun.
    { intros r <-. unfold publishMessage, assertDataInRange, mbind, M_bind, lift, assert.
      destruct Hkey as [Hx Hy]. rewrite Hdata.
      by rewrite !bool_decide_eq_true_2 by done. }
    split; [eauto|]. split.
    + intros w' msg Hr. apply Hrun in Hr. by injection Hr as -> _.
    + intros w' Hr. by apply Hrun in Hr.
Qed.

(** X2. A call of [publishMessage] that returns has added the key, the message
    and, at the next free index of the message tree, the hash of the message
    under the key. It has added one command: the one the message decrypts to
    under the shared key of the coordinator, and a command of zeros under a
    newly drawn public key when the message does not decrypt. Nothing else
    of the poll is written, and nothing of the MACI state. *)
Theorem publishMessage_queues_key_message_leaf_and_command
    (message : Message.t) (encPubKey : PubKey) (w w' : World) :
  publishMessage message encPubKey w = (w', Ok tt) ->
  let p := poll w in
  let sharedKey := genEcdhSharedKey (Keypair.privKey (coordinatorKeypair p)) encPubKey in
  let stored :=
    match decrypt message sharedKey with
    | Some (command, _) => command
    | None => PCommand.mk 0 (genPubKey (randomValue (drawn w))) 0 0 0 0 0
    end in
  ∃ tree,
    QuinTree.insert (hashMessage message encPubKey) (messageTree p) = Ok tree
    ∧ QuinTree.leaves tree !! QuinTree.nextIndex (messageTree p)
      = Some (hashMessage message encPubKey)
    ∧ QuinTree.nextIndex tree = QuinTree.nextIndex (messageTree p) + 1
    ∧ poll w' = p <| encPubKeys := encPubKeys p ++ [encPubKey] |>
                  <| messages := messages p ++ [message] |>
                  <| messageTree := tree |>
                  <| commands := commands p ++ [PCmd stored] |>
    ∧ maci w' = maci w
    ∧ drawn w' = (if decrypt message sharedKey is Some _ then drawn w else S (drawn w)).
Proof.
  intros Hrun p sharedKey stored. subst p sharedKey stored.
  unfold publishMessage in Hrun. do 6 run_step Hrun.
  match goal with
  | Hins : messageTree_insert _ _ = _ |- _ =>
      unfold messageTree_insert in Hins; do 3 run_step Hins
  end.
  match goal with
  | Hins : QuinTree.insert _ _ = Ok ?t |- _ =>
      cbn in Hins; exists t; split; [exact Hins|];
      split;
      [ unfold QuinTree.insert, QuinTree.update in Hins; case_decide; [|done];
        injection Hins as <-; cbn; apply lookup_insert_eq |];
      split; [by apply insert_nextIndex in Hins; lia|]
  end.
  run_step Hrun. cbn in Hrun.
  destruct (decrypt message _) as [[command signature]|].
  - run_step Hrun. done.
  - unfold newKeypair in Hrun. repeat run_step Hrun.
    match goal with Hk : mret _ _ = _ |- _ => apply mret_Ok in Hk as [-> ->] end.
    done.
Qed.

(** X3. [topupMessage] fails one of its two assertions exactly when the message
    is not of type 2 or a data word is not below [SNARK_FIELD_SIZE]; it fails
    before any write. *)
Theorem topupMessage_refuses_before_any_write (message : Message.t) (w : World) :
  let refused :=
    Message.msgType message ≠ 2%Z
    ∨ Exists (fun d => SNARK_FIELD_SIZE ≤ d)%Z (Message.data message) in
  (refused -> ∃ msg, topupMessage message w = (w, Throw (AssertionError msg)))
  ∧ (∀ w' msg, topupMessage message w = (w', Throw (AssertionError msg)) -> refused ∧ w' = w)
  ∧ (∀ w', topupMessage message w = (w', Ok tt) -> ¬ refused).
Proof.
  intros refused.
  destruct (decide (Message.msgType message = 2%Z)) as [Htype|Htype].
  2:{ assert (∀ r, topupMessage message w = r ->
                   r = (w, Throw (AssertionError "A Topup message must have msgType 2")))
        as Hrun.
      { intros r <-. unfold topupMessage, mbind, M_bind, lift, assert.
        by rewrite bool_decide_eq_false_2. }
      split; [eauto|]. split.
      - intros w' msg Hr. apply Hrun in Hr. injection Hr as -> _. split; [by left | done].
      - intros w' Hr. by apply Hrun in Hr. }
  destruct (forallb (fun d => bool_decide (d < SNARK_FIELD_SIZE)%Z) (Message.data message))
    eqn:Hdata.
  - assert (¬ refused) as Hnot.
    { intros [?|Hex]; [done|]. apply forallb_below_Exists in Hex. congruence. }
    split; [done|]. split; [|done].
    intros w' msg Hrun. exfalso.
    unfold topupMessage at 1 in Hrun. unfold assertDataInRange in Hrun.
    rewrite Hdata in Hrun.
    unfold mbind, M_bind, lift, assert in Hrun.
    rewrite bool_decide_eq_true_2 in Hrun by done. cbn in Hrun.
    run_cases Hrun.
  - assert refused as Href by (right; by apply forallb_below_Exists).
    assert (∀ r, topupMessage message w = r ->
                 r = (w, Throw (AssertionError "The message data is not in the correct range")))
      as Hrun.
    { intros r <-. unfold topupMessage, assertDataInRange, mbind, M_bind, lift, assert.
      rewrite Hdata. by rewrite bool_decide_eq_true_2 by done. }
    split; [eauto|]. split.
    + intros w' msg Hr. apply Hrun in Hr. by injection Hr as -> _.
    + intros w' Hr. by apply Hrun in Hr.
Qed.

(** X4. A call of [topupMessage] that returns has added the message, the fixed
    pad key in place of an encryption key, the hash of the message under the
    pad key at the next free index of the message tree, and the top-up
    command made of the first two data words and the id of the poll. *)
Theorem topupMessage_queues_message_pad_key_leaf_and_command
    (message : Message.t) (w w' : World) :
  topupMessage message w = (w', Ok tt) ->
  let p := poll w in
  ∃ tree,
    QuinTree.insert (hashMessage message padKey) (messageTree p) = Ok tree
    ∧ QuinTree.leaves tree !! QuinTree.nextIndex (messageTree p)
      = Some (hashMessage message padKey)
    ∧ QuinTree.nextIndex tree = QuinTree.nextIndex (messageTree p) + 1
    ∧ w' = w <| poll :=
               p <| messages := messages p ++ [message] |>
                 <| encPubKeys := encPubKeys p ++ [padKey] |>
                 <| messageTree := tree |>
                 <| commands :=
                      commands p
                      ++ [TCmd (TCommand.mk (Message.data0 message) (Message.data1 message)
                                  (Z.of_nat (pollId p)))] |> |>.
Proof.
  intros Hrun p. subst p.
  unfold topupMessage in Hrun. do 5 run_step Hrun.
  match goal with
  | Hins : messageTree_insert _ _ = _ |- _ =>
      unfold messageTree_insert in Hins; do 3 run_step Hins
  end.
  match goal with
  | Hins : QuinTree.insert _ _ = Ok ?t |- _ =>
      cbn in Hins; exists t; split; [exact Hins|];
      split;
      [ unfold QuinTree.insert, QuinTree.update in Hins; case_decide; [|done];
        injection Hins as <-; cbn; apply lookup_insert_eq |];
      split; [by apply insert_nextIndex in Hins; lia|]
  end.
  do 2 run_step Hrun. by destruct w as [m [] d].
Qed.

(** *** What [processMessages] refuses, and the slots that write nothing *)

(** X5. [processMessages] fails an assertion, before any write, when no batch is
    left to process; on the first batch, when the batch index is already
    defined; and on a later batch, when the MACI state is processing a poll
    with another id. The poll and the MACI state are as they were. *)
Theorem processMessages_refuses_before_any_write (retries pollId : nat) (w : World) :
  let p := poll w in
  (hasUnprocessedMessages p = false ->
   processMessages retries pollId w
   = (w, Throw (AssertionError "No more messages to process")))
  ∧ (hasUnprocessedMessages p = true ->
     numBatchesProcessed p = 0 ->
     currentMessageBatchIndex p ≠ None ->
     processMessages retries pollId w
     = (w, Throw (AssertionError
                    "The current message batch index should not be defined if this is the first batch")))
  ∧ (hasUnprocessedMessages p = true ->
     numBatchesProcessed p ≠ 0 ->
     MaciState.pollBeingProcessed (maci w) = true ->
     MaciState.currentPollBeingProcessed (maci w) ≠ Some pollId ->
     processMessages retries pollId w
     = (w, Throw (AssertionError "Another poll is currently being processed"))).
Proof.
  intros p. subst p. unfold processMessages, mbind, M_bind, gets, lift, assert.
  split; [|split].
  - intros ->. done.
  - intros -> Hfirst Hindex. rewrite decide_True by done.
    by rewrite bool_decide_eq_false_2.
  - intros -> Hlater Hlock Hother. rewrite decide_False by done.
    unfold mret, M_ret. rewrite Hlock. by rewrite bool_decide_eq_false_2.
Qed.

(** X6. The slot of a top-up message. The leaf it credits is that of the first
    data word, and the amount is the second data word; when the first data
    word is not below the number of ballots, the leaf is that of index 0 and
    the amount is 0, so that no balance changes. The ballots and the ballot
    tree are not written. *)
Theorem topup_slot_credits_one_state_leaf
    (idx : nat) (acc acc' : BatchWitness) (message : Message.t) (w w' : World) :
  messages (poll w) !! idx = Some message ->
  Message.msgType message = 2%Z ->
  processSlot idx acc w = (w', Ok acc') ->
  let p := poll w in
  let outOfRange := (Z.of_nat (length (ballots p)) ≤ Message.data0 message)%Z in
  let index := if decide outOfRange then 0 else Z.to_nat (Message.data0 message) in
  let amount := if decide outOfRange then 0%Z else Message.data1 message in
  ∃ stateLeaf st st',
    (outOfRange ∨ 0 ≤ Message.data0 message)%Z
    ∧ stateLeaves p !! index = Some stateLeaf
    ∧ stateLeaves (poll w')
      = <[index := StateLeaf.mk (StateLeaf.pubKey stateLeaf)
                     (StateLeaf.voiceCreditBalance stateLeaf + amount)
                     (StateLeaf.timestamp stateLeaf)]> (stateLeaves p)
    ∧ (outOfRange -> stateLeaves (poll w') = stateLeaves p)
    ∧ stateTree p = Some st
    ∧ QuinTree.update index
        (hashStateLeaf (StateLeaf.mk (StateLeaf.pubKey stateLeaf)
                          (StateLeaf.voiceCreditBalance stateLeaf + amount)
                          (StateLeaf.timestamp stateLeaf))) st = Ok st'
    ∧ stateTree (poll w') = Some st'
    ∧ ballots (poll w') = ballots p
    ∧ ballotTree (poll w') = ballotTree p
    ∧ queue w' = queue w.
Proof.
  intros Hm Htype Hrun. cbv zeta.
  unfold processSlot in Hrun. run_step Hrun. rewrite Hm in Hrun.
  rewrite bool_decide_eq_false_2 in Hrun by (rewrite Htype; done).
  rewrite bool_decide_eq_true_2 in Hrun by done.
  unfold applyTopup in Hrun. repeat run_step Hrun.
  match goal with
  | Hup : stateTree_update _ _ _ = _ |- _ => unfold stateTree_update in Hup; repeat run_step Hup
  end.
  repeat match goal with Hd : defined _ = Ok _ |- _ => apply defined_Ok in Hd end.
  cbn in *.
  match goal with
  | Hleaf : lookupZ _ _ = Some ?leaf, Hst : stateTree (poll w) = Some ?st,
    Hup : QuinTree.update _ _ _ = Ok ?st' |- _ =>
      exists leaf, st, st'; unfold lookupZ in Hleaf;
      destruct (decide (Z.of_nat (length (ballots (poll w))) ≤ Message.data0 message)%Z)
        as [Hout|Hin];
      [ rewrite (bool_decide_eq_true_2 _ Hout) in *
      | rewrite (bool_decide_eq_false_2 _ Hin) in * ];
      destruct (decide (_ < 0)%Z); try done; cbn in *;
      assert (Hst2 : a0 = st) by congruence; subst
  end.
  - assert (StateLeaf.set_voiceCreditBalance (StateLeaf.voiceCreditBalance a + 0)%Z a = a)
      as Hsame by (destruct a; unfold StateLeaf.set_voiceCreditBalance; cbn; f_equal; lia).
    change (Z.to_nat 0) with 0 in *.
    repeat split; try done.
    + by left.
    + intros _. rewrite Hsame. by apply list_insert_id.
  - repeat split; try done. right. lia.
Qed.

Lemma idle_slot_leaves_world idx acc w :
  idleSlot (poll w) idx -> ∃ r, processSlot idx acc w = (w, r).
Proof.
  unfold idleSlot, processSlot, mbind, M_bind, gets. cbn beta iota.
  destruct (messages (poll w) !! idx) as [message|]; [|intros _; by eexists].
  destruct (decide (Message.msgType message = 1%Z)) as [Hvote|Hother].
  - rewrite bool_decide_eq_true_2 by done.
    destruct (encPubKeys (poll w) !! idx) as [encPubKey|]; cbn zeta.
    + intros [kind ->]. by eexists.
    + intros _. by eexists.
  - intros Htopup. rewrite !bool_decide_eq_false_2 by done. by eexists.
Qed.

Lemma idle_slots_leave_world slots acc w :
  Forall (idleSlot (poll w)) slots -> ∃ r, processSlots slots acc w = (w, r).
Proof.
  revert acc. induction slots as [|idx slots IH]; intros acc Hidle.
  - by eexists.
  - apply Forall_cons in Hidle as [Hfirst Hrest].
    destruct (idle_slot_leaves_world idx acc w Hfirst) as [[acc'|e] Hslot];
      cbn [processSlots]; unfold mbind, M_bind; rewrite Hslot; [by apply IH | by eexists].
Qed.

(** X7. A batch of which no slot holds anything to apply leaves the poll and the
    MACI state as they are: the loop of [processMessages] writes only for an
    accepted vote and for a top-up. Such is every batch of a poll without
    messages. *)
Theorem idle_batch_leaves_world (start : nat) (acc : BatchWitness) (w : World) :
  let size := messageBatchSize (batchSizes (poll w)) in
  currentMessageBatchIndex (poll w) = Some (Num (Z.of_nat start)) ->
  (∀ i, i < size -> idleSlot (poll w) (start + i)) ->
  ∃ r, processBatch size 0 acc w = (w, r).
Proof.
  intros size Hstart Hidle.
  rewrite (processBatch_slots size 0 acc w start size) by (done || lia).
  apply idle_slots_leave_world. apply Forall_fmap, Forall_forall.
  intros i Hi%elem_of_seq. cbn.
  replace (start + size - 1 - i) with (start + (size - 1 - i)) by lia.
  apply Hidle. lia.
Qed.

(** *** [copy] and [equals] *)

Lemma mapM_ICommand_copy (cs cs' : list ICommand) :
  mapM ICommand_copy cs = Ok cs' -> cs' = cs.
Proof.
  revert cs'. induction cs as [|c cs IH]; intros cs' Hrun.
  - by injection Hrun as <-.
  - cbn in Hrun. apply bind_Ok in Hrun as (c' & Hc & Hrun).
    apply bind_Ok in Hrun as (rest & Hrest & Hrun). injection Hrun as <-.
    apply IH in Hrest as ->. destruct c; by simplify_eq/=.
Qed.

Lemma mapM_ICommand_copy_Ok (cs : list ICommand) :
  Forall (fun c => ∀ cmdType, c ≠ OtherCmd cmdType) cs -> mapM ICommand_copy cs = Ok cs.
Proof.
  induction 1 as [|c cs Hc _ IH]; [done|].
  cbn. destruct c; cbn; rewrite ?IH; try done. by destruct (Hc cmdType).
Qed.

(** X8. [copy] writes nothing. The poll it returns has the queue, the ballots,
    the state leaves, the ballot tree, the counters, the tallies and the
    salts of the poll it is called on, and [equals] it. It has no state tree
    and is not marked as holding a copy of the state, whatever the poll it
    is called on holds: so [processMessage] of the copy accepts no message. *)
Theorem copy_keeps_the_queue_and_drops_the_state_tree (w w' : World) (q : Poll) :
  copy w = (w', Ok q) ->
  let p := poll w in
  w' = w
  ∧ equals q p = true
  ∧ (messages q, encPubKeys q, commands q, messageTree q)
    = (messages p, encPubKeys p, commands p, messageTree p)
  ∧ (stateLeaves q, ballots q, ballotTree q) = (stateLeaves p, ballots p, ballotTree p)
  ∧ (numBatchesProcessed q, currentMessageBatchIndex q, sbSalts q, pollId q)
    = (numBatchesProcessed p, currentMessageBatchIndex p, sbSalts p, pollId p)
  ∧ (tallyResult q, perVOSpentVoiceCredits q, totalSpentVoiceCredits q, numBatchesTallied q)
    = (tallyResult p, perVOSpentVoiceCredits p, totalSpentVoiceCredits p, numBatchesTallied p)
  ∧ (subsidy q, rbi q, cbi q, subsidySalts q) = (subsidy p, rbi p, cbi p, subsidySalts p)
  ∧ stateTree q = None
  ∧ stateCopied q = false
  ∧ emptyBallotHash q = None
  ∧ ∀ message encPubKey,
      ∃ kind, processMessage q message encPubKey = Throw (ProcessMessageError kind).
Proof.
  intros Hrun p. subst p. unfold copy in Hrun. repeat run_step Hrun.
  match goal with Hc : mapM ICommand_copy _ = Ok _ |- _ => apply mapM_ICommand_copy in Hc as -> end.
  split; [done|]. split.
  { rewrite equals_compared by done. apply Keypair_equals_refl. }
  repeat (split; [done|]).
  intros message encPubKey. unfold processMessage, processMessage_try. cbn.
  destruct (decrypt message _) as [[command signature]|]; cbn; [|by eexists].
  match goal with |- context [if ?c then Ok true else _] => destruct c end; cbn; by eexists.
Qed.

Lemma forallb_zip_lookup {A} (eqb : A -> A -> bool) (l k : list A) :
  length l = length k ->
  forallb (fun '(a, b) => eqb a b) (zip l k) = true
  <-> ∀ i a b, l !! i = Some a -> k !! i = Some b -> eqb a b = true.
Proof.
  revert k. induction l as [|x l IH]; intros [|y k] Hlen; try done.
  cbn. rewrite andb_true_iff, IH by (cbn in Hlen; lia). split.
  - intros [Hxy Hrest] [|i] a b; cbn; [by intros [= <-] [= <-] | apply Hrest].
  - intros Hall. split; [by apply (Hall 0) | intros i; apply (Hall (S i))].
Qed.

(** X9. What [equals] compares: the coordinator key pairs, the four tree depths,
    the tally and the message batch sizes, the two maximum values, and the
    messages and the encryption keys, which are as many and equal one by
    one. It compares nothing else: not the subsidy batch size, the ballots,
    the state leaves, the commands, the trees or the tallies. *)
Theorem equals_compares_keys_sizes_and_queue (a b : Poll) :
  equals a b = true
  <-> Keypair.equals (coordinatorKeypair a) (coordinatorKeypair b) = true
      ∧ treeDepths a = treeDepths b
      ∧ tallyBatchSize (batchSizes a) = tallyBatchSize (batchSizes b)
      ∧ messageBatchSize (batchSizes a) = messageBatchSize (batchSizes b)
      ∧ maxValues a = maxValues b
      ∧ length (messages a) = length (messages b)
      ∧ (∀ i ma mb,
           messages a !! i = Some ma -> messages b !! i = Some mb ->
           Message.equals ma mb = true)
      ∧ encPubKeys a = encPubKeys b.
Proof.
  unfold equals.
  destruct (Keypair.equals _ _); cbn; [|split; [done | by intros [? _]]].
  repeat (case_bool_decide; cbn;
          [|split; [done | intros (_ & Hd & Ht & Hm & Hv & Hl & _ & Hk); congruence]]).
  rewrite <- (forallb_zip_lookup Message.equals) by done.
  destruct (forallb _ (zip (messages a) _)); cbn;
    [|split; [done | by intros (_ & _ & _ & _ & _ & _ & ? & _)]].
  assert (forallb (fun '(x, y) => PubKey_equals x y) (zip (encPubKeys a) (encPubKeys b)) = true
          <-> encPubKeys a = encPubKeys b) as ->.
  { rewrite (forallb_zip_lookup PubKey_equals) by done. split.
    - intros Hall. apply list_eq_same_length with (length (encPubKeys a)); [done..|].
      intros i x y _ Hx Hy. specialize (Hall i x y Hx Hy).
      unfold PubKey_equals in Hall. apply andb_true_iff in Hall as [Hfst Hsnd].
      apply bool_decide_eq_true_1 in Hfst, Hsnd. destruct x, y; cbn in *; congruence.
    - intros Heq i x y Hx Hy. rewrite Heq in Hx. assert (x = y) as -> by congruence.
      unfold PubKey_equals. by rewrite !bool_decide_eq_true_2. }
  split.
  - intros Hkeys. repeat split; try done.
    + destruct (treeDepths a), (treeDepths b); cbn in *; congruence.
    + destruct (maxValues a), (maxValues b); cbn in *; congruence.
  - by intros (_ & _ & _ & _ & _ & _ & _ & ?).
Qed.

(** *** The walk of the subsidy over the pairs of blocks *)

(** [c * size < n] says that the block [c] starts before the end: there are
    [ceil (n / size)] blocks. *)
Lemma block_starts_before_end (n size c : nat) :
  0 < size -> c * size < n <-> c < (n + size - 1) / size.
Proof.
  intros Hsize. split.
  - intros Hlt. apply (Nat.div_le_lower_bound _ size (S c)); nia.
  - intros Hlt. destruct (decide (c * size < n)) as [|Hge]; [done|]. exfalso.
    assert ((n + size - 1) / size < S c); [|lia].
    apply Nat.Div0.div_lt_upper_bound; nia.
Qed.

Lemma increaseSubsidyIndex_step (w : World) :
  let p := poll w in
  let size := subsidyBatchSize (batchSizes p) in
  let blocks := (length (ballots p) + size - 1) / size in
  0 < size ->
  rbi p ≤ cbi p ->
  cbi p < blocks ->
  hasUnfinishedSubsidyCalculation p = true
  ∧ ∃ w',
      increaseSubsidyIndex w = (w', Ok tt)
      ∧ (rbi (poll w'), cbi (poll w'))
        = (if decide (cbi p + 1 < blocks) then (rbi p, cbi p + 1) else (rbi p + 1, rbi p + 1))
      ∧ rbi (poll w') ≤ cbi (poll w')
      ∧ (hasUnfinishedSubsidyCalculation (poll w') = false
         <-> cbi p + 1 = blocks ∧ rbi p + 1 = blocks)
      ∧ previousSubsidyIndexToString (poll w') = Some (Z.of_nat (rbi p), Z.of_nat (cbi p))
      ∧ ballots (poll w') = ballots p
      ∧ batchSizes (poll w') = batchSizes p.
Proof.
  cbv zeta. destruct w as [m p d]. cbn [poll].
  remember (subsidyBatchSize (batchSizes p)) as size eqn:Hs.
  remember (length (ballots p)) as n eqn:Hn.
  remember ((n + size - 1) / size) as blocks eqn:Hb.
  intros Hsize Hle Hlt.
  assert (∀ c, c * size < n <-> c < blocks) as Hblock.
  { intros c. rewrite Hb. by apply block_starts_before_end. }
  clear Hb.
  assert (∀ r c, hasUnfinishedSubsidyCalculation (p <| rbi := r |> <| cbi := c |>)
                 = bool_decide (r < blocks) && bool_decide (c < blocks)) as Hunfinished.
  { intros r c. unfold hasUnfinishedSubsidyCalculation. cbn. rewrite <- Hs, <- Hn.
    f_equal; apply bool_decide_ext, Hblock. }
  split.
  { unfold hasUnfinishedSubsidyCalculation. rewrite <- Hs, <- Hn.
    rewrite !bool_decide_eq_true_2; [done | by apply Hblock | apply Hblock; lia]. }
  unfold increaseSubsidyIndex, mbind, M_bind, gets, this, modify. cbn [poll].
  rewrite <- Hs, <- Hn.
  destruct (decide (cbi p * size + size < n)) as [Hnext|Hlast].
  - assert (cbi p + 1 < blocks) as Hin by (apply Hblock; lia).
    eexists. split; [done|]. cbn. rewrite decide_True by done.
    split; [done|]. split; [lia|]. split.
    + replace (set_cbi (cbi p + 1) p) with (p <| rbi := rbi p |> <| cbi := cbi p + 1 |>)
        by (by destruct p).
      rewrite Hunfinished. rewrite !bool_decide_eq_true_2 by lia. split; [done | lia].
    + split; [|done]. unfold previousSubsidyIndexToString. cbn.
      rewrite decide_False by lia. rewrite decide_True by lia. do 2 f_equal. lia.
  - assert (¬ cbi p + 1 < blocks) as Hout by (intros Hin%Hblock; lia).
    eexists. split; [done|]. cbn. rewrite decide_False by done.
    split; [done|]. split; [lia|]. split.
    + replace (set_cbi (rbi p + 1) (set_rbi (rbi p + 1) p))
        with (p <| rbi := rbi p + 1 |> <| cbi := rbi p + 1 |>) by done.
      rewrite Hunfinished. split.
      * intros Hdone. split; [lia|]. apply andb_false_iff in Hdone.
        destruct Hdone as [Hdone|Hdone]; apply bool_decide_eq_false_1 in Hdone; lia.
      * intros [_ Hrow]. rewrite bool_decide_eq_false_2 by lia. done.
    + split; [|done]. unfold previousSubsidyIndexToString. cbn. rewrite <- Hs, <- Hn.
      rewrite decide_False by lia. rewrite decide_False by lia.
      rewrite decide_False by lia.
      assert ((n + size - 1) / size = cbi p + 1) as ->.
      { assert (cbi p < (n + size - 1) / size) by (apply block_starts_before_end; [done|]; apply Hblock; lia).
        assert (¬ cbi p + 1 < (n + size - 1) / size); [|lia].
        intros Hin%block_starts_before_end; [lia | done]. }
      do 2 f_equal; lia.
Qed.

(** X10. [increaseSubsidyIndex] walks the pairs of blocks [(rbi, cbi)] with
    [rbi <= cbi] row by row: from a pair inside the [blocks x blocks] grid it
    goes to the next block of the row, and from the last block of a row to
    the diagonal block of the next row. The calculation is unfinished on
    every pair of the walk and finished after the pair of the last row.
    [previousSubsidyIndexToString] then names the pair the walk came from. *)
Theorem subsidy_index_walks_the_upper_triangle (w : World) :
  let p := poll w in
  let size := subsidyBatchSize (batchSizes p) in
  let blocks := (length (ballots p) + size - 1) / size in
  0 < size ->
  rbi p ≤ cbi p ->
  cbi p < blocks ->
  hasUnfinishedSubsidyCalculation p = true
  ∧ ∃ w',
      increaseSubsidyIndex w = (w', Ok tt)
      ∧ (rbi (poll w'), cbi (poll w'))
        = (if decide (cbi p + 1 < blocks) then (rbi p, cbi p + 1) else (rbi p + 1, rbi p + 1))
      ∧ rbi (poll w') ≤ cbi (poll w')
      ∧ (hasUnfinishedSubsidyCalculation (poll w') = false
         <-> cbi p + 1 = blocks ∧ rbi p + 1 = blocks)
      ∧ previousSubsidyIndexToString (poll w') = Some (Z.of_nat (rbi p), Z.of_nat (cbi p))
      ∧ ballots (poll w') = ballots p
      ∧ batchSizes (poll w') = batchSizes p.
Proof. exact (increaseSubsidyIndex_step w). Qed.

(** What [subsidyCalculation] writes is [subsidy]. *)
Lemma subsidyCalculation_frame {X} (f : World -> X) rs cs :
  (∀ w S, f (w <| poll := (poll w) <| subsidy := S |> |>) = f w) ->
  preserves (same f) (subsidyCalculation rs cs).
Proof.
  intros Hf. unfold subsidyCalculation, subsidyPair, subsidyVote.
  frame_with ltac:(apply Hf).
Qed.

Lemma increaseSubsidyIndex_writes_the_index w w' r :
  increaseSubsidyIndex w = (w', r) ->
  r = Ok tt ∧ ∃ row col, w' = w <| poll := (poll w) <| rbi := row |> <| cbi := col |> |>.
Proof.
  unfold increaseSubsidyIndex, mbind, M_bind, gets, this, modify. cbn beta iota.
  case_decide; intros [= <- <-]; (split; [done|]).
  - exists (rbi (poll w)), (cbi (poll w) + 1). by destruct w as [m [] d].
  - by eexists _, _.
Qed.

(** X11. Two calls of [subsidyPerBatch] in a row, on a poll whose walk over the
    pairs of blocks is in the upper triangle: the second reads as its current
    salt the new salt of the first, stored under the pair of indices the
    first call worked on, and its current commitment is the new commitment
    of the first. *)
Theorem subsidy_batches_chain (w w1 w2 : World) (o1 o2 : SubsidyInputs) :
  subsidyPerBatch w = (w1, Ok o1) ->
  subsidyPerBatch w1 = (w2, Ok o2) ->
  0 < subsidyBatchSize (batchSizes (poll w)) ->
  rbi (poll w) ≤ cbi (poll w) ->
  si_currentSubsidySalt o2 = si_newSubsidySalt o1
  ∧ si_currentSubsidyCommitment o2 = si_newSubsidyCommitment o1
  ∧ si_currentSubsidy o2 = subsidy (poll w1).
Proof.
  intros Hone Htwo Hsize Hle.
  (* the first call *)
  unfold subsidyPerBatch in Hone. do 5 run_step Hone.
  apply M_bind_Ok in Hone as (wa & [salt com] & Hsalt & Hone).
  assert (wa = w) as ->.
  { destruct (decide _); [run_step Hsalt|]; by apply mret_Ok in Hsalt as [-> _]. }
  clear Hsalt.
  apply M_bind_Ok in Hone as (wb & [b1 b2] & Hcalc & Hone).
  apply (subsidyCalculation_frame subsidyFrame) in Hcalc as Hframe; [|done].
  unfold same, subsidyFrame in Hframe. injection Hframe as Hsalts Hrow Hcol Hballots Hsizes Hdepths.
  repeat run_step Hone.
  match type of Hrun with increaseSubsidyIndex ?wc = _ => remember wc as wc' eqn:Hwc end.
  assert (subsidySalts (poll wc') !! (Z.of_nat (rbi (poll w)), Z.of_nat (cbi (poll w)))
          = Some (randomValue (drawn wb))
          ∧ rbi (poll wc') = rbi (poll w) ∧ cbi (poll wc') = cbi (poll w)
          ∧ ballots (poll wc') = ballots (poll w)
          ∧ batchSizes (poll wc') = batchSizes (poll w)
          ∧ treeDepths (poll wc') = treeDepths (poll w)
          ∧ subsidy (poll wc') = subsidy (poll wb))
    as (Hkey & Hrow' & Hcol' & Hballots' & Hsizes' & Hdepths' & Hsubsidy').
  { rewrite Hwc. cbn. rewrite Hrow, Hcol. by rewrite lookup_insert_eq. }
  apply assert_Ok in Hval.
  unfold hasUnfinishedSubsidyCalculation in Hval.
  apply andb_true_iff in Hval as [_ Hcolumn]. apply bool_decide_eq_true_1 in Hcolumn.
  destruct (increaseSubsidyIndex_step wc') as (_ & w0' & Hstep & Hnext & _ & _ & Hprev & _).
  { by rewrite Hsizes'. }
  { by rewrite Hrow', Hcol'. }
  { rewrite Hsizes', Hballots', Hcol'. by apply block_starts_before_end. }
  rewrite Hrun in Hstep. injection Hstep as <-.
  apply increaseSubsidyIndex_writes_the_index in Hrun as [_ (row & col & ->)].
  cbn in Hnext, Hprev.
  (* the second call *)
  unfold subsidyPerBatch in Htwo. do 5 run_step Htwo.
  apply M_bind_Ok in Htwo as (wd & [salt2 com2] & Hsalt2 & Htwo).
  cbn in Hsalt2.
  assert (row ≠ 0 ∨ col ≠ 0) as Hmoved.
  { destruct (decide _) in Hnext; injection Hnext as Hr Hc; lia. }
  rewrite decide_True in Hsalt2 by done.
  run_step Hsalt2. apply mret_Ok in Hsalt2 as [-> Hpair]. injection Hpair as Hsalt2 Hcom2.
  match goal with
  | Hread : defined (previousSubsidyIndexToString _ ≫= _) = Ok ?s |- _ =>
      apply defined_Ok in Hread; rewrite Hprev in Hread; cbn in Hread;
      rewrite Hrow', Hcol', Hkey in Hread; injection Hread as <-
  end.
  apply M_bind_Ok in Htwo as (we & [c1 c2] & Hcalc2 & Htwo).
  repeat run_step Htwo.
  cbn. done.
Qed.

(** *** The chain of the tally commitments *)

Lemma tallyVotes_writes w w1 o1 :
  tallyVotes w = (w1, Ok o1) ->
  let size := tallyBatchSize (batchSizes (poll w)) in
  let start := numBatchesTallied (poll w) * size in
  ∃ pA c1 c2 c3,
    poll w1 = pA <| numBatchesTallied := numBatchesTallied (poll w) + 1 |>
    ∧ batchSizes pA = batchSizes (poll w)
    ∧ resultRootSalts pA !! start = Some (ti_newResultsRootSalt o1)
    ∧ preVOSpentVoiceCreditsRootSalts pA !! start
      = Some (ti_newPerVOSpentVoiceCreditsRootSalt o1)
    ∧ spentVoiceCreditSubtotalSalts pA !! start
      = Some (ti_newSpentVoiceCreditSubtotalSalt o1)
    ∧ genResultsCommitment pA (Some (ti_newResultsRootSalt o1)) = Ok c1
    ∧ genSpentVoiceCreditSubtotalCommitment pA
        (Some (ti_newSpentVoiceCreditSubtotalSalt o1)) (start + size) = Ok c2
    ∧ genPerVOSpentVoiceCreditsCommitment pA
        (Some (ti_newPerVOSpentVoiceCreditsRootSalt o1)) (start + size) = Ok c3
    ∧ ti_newTallyCommitment o1 = hash3 c1 c2 c3.
Proof.
  intros Hrun size start. unfold tallyVotes in Hrun. repeat run_step Hrun.
  match goal with
  | Hb : tallyBatch _ _ _ _ = _ |- _ => apply tallyBatch_Ok in Hb as (_ & _ & ->)
  end.
  match goal with
  | H1 : genResultsCommitment ?pA (Some _) = Ok ?c1,
    H2 : genSpentVoiceCreditSubtotalCommitment ?pA (Some _) _ = Ok ?c2,
    H3 : genPerVOSpentVoiceCreditsCommitment ?pA (Some _) _ = Ok ?c3 |- _ =>
      exists pA, c1, c2, c3
  end.
  cbn [ti_newResultsRootSalt ti_newPerVOSpentVoiceCreditsRootSalt
       ti_newSpentVoiceCreditSubtotalSalt ti_newTallyCommitment].
  split; [done|].
  split; [done|].
  split; [cbn; by rewrite lookup_insert_eq|].
  split; [cbn; by rewrite lookup_insert_eq|].
  split; [cbn; by rewrite lookup_insert_eq|].
  done.
Qed.

Lemma tallyVotes_reads w w2 o2 :
  tallyVotes w = (w2, Ok o2) ->
  let size := tallyBatchSize (batchSizes (poll w)) in
  let start := numBatchesTallied (poll w) * size in
  start ≠ 0 ->
  ∃ c1 c2 c3,
    resultRootSalts (poll w) !! (start - size) = Some (ti_currentResultsRootSalt o2)
    ∧ preVOSpentVoiceCreditsRootSalts (poll w) !! (start - size)
      = Some (ti_currentPerVOSpentVoiceCreditsRootSalt o2)
    ∧ spentVoiceCreditSubtotalSalts (poll w) !! (start - size)
      = Some (ti_currentSpentVoiceCreditSubtotalSalt o2)
    ∧ genResultsCommitment (poll w) (Some (ti_currentResultsRootSalt o2)) = Ok c1
    ∧ genSpentVoiceCreditSubtotalCommitment (poll w)
        (Some (ti_currentSpentVoiceCreditSubtotalSalt o2)) start = Ok c2
    ∧ genPerVOSpentVoiceCreditsCommitment (poll w)
        (Some (ti_currentPerVOSpentVoiceCreditsRootSalt o2)) start = Ok c3
    ∧ ti_currentTallyCommitment o2 = hash3 c1 c2 c3
    ∧ ti_currentResults o2 = tallyResult (poll w)
    ∧ ti_currentPerVOSpentVoiceCredits o2 = perVOSpentVoiceCredits (poll w)
    ∧ ti_currentSpentVoiceCreditSubtotal o2 = totalSpentVoiceCredits (poll w).
Proof.
  intros Hrun size start Hstart. unfold tallyVotes in Hrun. fold size start in Hrun.
  repeat run_step Hrun.
  rewrite !decide_False in * by done.
  repeat match goal with Hd : defined _ = Ok _ |- _ => apply defined_Ok in Hd end.
  cbn [ti_currentResultsRootSalt ti_currentPerVOSpentVoiceCreditsRootSalt
       ti_currentSpentVoiceCreditSubtotalSalt ti_currentTallyCommitment ti_currentResults
       ti_currentPerVOSpentVoiceCredits ti_currentSpentVoiceCreditSubtotal].
  match goal with
  | H1 : genResultsCommitment (poll w) _ = Ok ?c1,
    H2 : genSpentVoiceCreditSubtotalCommitment (poll w) _ _ = Ok ?c2,
    H3 : genPerVOSpentVoiceCreditsCommitment (poll w) _ _ = Ok ?c3,
    S1 : resultRootSalts (poll w) !! _ = Some _,
    S2 : preVOSpentVoiceCreditsRootSalts (poll w) !! _ = Some _,
    S3 : spentVoiceCreditSubtotalSalts (poll w) !! _ = Some _ |- _ =>
      exists c1, c2, c3; rewrite S1 in H1; rewrite S2 in H3; rewrite S3 in H2
  end.
  repeat split; done.
Qed.

(** X12. Two calls of [tallyVotes] in a row, with a batch size that is not [0]:
    the three current salts of the second are the three new salts of the
    first, its current tally commitment is the new tally commitment of the
    first, and its current results are the tallies the first call left. *)
Theorem tally_batches_chain (w w1 w2 : World) (o1 o2 : TallyInputs) :
  tallyVotes w = (w1, Ok o1) ->
  tallyVotes w1 = (w2, Ok o2) ->
  0 < tallyBatchSize (batchSizes (poll w)) ->
  ti_currentTallyCommitment o2 = ti_newTallyCommitment o1
  ∧ ti_currentResultsRootSalt o2 = ti_newResultsRootSalt o1
  ∧ ti_currentPerVOSpentVoiceCreditsRootSalt o2 = ti_newPerVOSpentVoiceCreditsRootSalt o1
  ∧ ti_currentSpentVoiceCreditSubtotalSalt o2 = ti_newSpentVoiceCreditSubtotalSalt o1
  ∧ ti_currentResults o2 = tallyResult (poll w1)
  ∧ ti_currentPerVOSpentVoiceCredits o2 = perVOSpentVoiceCredits (poll w1)
  ∧ ti_currentSpentVoiceCreditSubtotal o2 = totalSpentVoiceCredits (poll w1).
Proof.
  intros Hone Htwo Hsize.
  apply tallyVotes_writes in Hone
    as (pA & c1 & c2 & c3 & Hpoll & Hsizes & Hs1 & Hs2 & Hs3 & Hc1 & Hc2 & Hc3 & Hnew).
  apply tallyVotes_reads in Htwo
    as (d1 & d2 & d3 & Hr1 & Hr2 & Hr3 & Hd1 & Hd2 & Hd3 & Hcur & Hres & Hper & Htot).
  2:{ rewrite Hpoll. cbn. rewrite Hsizes. lia. }
  rewrite Hpoll in Hr1, Hr2, Hr3, Hd1, Hd2, Hd3. cbn in Hr1, Hr2, Hr3.
  rewrite Hsizes in Hr1, Hr2, Hr3.
  set (size := tallyBatchSize (batchSizes (poll w))) in *.
  replace ((numBatchesTallied (poll w) + 1) * size - size)
    with (numBatchesTallied (poll w) * size) in Hr1, Hr2, Hr3 by lia.
  assert (ti_currentResultsRootSalt o2 = ti_newResultsRootSalt o1) as E1 by congruence.
  assert (ti_currentPerVOSpentVoiceCreditsRootSalt o2
          = ti_newPerVOSpentVoiceCreditsRootSalt o1) as E2 by congruence.
  assert (ti_currentSpentVoiceCreditSubtotalSalt o2
          = ti_newSpentVoiceCreditSubtotalSalt o1) as E3 by congruence.
  rewrite E1 in Hd1. rewrite E2 in Hd3. rewrite E3 in Hd2.
  change (genResultsCommitment pA (Some (ti_newResultsRootSalt o1)) = Ok d1) in Hd1.
  cbn [numBatchesTallied batchSizes set set_numBatchesTallied] in Hd2, Hd3.
  rewrite Hsizes in Hd2, Hd3. fold size in Hd2, Hd3.
  replace ((numBatchesTallied (poll w) + 1) * size)
    with (numBatchesTallied (poll w) * size + size) in Hd2, Hd3 by lia.
  change (genSpentVoiceCreditSubtotalCommitment pA
            (Some (ti_newSpentVoiceCreditSubtotalSalt o1))
            (numBatchesTallied (poll w) * size + size) = Ok d2) in Hd2.
  change (genPerVOSpentVoiceCreditsCommitment pA
            (Some (ti_newPerVOSpentVoiceCreditsRootSalt o1))
            (numBatchesTallied (poll w) * size + size) = Ok d3) in Hd3.
  assert (d1 = c1) as -> by congruence.
  assert (d2 = c2) as -> by congruence.
  assert (d3 = c3) as -> by congruence.
  repeat split; try done. congruence.
Qed.

(** *** From one batch of messages to the next *)

Section VoterWrites.
Context {X} (f : World -> X).
Context (Hleaves : ∀ w v, f (w <| poll := (poll w) <| stateLeaves := v |> |>) = f w).
Context (HstateTree : ∀ w v, f (w <| poll := (poll w) <| stateTree := v |> |>) = f w).
Context (Hballots : ∀ w v, f (w <| poll := (poll w) <| ballots := v |> |>) = f w).
Context (HballotTree : ∀ w v, f (w <| poll := (poll w) <| ballotTree := v |> |>) = f w).

Local Ltac voter_write :=
  first [apply Hleaves | apply HstateTree | apply Hballots | apply HballotTree].

Lemma stateTree_update_writes index leaf : preserves (same f) (stateTree_update index leaf).
Proof. unfold stateTree_update. frame_with ltac:(voter_write). Qed.

Lemma ballotTree_update_writes index leaf : preserves (same f) (ballotTree_update index leaf).
Proof. unfold ballotTree_update. frame_with ltac:(voter_write). Qed.

Lemma processSlot_writes idx acc : preserves (same f) (processSlot idx acc).
Proof.
  unfold processSlot, applyVote, applyTopup, unshiftBlank.
  frame_using
    ltac:(first [apply stateTree_update_writes | apply ballotTree_update_writes])
    ltac:(voter_write).
Qed.

Lemma processBatch_writes count from acc : preserves (same f) (processBatch count from acc).
Proof.
  revert from acc. induction count as [|count IH]; intros from acc; cbn [processBatch].
  - frame.
  - frame_using ltac:(first [apply processSlot_writes | apply IH]) ltac:(done).
Qed.
End VoterWrites.

Lemma genProcessMessagesCircuitInputsPartial_writes {X} (f : World -> X) index :
  (∀ w mt, f (w <| poll := (poll w) <| messageTree := mt |> |>) = f w) ->
  preserves (same f) (genProcessMessagesCircuitInputsPartial index).
Proof.
  intros Hf. unfold genProcessMessagesCircuitInputsPartial.
  frame_using ltac:(by apply messageTree_insert_frame) ltac:(try done; try reflexivity).
Qed.

Lemma freshSalt_writes {X} (f : World -> X) retries current :
  (∀ w v, f (w <| drawn := v |>) = f w) ->
  preserves (same f) (freshSalt retries current).
Proof.
  intros Hf.
  assert (preserves (same f) genRandomSalt) as Hdraw.
  { intros w w' r [= <- _]. apply Hf. }
  induction retries as [|retries IH]; cbn [freshSalt].
  - frame_using ltac:(apply Hdraw) ltac:(done).
  - frame_using ltac:(first [apply Hdraw | apply IH]) ltac:(done).
Qed.
(** *** From one batch of messages to the next *)

#[local] Instance steering_ignores : IgnoresVoters steering.
Proof. by split. Qed.

Lemma copyStateFromMaci_copied w w' :
  copyStateFromMaci w = (w', Ok tt) -> stateCopied (poll w') = true.
Proof.
  intros Hrun. unfold copyStateFromMaci in Hrun. repeat run_step Hrun.
  done.
Qed.

(** The steps of [processMessages] before the state is copied write the
    lock, the batch index and the salts; on a batch that is not the first
    they write nothing. *)
Lemma processMessages_prefix (id : nat) (w w0 w1 w2 : World) (p : Poll) u0 u1 u2
    (first : M World unit) :
  (if decide (numBatchesProcessed p = 0) then
     lift (assert (bool_decide (currentMessageBatchIndex p = None))
             "The current message batch index should not be defined if this is the first batch");;
     maciStateRef (fun m => m <| MaciState.pollBeingProcessed := true |>);;
     maciStateRef (fun m => m <| MaciState.currentPollBeingProcessed := Some id |>)
   else mret tt) w = (w0, Ok u0) ->
  (if MaciState.pollBeingProcessed (maci w0) then
     lift (assert (bool_decide (MaciState.currentPollBeingProcessed (maci w0) = Some id))
             "Another poll is currently being processed")
   else mret tt) w0 = (w1, Ok u1) ->
  (if decide (numBatchesProcessed p = 0) then first else mret tt) w1 = (w2, Ok u2) ->
  (numBatchesProcessed p ≠ 0 -> w2 = w ∧ w1 = w)
  ∧ poll w1 = poll w
  ∧ (MaciState.pollBeingProcessed (maci w1) = true ->
     MaciState.currentPollBeingProcessed (maci w1) = Some id)
  ∧ (numBatchesProcessed p = 0 ->
     first w1 = (w2, Ok u2)
     ∧ MaciState.pollBeingProcessed (maci w1) = true
     ∧ MaciState.currentPollBeingProcessed (maci w1) = Some id).
Proof.
  intros Hlock Hcheck Hindex.
  assert (w1 = w0
          ∧ (MaciState.pollBeingProcessed (maci w0) = true ->
             MaciState.currentPollBeingProcessed (maci w0) = Some id)) as [-> Hheld].
  { destruct (MaciState.pollBeingProcessed _); run_step Hcheck; [|done].
    split; [done|]. intros _.
    match goal with
    | Ha : assert _ _ = Ok _ |- _ => by apply assert_Ok, bool_decide_eq_true in Ha
    end. }
  destruct (decide (numBatchesProcessed p = 0)) as [Hfirst|Hlater].
  - do 3 run_step Hlock. cbn. repeat split; done.
  - run_step Hlock. run_step Hindex. repeat split; done.
Qed.

(** The inputs of a batch report the trees and the salt the poll has when
    they are generated. *)
Lemma genProcessMessagesCircuitInputsPartial_reads index w w' inputs :
  genProcessMessagesCircuitInputsPartial index w = (w', Ok inputs) ->
  ∃ st bt salt,
    stateTree (poll w) = Some st
    ∧ ballotTree (poll w) = Some bt
    ∧ currentSbSalt (poll w) = Some salt
    ∧ pmi_currentStateRoot inputs = root st
    ∧ pmi_currentBallotRoot inputs = root bt
    ∧ pmi_currentSbSalt inputs = salt
    ∧ pmi_currentSbCommitment inputs = hash3 (root st) (root bt) salt.
Proof.
  intros Hrun.
  pose proof (genProcessMessagesCircuitInputsPartial_writes
                (fun w => (stateTree (poll w), ballotTree (poll w), currentSbSalt (poll w)))
                index ltac:(done) _ _ _ Hrun) as Hsame.
  unfold same in Hsame. injection Hsame as Hst Hbt Hsalt.
  unfold genProcessMessagesCircuitInputsPartial in Hrun. repeat run_step Hrun.
  repeat match goal with Hd : defined _ = Ok _ |- _ => apply defined_Ok in Hd end.
  rewrite <- Hst, <- Hbt, <- Hsalt. eexists _, _, _. repeat split; eassumption.
Qed.

Lemma processMessages_after retries id w w' out :
  processMessages retries id w = (w', Ok out) ->
  numBatchesProcessed (poll w') = numBatchesProcessed (poll w) + 1
  ∧ stateCopied (poll w') = true
  ∧ messages (poll w') = messages (poll w)
  ∧ batchSizes (poll w') = batchSizes (poll w)
  ∧ pollId (poll w') = pollId (poll w)
  ∧ (∃ st bt,
       stateTree (poll w') = Some st
       ∧ ballotTree (poll w') = Some bt
       ∧ currentSbSalt (poll w') = Some (pmi_newSbSalt out)
       ∧ pmi_newSbCommitment out = hash3 (root st) (root bt) (pmi_newSbSalt out))
  ∧ (length (messages (poll w))
       ≤ (numBatchesProcessed (poll w) + 1) * messageBatchSize (batchSizes (poll w)) ->
     MaciState.pollBeingProcessed (maci w') = false)
  ∧ (¬ length (messages (poll w))
         ≤ (numBatchesProcessed (poll w) + 1) * messageBatchSize (batchSizes (poll w)) ->
     numBatchesProcessed (poll w) = 0 ->
     MaciState.pollBeingProcessed (maci w') = true
     ∧ MaciState.currentPollBeingProcessed (maci w') = Some id)
  ∧ (numBatchesProcessed (poll w) ≠ 0 -> stateCopied (poll w) = true ->
     ∃ st bt salt,
       stateTree (poll w) = Some st
       ∧ ballotTree (poll w) = Some bt
       ∧ currentSbSalt (poll w) = Some salt
       ∧ pmi_currentStateRoot out = root st
       ∧ pmi_currentBallotRoot out = root bt
       ∧ pmi_currentSbSalt out = salt
       ∧ pmi_currentSbCommitment out = hash3 (root st) (root bt) salt)
  ∧ messageBatchSize (batchSizes (poll w)) ≠ 0
  ∧ (¬ length (messages (poll w))
         ≤ (numBatchesProcessed (poll w) + 1) * messageBatchSize (batchSizes (poll w)) ->
     MaciState.pollBeingProcessed (maci w') = true ->
     MaciState.currentPollBeingProcessed (maci w') = Some id).
Proof.
  intros Hrun. unfold processMessages in Hrun.
  do 11 run_step Hrun.
  destruct (processMessages_prefix _ _ _ _ _ _ _ _ _ _ Hrun0 Hrun1 Hrun2)
    as (Hlater & Hpoll1 & Hheld1 & Hfirst).
  (* the world the state is copied in *)
  assert (numBatchesProcessed (poll w2) = numBatchesProcessed (poll w)
          ∧ messages (poll w2) = messages (poll w)
          ∧ batchSizes (poll w2) = batchSizes (poll w)
          ∧ pollId (poll w2) = pollId (poll w)
          ∧ (numBatchesProcessed (poll w) = 0 ->
             MaciState.pollBeingProcessed (maci w2) = true
             ∧ MaciState.currentPollBeingProcessed (maci w2) = Some id)
          ∧ (MaciState.pollBeingProcessed (maci w2) = true ->
             MaciState.currentPollBeingProcessed (maci w2) = Some id))
    as (Hn2 & Hm2 & Hb2 & Hi2 & Hlock2 & Hheld2).
  { destruct (decide (numBatchesProcessed (poll w) = 0)) as [Hz|Hnz].
    - destruct (Hfirst Hz) as (Hindex & Hheld & Hby).
      do 2 run_step Hindex. cbn. rewrite Hpoll1. done.
    - destruct (Hlater Hnz) as [E2 E1]. rewrite E2. rewrite E1 in Hheld1. done. }
  match goal with
  | Hg : genProcessMessagesCircuitInputsPartial _ _ = (_, Ok ?ci) |- _ =>
      rename ci into inputs
  end.
  assert (numBatchesProcessed (poll w) ≠ 0 -> stateCopied (poll w) = true ->
          ∃ st bt salt,
            stateTree (poll w) = Some st
            ∧ ballotTree (poll w) = Some bt
            ∧ currentSbSalt (poll w) = Some salt
            ∧ pmi_currentStateRoot inputs = root st
            ∧ pmi_currentBallotRoot inputs = root bt
            ∧ pmi_currentSbSalt inputs = salt
            ∧ pmi_currentSbCommitment inputs = hash3 (root st) (root bt) salt)
    as Hreads.
  { intros Hnz Hc. destruct (Hlater Hnz) as [E2 _]. subst w2.
    rewrite Hc in Hrun3. apply mret_Ok in Hrun3 as [-> _].
    by apply genProcessMessagesCircuitInputsPartial_reads in Hrun4. }
  assert (∃ z, currentMessageBatchIndex (poll w2) = Some (Num z)) as [z Hidx].
  { apply assert_Ok in Hval0. revert Hval0.
    destruct (currentMessageBatchIndex (poll w2)) as [[z|]|]; by eauto. }
  assert (messageBatchSize (batchSizes (poll w)) ≠ 0) as Hsize.
  { apply assert_Ok in Hval1. rewrite Hidx in Hval1.
    apply bool_decide_eq_true in Hval1. unfold jsRem in Hval1.
    by destruct (decide (messageBatchSize (batchSizes (poll w)) = 0)). }
  clear Hrun0 Hrun1 Hrun2 Hlater Hfirst Hpoll1 Hheld1 Hval0 Hval1.
  (* the copy of the state *)
  assert (stateCopied (poll w3) = true ∧ steering w3 = steering w2) as [Hcopied3 Hs3].
  { destruct (stateCopied (poll w2)) eqn:Hc.
    - by run_step Hrun3.
    - split; [by destruct a5; apply copyStateFromMaci_copied in Hrun3|].
      by apply (copyStateFromMaci_frame steering) in Hrun3. }
  apply (genProcessMessagesCircuitInputsPartial_writes control) in Hrun4 as Hc4; [|done].
  run_step Hrun.
  match goal with
  | Hl : processBatch _ _ _ _ = (?wn, _) |- _ => rename Hl into Hloop; rename wn into wl
  end.
  apply (processBatch_writes control) in Hloop as Hc5; [|done..].
  unfold same in Hc4, Hc5.
  assert (control wl = (true, steering w2)) as Hcl.
  { rewrite Hc5, Hc4. unfold control. by rewrite Hcopied3, Hs3. }
  clear Hc4 Hc5 Hs3 Hcopied3 Hrun3 Hrun4 Hloop.
  unfold control, steering in Hcl.
  injection Hcl as Hcopied Hmaci Hsalts Hindex Hcount Hmessages Hsizes Hid.
  (* the steps after the loop *)
  run_step Hrun. run_step Hrun.
  match goal with
  | Hd : (if jsPos _ then _ else _) _ = (?wn, _) |- _ => rename Hd into Hdec; rename wn into wd
  end.
  assert (∃ c, wd = wl <| poll := (poll wl) <| numBatchesProcessed :=
                                               numBatchesProcessed (poll wl) + 1 |>
                                           <| currentMessageBatchIndex := Some c |> |>)
    as [c ->].
  { destruct (jsPos _); run_step Hdec; [by eexists|].
    exists (Num z). rewrite Hidx in Hindex. rewrite <- Hindex.
    by destruct wl as [m [] d]. }
  clear Hdec.
  do 2 run_step Hrun.
  match goal with
  | Hs : freshSalt _ _ _ = (?wn, Ok ?s) |- _ =>
      rename Hs into Hsalt; rename wn into ws; rename s into newSbSalt
  end.
  apply (freshSalt_writes (fun w => (poll w, maci w))) in Hsalt as Hws; [|done].
  unfold same in Hws. injection Hws as Hpoll Hmaci'.
  do 4 run_step Hrun.
  apply M_bind_Ok in Hrun as (wr & [] & Hrel & Hret).
  apply mret_Ok in Hret as [-> ->].
  match type of Hrel with _ ?wf0 = _ => remember wf0 as wf eqn:Hwf end.
  assert (numBatchesProcessed (poll wf) = numBatchesProcessed (poll w) + 1
          ∧ stateCopied (poll wf) = true
          ∧ messages (poll wf) = messages (poll w)
          ∧ batchSizes (poll wf) = batchSizes (poll w)
          ∧ pollId (poll wf) = pollId (poll w)
          ∧ currentSbSalt (poll wf) = Some newSbSalt
          ∧ maci wf = maci w2)
    as (Hn & Hc & Hm & Hb & Hi & Hs & Hmf).
  { rewrite Hwf. unfold currentSbSalt. cbn. rewrite Hpoll. cbn.
    rewrite lookup_insert_eq. repeat split; congruence. }
  assert (poll wr = poll wf
          ∧ (length (messages (poll wf))
               ≤ numBatchesProcessed (poll wf) * messageBatchSize (batchSizes (poll w)) ->
             MaciState.pollBeingProcessed (maci wr) = false)
          ∧ (¬ length (messages (poll wf))
                 ≤ numBatchesProcessed (poll wf) * messageBatchSize (batchSizes (poll w)) ->
             maci wr = maci wf))
    as (Hpr & Hreleased & Hkept).
  { destruct (decide _) as [Hlast|Hmore] in Hrel.
    - apply modify_Ok in Hrel as ->. done.
    - apply mret_Ok in Hrel as [-> _]. done. }
  rewrite Hpr.
  cbn [pmi_newSbSalt pmi_newSbCommitment pmi_currentStateRoot pmi_currentBallotRoot
       pmi_currentSbSalt pmi_currentSbCommitment].
  do 5 (split; [congruence|]).
  split.
  { repeat match goal with Hd : defined _ = Ok _ |- _ => apply defined_Ok in Hd end.
    eexists _, _. repeat split; eassumption || reflexivity. }
  rewrite Hm, Hn in Hreleased, Hkept.
  split; [done|].
  split; [intros Hmore Hz; rewrite (Hkept Hmore), Hmf; by apply Hlock2|].
  split; [done|].
  split; [done|].
  intros Hmore. rewrite (Hkept Hmore), Hmf. done.
Qed.

(** Once a batch was processed, messages are left exactly when the batches
    processed do not cover the queue. *)
Lemma hasUnprocessedMessages_left (p : Poll) :
  messageBatchSize (batchSizes p) ≠ 0 -> numBatchesProcessed p ≠ 0 ->
  hasUnprocessedMessages p
  = bool_decide (¬ length (messages p)
                     ≤ numBatchesProcessed p * messageBatchSize (batchSizes p)).
Proof.
  intros Hsize Hcount. unfold hasUnprocessedMessages, totalBatches, jsRem.
  set (n := length (messages p)). set (size := messageBatchSize (batchSizes p)) in *.
  set (k := numBatchesProcessed p) in *.
  destruct (decide (size = 0)); [done|].
  pose proof (Nat.div_mod_eq n size) as Hdiv.
  pose proof (Nat.mod_upper_bound n size ltac:(done)) as Hmod.
  destruct (decide (n ≤ size)).
  - rewrite bool_decide_eq_false_2 by lia. cbn. apply bool_decide_ext. nia.
  - rewrite bool_decide_eq_true_2 by lia. cbn.
    destruct (decide (0 < n `mod` size)).
    + rewrite bool_decide_eq_true_2 by lia. cbn. apply bool_decide_ext. nia.
    + rewrite bool_decide_eq_false_2 by lia. cbn. apply bool_decide_ext. nia.
Qed.

(** X13. Two batches of messages in a row: the commitment to the state and ballot
    roots and the salt that the second call reports as current are the ones
    the first call reported as new, and the roots it reports as current are
    those of the trees the first call left. *)
Theorem message_batches_chain retries retries' id id' w w1 w2 former latter :
  processMessages retries id w = (w1, Ok former) ->
  processMessages retries' id' w1 = (w2, Ok latter) ->
  pmi_currentSbSalt latter = pmi_newSbSalt former
  ∧ pmi_currentSbCommitment latter = pmi_newSbCommitment former
  ∧ pmi_newSbCommitment former
    = hash3 (pmi_currentStateRoot latter) (pmi_currentBallotRoot latter)
        (pmi_newSbSalt former)
  ∧ numBatchesProcessed (poll w2) = numBatchesProcessed (poll w) + 2.
Proof.
  intros Hformer Hlatter.
  apply processMessages_after in Hformer
    as (Hn & Hc & _ & _ & _ & (st & bt & Hst & Hbt & Hsalt & Hnew) & _).
  apply processMessages_after in Hlatter
    as (Hn' & _ & _ & _ & _ & _ & _ & _ & Hreads & _).
  destruct (Hreads ltac:(lia) Hc)
    as (st' & bt' & salt' & Hst' & Hbt' & Hsalt' & Hsr & Hbr & Hcs & Hcc).
  rewrite Hcs, Hcc, Hsr, Hbr, Hnew.
  assert (st' = st) as -> by congruence.
  assert (bt' = bt) as -> by congruence.
  assert (salt' = pmi_newSbSalt former) as -> by congruence.
  repeat split; [done..|lia].
Qed.

Lemma processMessages_last_batch retries id w w' out :
  processMessages retries id w = (w', Ok out) ->
  hasUnprocessedMessages (poll w') = false ->
  MaciState.pollBeingProcessed (maci w') = false.
Proof.
  intros Hrun.
  apply processMessages_after in Hrun
    as (Hn & _ & Hm & Hb & _ & _ & Hreleased & _ & _ & Hsize & _).
  rewrite hasUnprocessedMessages_left by (rewrite ?Hb; first [done | lia]).
  rewrite Hn, Hm, Hb.
  intros Hleft. apply bool_decide_eq_false in Hleft. apply Hreleased.
  by apply dec_stable.
Qed.

(** X14. The lock on the MACI state after a batch: the call that processes the
    last batch releases it; while messages are left, the first call of a poll
    leaves it taken, and whenever it is taken it names the poll that was
    passed. *)
Theorem processMessages_releases_the_lock_with_the_last_batch retries id w w' out :
  processMessages retries id w = (w', Ok out) ->
  (hasUnprocessedMessages (poll w') = false ->
   MaciState.pollBeingProcessed (maci w') = false)
  ∧ (hasUnprocessedMessages (poll w') = true ->
     (numBatchesProcessed (poll w) = 0 -> MaciState.pollBeingProcessed (maci w') = true)
     ∧ (MaciState.pollBeingProcessed (maci w') = true ->
        MaciState.currentPollBeingProcessed (maci w') = Some id)).
Proof.
  intros Hrun.
  apply processMessages_after in Hrun
    as (Hn & _ & Hm & Hb & _ & _ & Hreleased & Hfirst & _ & Hsize & Hby).
  rewrite hasUnprocessedMessages_left by (rewrite ?Hb; first [done | lia]).
  rewrite Hn, Hm, Hb. split.
  - intros Hleft. apply bool_decide_eq_false in Hleft. apply Hreleased.
    by apply dec_stable.
  - intros Hleft. apply bool_decide_eq_true in Hleft. split.
    + intros Hz. by apply Hfirst.
    + by apply Hby.
Qed.

(** *** All batches in one go *)

Lemma totalBatches_ext (p q : Poll) :
  messages q = messages p -> batchSizes q = batchSizes p ->
  totalBatches q = totalBatches p.
Proof. intros Hm Hb. unfold totalBatches. by rewrite Hm, Hb. Qed.

Lemma processRemaining_Ok retries rounds w w' u :
  processRemaining retries rounds w = (w', Ok u) ->
  hasUnprocessedMessages (poll w') = false
  ∧ messages (poll w') = messages (poll w)
  ∧ batchSizes (poll w') = batchSizes (poll w)
  ∧ (hasUnprocessedMessages (poll w) = false -> w' = w)
  ∧ (hasUnprocessedMessages (poll w) = true ->
     totalBatches (poll w') = Some (numBatchesProcessed (poll w'))
     ∧ stateCopied (poll w') = true
     ∧ MaciState.pollBeingProcessed (maci w') = false).
Proof.
  revert w. induction rounds as [|rounds IH]; intros w Hrun; cbn [processRemaining] in Hrun.
  - run_step Hrun. destruct (hasUnprocessedMessages (poll w)) eqn:Hleft; [done|].
    run_step Hrun. done.
  - run_step Hrun. destruct (hasUnprocessedMessages (poll w)) eqn:Hleft.
    + apply M_bind_Ok in Hrun as (w1 & out & Hstep & Hrest).
      apply IH in Hrest as (Hdone & Hm & Hb & Hsame & Hmore).
      pose proof (processMessages_last_batch _ _ _ _ _ Hstep) as Hreleased.
      apply processMessages_after in Hstep
        as (Hn1 & Hc1 & Hm1 & Hb1 & _).
      split; [done|]. split; [congruence|]. split; [congruence|]. split; [done|].
      intros _. destruct (hasUnprocessedMessages (poll w1)) eqn:Hleft1.
      * by apply Hmore.
      * rewrite (Hsame eq_refl). split; [|split; [done|by apply Hreleased]].
        revert Hleft Hleft1. unfold hasUnprocessedMessages.
        rewrite (totalBatches_ext (poll w) (poll w1)) by done.
        destruct (totalBatches (poll w)) as [n|]; [|done].
        intros Hlt%bool_decide_eq_true Hge%bool_decide_eq_false. f_equal. lia.
    + run_step Hrun. done.
Qed.

(** X15. [processAllMessages] hands back the state leaves and the ballots the poll
    had before the call, not the processed ones. When it returns, no message
    is left and the queue is the same; if there was anything to process, the
    number of batches processed is the number of batches, the state was
    copied and the lock on the MACI state is free; otherwise nothing was
    written. *)
Theorem processAllMessages_returns_the_leaves_and_ballots_it_started_from
    retries rounds w w' out :
  processAllMessages retries rounds w = (w', Ok out) ->
  out = (stateLeaves (poll w), ballots (poll w))
  ∧ hasUnprocessedMessages (poll w') = false
  ∧ messages (poll w') = messages (poll w)
  ∧ (hasUnprocessedMessages (poll w) = false -> w' = w)
  ∧ (hasUnprocessedMessages (poll w) = true ->
     totalBatches (poll w') = Some (numBatchesProcessed (poll w'))
     ∧ stateCopied (poll w') = true
     ∧ MaciState.pollBeingProcessed (maci w') = false).
Proof.
  intros Hrun. unfold processAllMessages in Hrun. do 3 run_step Hrun.
  match goal with
  | Hl : processRemaining _ _ _ = _ |- _ =>
      apply processRemaining_Ok in Hl as (Hdone & Hm & _ & Hsame & Hmore)
  end.
  done.
Qed.

Lemma processRemaining_rounds retries rounds more n w :
  totalBatches (poll w) = Some n ->
  n ≤ numBatchesProcessed (poll w) + rounds ->
  processRemaining retries (rounds + more) w = processRemaining retries rounds w.
Proof.
  revert w. induction rounds as [|rounds IH]; intros w Htotal Hrounds.
  - assert (hasUnprocessedMessages (poll w) = false) as Hleft.
    { unfold hasUnprocessedMessages. rewrite Htotal. apply bool_decide_eq_false. lia. }
    destruct more; cbn; unfold mbind, M_bind, gets; cbn; by rewrite Hleft.
  - cbn [Nat.add processRemaining]. unfold mbind at 1 3, M_bind, gets. cbn.
    destruct (hasUnprocessedMessages (poll w)); [|done].
    unfold mbind, M_bind.
    destruct (processMessages retries (pollId (poll w)) w) as [w1 [out|e]] eqn:Hstep; [|done].
    apply processMessages_after in Hstep as (Hn1 & _ & Hm1 & Hb1 & _).
    apply IH; [|lia].
    by rewrite (totalBatches_ext (poll w) (poll w1)).
Qed.

(** X16. The loop of [processAllMessages] calls [processMessages] at most once
    for each batch that is left, whether the calls return or throw: a bound
    on the turns of the loop that is at least the number of batches left is
    never met, and a larger one gives the same run. *)
Theorem processAllMessages_takes_one_round_for_each_batch_left retries rounds more n w :
  totalBatches (poll w) = Some n ->
  n ≤ numBatchesProcessed (poll w) + rounds ->
  processAllMessages retries (rounds + more) w = processAllMessages retries rounds w.
Proof.
  intros Htotal Hrounds. unfold processAllMessages, mbind, M_bind, gets. cbn.
  by rewrite (processRemaining_rounds _ _ _ n).
Qed.

(** *** The copy of the state *)

Lemma QuinTree_insert_Ok (value : Z) (tr tr' : QuinTree.t) :
  QuinTree.insert value tr = Ok tr' ->
  QuinTree.nextIndex tr < QuinTree.capacity tr
  ∧ tr' = QuinTree.mk (QuinTree.depth tr) (QuinTree.zeroValue tr) (QuinTree.arity tr)
            (<[QuinTree.nextIndex tr := value]> (QuinTree.leaves tr))
            (QuinTree.nextIndex tr + 1).
Proof.
  unfold QuinTree.insert, QuinTree.update. case_decide; [|done].
  cbn. by intros [= <-].
Qed.

(** The loop of [copyStateFromMaci]: each turn appends a ballot and a leaf. *)
Lemma copyStateFromMaci_loop (count : nat) (h : Z) (bt : QuinTree.t) (v v' : World) u :
  ballotTree (poll v) = Some bt ->
  repeatM count
    (ballotTree_insert h;;
     this (fun p => p <| ballots := ballots p ++ [emptyBallot p] |>)) v
    = (v', Ok u) ->
  ∃ bt',
    v' = v <| poll := (poll v) <| ballotTree := Some bt' |>
                               <| ballots := ballots (poll v)
                                             ++ replicate count (emptyBallot (poll v)) |> |>
    ∧ QuinTree.nextIndex bt' = QuinTree.nextIndex bt + count
    ∧ (0 < count -> QuinTree.nextIndex bt + count ≤ QuinTree.capacity bt)
    ∧ QuinTree.depth bt' = QuinTree.depth bt
    ∧ QuinTree.zeroValue bt' = QuinTree.zeroValue bt
    ∧ QuinTree.arity bt' = QuinTree.arity bt
    ∧ (∀ i, QuinTree.leaves bt' !! i
            = if decide (QuinTree.nextIndex bt ≤ i < QuinTree.nextIndex bt + count)
              then Some h else QuinTree.leaves bt !! i).
Proof.
  revert v bt. induction count as [|count IH]; intros v bt Hbt Hrun; cbn [repeatM] in Hrun.
  - run_step Hrun. exists bt. rewrite app_nil_r, Nat.add_0_r.
    split; [destruct v as [m p d]; destruct p; cbn in *; by subst|].
    split; [done|]. split; [lia|].
    repeat split. intros i. case_decide; [lia|done].
  - apply M_bind_Ok in Hrun as (v2 & [] & Hbody & Hrest).
    apply M_bind_Ok in Hbody as (v1 & [] & Hins & Hpush).
    unfold ballotTree_insert in Hins. do 3 run_step Hins.
    rewrite Hbt in *.
    match goal with Hd : defined _ = Ok _ |- _ => apply defined_Ok in Hd as [= <-] end.
    match goal with
    | Hi : QuinTree.insert _ _ = Ok ?t |- _ =>
        apply QuinTree_insert_Ok in Hi as [Hroom Htree]; rename t into bt1
    end.
    run_step Hins. run_step Hpush.
    apply (IH _ bt1) in Hrest as (bt' & -> & Hnext & Hcap & Hdepth & Hzero & Harity & Hleaves);
      [|done].
    exists bt'. rewrite Htree in Hnext, Hcap, Hdepth, Hzero, Harity, Hleaves.
    cbn in Hnext, Hcap, Hdepth, Hzero, Harity, Hleaves.
    unfold QuinTree.capacity in *. cbn in Hcap.
    split.
    { destruct v as [m p d]; destruct p; cbn in *.
      by rewrite <- app_assoc. }
    split; [lia|]. split; [intros _; destruct count; lia|].
    repeat split; [done..|].
    intros i. rewrite Hleaves.
    destruct (decide (i = QuinTree.nextIndex bt)) as [->|Hi].
    + rewrite lookup_insert_eq. repeat case_decide; done || lia.
    + rewrite lookup_insert_ne by done. repeat case_decide; done || lia.
Qed.

(** X17. [copyStateFromMaci] takes the state leaves and the state tree of the
    MACI state, after checking that the tree has one leaf for each of them,
    and starts a new ballot tree: one leaf for the empty ballot, then one
    leaf and one empty ballot for each state leaf the poll has no ballot for.
    The ballots the poll had stay. On a poll that has the one ballot the
    constructor gives it, the ballot tree ends with one leaf for each
    ballot. *)
Theorem copyStateFromMaci_starts_a_ballot_tree_of_empty_ballots (w w' : World) :
  copyStateFromMaci w = (w', Ok tt) ->
  let m := maci w in
  let p := poll w in
  let h := hashBallot (emptyBallot p) in
  let missing := length (MaciState.stateLeaves m) - length (ballots p) in
  length (MaciState.stateLeaves m) = QuinTree.nextIndex (MaciState.stateTree m)
  ∧ maci w' = m
  ∧ drawn w' = drawn w
  ∧ ∃ bt,
      poll w' = p <| stateLeaves := MaciState.stateLeaves m |>
                  <| stateTree := Some (MaciState.stateTree m) |>
                  <| emptyBallotHash := Some h |>
                  <| ballotTree := Some bt |>
                  <| ballots := ballots p ++ replicate missing (emptyBallot p) |>
                  <| stateCopied := true |>
      ∧ QuinTree.depth bt = stateTreeDepth p
      ∧ QuinTree.zeroValue bt = h
      ∧ QuinTree.arity bt = STATE_TREE_ARITY
      ∧ QuinTree.nextIndex bt = 1 + missing
      ∧ 1 + missing ≤ QuinTree.capacity bt
      ∧ (∀ i, QuinTree.leaves bt !! i = if decide (i < 1 + missing) then Some h else None)
      ∧ (length (ballots p) = 1 -> length (ballots (poll w')) = QuinTree.nextIndex bt).
Proof.
  intros Hrun m p h missing. subst m p h missing.
  destruct w as [m p d]. unfold copyStateFromMaci in Hrun. do 9 run_step Hrun.
  cbn in *.
  match goal with
  | Hins : ballotTree_insert _ _ = _ |- _ =>
      unfold ballotTree_insert in Hins; do 3 run_step Hins; cbn in *
  end.
  match goal with Hd : Ok (QuinTree.new _ _ _) = Ok _ |- _ => injection Hd as <- end.
  match goal with
  | Hi : QuinTree.insert _ _ = Ok ?t |- _ =>
      apply QuinTree_insert_Ok in Hi as [Hroom Htree]; rename t into bt1
  end.
  match goal with
  | Hloop : repeatM _ _ ?v = _, Hins : this _ _ = (?v, _) |- _ => run_step Hins
  end.
  lazymatch goal with
  | Hloop : repeatM _ _ ?v = _ |- _ =>
      assert (ballotTree (poll v) = Some bt1) as Hbt by reflexivity;
      destruct (copyStateFromMaci_loop _ _ bt1 _ _ _ Hbt Hloop)
        as (bt & -> & Hnext & Hcap & Hdepth & Hzero & Harity & Hleaves)
  end.
  run_step Hrun.
  apply assert_Ok, bool_decide_eq_true in Hval.
  rewrite Htree in Hnext, Hcap, Hdepth, Hzero, Harity, Hleaves.
  unfold QuinTree.capacity in *.
  cbn in Hroom, Hnext, Hcap, Hdepth, Hzero, Harity, Hleaves.
  split; [done|]. split; [done|]. split; [done|].
  exists bt. split; [by destruct p|].
  rewrite Hdepth, Hzero, Harity.
  do 4 (split; [done|]).
  split; [destruct (length (MaciState.stateLeaves m) - length (ballots p)); lia|].
  split.
  - intros i. rewrite Hleaves.
    destruct (decide (i = 0)) as [->|Hi].
    + rewrite lookup_insert_eq. repeat case_decide; done || lia.
    + rewrite lookup_insert_ne by done. rewrite lookup_empty.
      repeat case_decide; done || lia.
  - intros Hone. cbn. rewrite length_app, length_replicate. lia.
Qed.

End Properties.

(** ** The properties on the concrete polls *)

#[local] Existing Instance Sample.externals.
#[local] Existing Instance Sample.codec.

(** C5, as it was stated, on a poll whose message tree has room for five
    messages: five calls of [publishMessage] with a valid vote return, and
    the sixth, with the same vote, raises in the insert into the full tree,
    after the key and the message were added. The poll then has six keys and
    six messages, five commands and five leaves. *)
Lemma C5_full_tree_leaves_messages_ahead_of_the_tree :
  let w' := ingestEach Fixture.sixCalls Fixture.freshShallow in
  snd (ingestAll (take 5 Fixture.sixCalls) Fixture.freshShallow) = Ok tt
  ∧ ingestAll Fixture.sixCalls Fixture.freshShallow = (w', Throw JsError)
  ∧ length (encPubKeys (poll w')) = 6
  ∧ length (messages (poll w')) = 6
  ∧ length (commands (poll w')) = 5
  ∧ QuinTree.nextIndex (messageTree (poll w')) = 5.
Proof.
  cbv zeta. do 5 (split; [vm_compute; reflexivity|]). vm_compute. reflexivity.
Qed.

(** C7, as it was stated, on the queue of three messages: the poll read back
    from the JSON form has the messages of the one written, and a coordinator
    key pair of its own, so that [equals] is [false]. *)
Lemma C7_read_back_poll_is_not_equal :
  let p := poll Fixture.queued in
  ∃ json w q,
    toJSON p = Ok json
    ∧ fromJSON json Fixture.maciState 0 = (w, Ok q)
    ∧ coordinatorKeypair p = Keypair.mk 1 (1, 2)%Z
    ∧ coordinatorKeypair q = Keypair.mk 1000 (1000, 1001)%Z
    ∧ messages q = messages p
    ∧ equals q p = false.
Proof.
  cbv zeta.
  let r := eval vm_compute in (toJSON (poll Fixture.queued)) in
  lazymatch r with Ok ?json => exists json end.
  let r := eval vm_compute in (Fixture.readBack) in
  lazymatch r with (?w, Ok ?q) => exists w, q end.
  repeat split; vm_compute; reflexivity.
Qed.

(** C8. A MACI instance is processing the poll [0]: the lock is set and names
    that poll. The first call of [processMessages] of the poll [1] of the same
    instance returns: it has written its own id over that of the lock before
    the lock is looked at. It processes its batch, which is its last, and
    leaves the lock released. *)
Lemma C8_first_call_of_another_poll_takes_the_lock :
  let w := Fixture.secondPoll in
  MaciState.pollBeingProcessed (maci w) = true
  ∧ MaciState.currentPollBeingProcessed (maci w) = Some 0
  ∧ pollId (poll w) = 1
  ∧ numBatchesProcessed (poll w) = 0
  ∧ ∃ w' out,
      processMessages 1 (pollId (poll w)) w = (w', Ok out)
      ∧ MaciState.currentPollBeingProcessed (maci w') = Some 1
      ∧ MaciState.pollBeingProcessed (maci w') = false
      ∧ numBatchesProcessed (poll w') = 1
      ∧ stateLeaves (poll w') !! 1 = Some (StateLeaf.mk Fixture.voterKey 75 0).
Proof.
  cbv zeta. do 4 (split; [vm_compute; reflexivity|]).
  let r := eval vm_compute in (processMessages 1 1 Fixture.secondPoll) in
  lazymatch r with (?w', Ok ?out) => exists w', out end.
  repeat split; vm_compute; reflexivity.
Qed.

(** ** The theorems at the concrete polls *)

(** C1 at the vote of 5 on option 3, which is accepted. *)
Lemma C1_witness :
  let p := poll Fixture.copied in
  let message := Fixture.goodVote in
  let encPubKey := Fixture.encKey in
  let r := Fixture.accepted in
  processMessage p message encPubKey = Ok r
  ∧ ∃ signature st stateLeaf ballot w_old,
      let c := command r in
      let w_new := PCommand.newVoteWeight c in
      let option := Z.to_nat (PCommand.voteOptionIndex c) in
      decrypt message (genEcdhSharedKey (Keypair.privKey (coordinatorKeypair p)) encPubKey)
        = Some (c, signature)
      ∧ stateTree p = Some st
      ∧ (1 ≤ PCommand.stateIndex c
           < Z.of_nat (length (ballots p) `min` QuinTree.nextIndex st))%Z
      ∧ verifySignature c signature (StateLeaf.pubKey stateLeaf) = true
      ∧ PCommand.nonce c = (Ballot.nonce ballot + 1)%Z
      ∧ (0 ≤ PCommand.voteOptionIndex c < Z.of_nat (maxVoteOptions (maxValues p)))%Z
      ∧ (0 ≤ StateLeaf.voiceCreditBalance stateLeaf + w_old * w_old - w_new * w_new)%Z
      ∧ Z.of_nat (stateLeafIndex r) = PCommand.stateIndex c
      ∧ stateLeaves p !! stateLeafIndex r = Some stateLeaf
      ∧ ballots p !! stateLeafIndex r = Some ballot
      ∧ Ballot.votes ballot !! option = Some w_old
      ∧ newStateLeaf r
        = StateLeaf.mk (PCommand.newPubKey c)
            (StateLeaf.voiceCreditBalance stateLeaf + w_old * w_old - w_new * w_new)
            (StateLeaf.timestamp stateLeaf)
      ∧ newBallot r
        = Ballot.mk (Ballot.nonce ballot + 1)
            (<[option := w_new]> (Ballot.votes ballot))
            (Ballot.voteOptionTreeDepth ballot)
      ∧ (StateLeaf.voiceCreditBalance (newStateLeaf r) + w_new * w_new
         = StateLeaf.voiceCreditBalance stateLeaf + w_old * w_old)%Z.
Proof.
  intros p message encPubKey r.
  assert (processMessage p message encPubKey = Ok r) as Hrun by (vm_compute; reflexivity).
  split; [exact Hrun|].
  exact (C1_accepted_vote_updates_leaf_and_ballot p message encPubKey r Hrun).
Defined.

(** C2 at the vote of 11, which passes the first four rules and fails the
    fifth: 121 voice credits, of 100. *)
Lemma C2_witness :
  processMessage (poll Fixture.copied) Fixture.overspend Fixture.encKey
  = Throw (ProcessMessageError InsufficientVoiceCredits).
Proof.
  destruct (C2_first_failing_rule_decides_the_error
              (poll Fixture.copied) Fixture.overspend Fixture.encKey) as (_ & _ & Hrules).
  destruct (Hrules (PCommand.mk 1 Fixture.voterKey 0 11 1 0 0)
              {| R8 := Fixture.voterKey; sigS := 0 |}
              (MaciState.stateTree Fixture.maciState)) as [_ Hindex];
    [vm_compute; reflexivity..|].
  destruct (Hindex ltac:(vm_compute; split; [discriminate | reflexivity])
              Fixture.voter (Ballot.new 25 2)) as [_ Hsignature];
    [vm_compute; reflexivity..|].
  destruct (Hsignature ltac:(vm_compute; reflexivity)) as [_ Hnonce].
  destruct (Hnonce ltac:(vm_compute; reflexivity)) as [_ Hoption].
  destruct (Hoption ltac:(vm_compute; split; [discriminate | reflexivity]) 0%Z)
    as [Hcredits _]; [vm_compute; reflexivity|].
  apply Hcredits. vm_compute. reflexivity.
Defined.

(** C3 at the queue of three messages and batches of five: the one batch
    starts at [0]. *)
Lemma C3_witness :
  let w := Fixture.queued in
  ∃ w' out,
    processMessages 1 0 w = (w', Ok out)
    ∧ let size := messageBatchSize (batchSizes (poll w)) in
      let n := length (messages (poll w)) in
      ∃ (start : nat) (w1 w2 : World),
        0 < size ∧ start mod size = 0
        ∧ (numBatchesProcessed (poll w) = 0 ->
           start = if decide (n = 0) then 0
                   else n - (if decide (n mod size = 0) then size else n mod size))
        ∧ (numBatchesProcessed (poll w) ≠ 0 ->
           currentMessageBatchIndex (poll w) = Some (Num (Z.of_nat start)))
        ∧ currentMessageBatchIndex (poll w1) = Some (Num (Z.of_nat start))
        ∧ messages (poll w1) = messages (poll w)
        ∧ processBatch size 0 noWitness w1 = (w2, Ok (pmi_witness out))
        ∧ processBatch size 0 noWitness w1 = processSlots (batchSlots start size) noWitness w1
        ∧ batchSlots start size = (fun i => start + size - 1 - i) <$> seq 0 size
        ∧ length (batchSlots start size) = size
        ∧ numBatchesProcessed (poll w') = numBatchesProcessed (poll w) + 1
        ∧ currentMessageBatchIndex (poll w')
          = Some (Num (Z.of_nat (if decide (0 < start) then start - size else start)))
        ∧ (if decide (0 < start) then start - size else start) mod size = 0.
Proof.
  intros w.
  destruct (processMessages 1 0 w) as [w' [out|e]] eqn:Hrun.
  - exists w', out. split; [reflexivity|].
    exact (C3_batch_slots_in_reverse_order 1 0 w w' out Hrun).
  - exfalso. vm_compute in Hrun. discriminate Hrun.
Defined.

(** A tree that is there and has room for a leaf. *)
Lemma tree_with_room (tree : option QuinTree.t) :
  (if tree is Some t then bool_decide (QuinTree.arity t ≠ 0) else false) = true ->
  ∃ t, tree = Some t ∧ 0 < QuinTree.capacity t.
Proof.
  destruct tree as [t|]; [|done]. intros Harity%bool_decide_eq_true.
  exists t. split; [done|]. unfold QuinTree.capacity.
  by apply Nat.neq_0_lt_0, Nat.pow_nonzero.
Qed.

(** C4 at the vote of 11, the last of the queue: the slot returns the blank
    state leaf and the empty ballot, and the loop goes on. *)
Lemma C4_witness :
  let w := Fixture.ready in
  ∃ st bt,
    messages (poll w) !! 2 = Some Fixture.overspend
    ∧ encPubKeys (poll w) !! 2 = Some Fixture.encKey
    ∧ Message.msgType Fixture.overspend = 1%Z
    ∧ processMessage (poll w) Fixture.overspend Fixture.encKey
      = Throw (ProcessMessageError InsufficientVoiceCredits)
    ∧ stateTree (poll w) = Some st
    ∧ ballotTree (poll w) = Some bt
    ∧ let blank :=
        {| currentStateLeaves := [blankStateLeaf];
           currentStateLeavesPathElements := [quinPath st 0];
           currentBallots := [Ballot.new 25 2];
           currentBallotsPathElements := [quinPath bt 0];
           currentVoteWeights := [Some 0%Z];
           currentVoteWeightsPathElements :=
             [quinPath
                {| QuinTree.depth := voteOptionTreeDepth (treeDepths (poll w));
                   QuinTree.zeroValue := 0;
                   QuinTree.arity := STATE_TREE_ARITY;
                   QuinTree.leaves := {[0 := 0%Z]};
                   QuinTree.nextIndex := 1 |} 0] |} in
      processSlot 2 noWitness w = (w, Ok blank)
      ∧ ∀ slots, processSlots (2 :: slots) noWitness w = processSlots slots blank w.
Proof.
  intros w.
  assert (messages (poll w) !! 2 = Some Fixture.overspend) as Hm by (vm_compute; reflexivity).
  assert (encPubKeys (poll w) !! 2 = Some Fixture.encKey) as Hk by (vm_compute; reflexivity).
  assert (Message.msgType Fixture.overspend = 1%Z) as Ht by reflexivity.
  assert (processMessage (poll w) Fixture.overspend Fixture.encKey
          = Throw (ProcessMessageError InsufficientVoiceCredits)) as Hr
    by (vm_compute; reflexivity).
  assert (stateLeaves (poll w) !! 0 = Some blankStateLeaf) as Hleaf
    by (vm_compute; reflexivity).
  assert (ballots (poll w) !! 0 = Some (Ballot.new 25 2)) as Hballot
    by (vm_compute; reflexivity).
  assert (Ballot.votes (Ballot.new 25 2) !! 0 = Some 0%Z) as Hweight by reflexivity.
  destruct (tree_with_room (stateTree (poll w))) as (st & Hst & Hsroom);
    [vm_compute; reflexivity|].
  destruct (tree_with_room (ballotTree (poll w))) as (bt & Hbt & Hbroom);
    [vm_compute; reflexivity|].
  clearbody w.
  exists st, bt. do 6 (split; [assumption|]). intros blank.
  destruct (C4_rejected_vote_leaves_the_state_unchanged
              w 2 noWitness Fixture.overspend Fixture.encKey InsufficientVoiceCredits
              Hm Hk Ht Hr) as (_ & Hslot & Hnext & _).
  assert (processSlot 2 noWitness w = (w, Ok blank)) as Hrun.
  { apply Hslot. exists blankStateLeaf, (Ballot.new 25 2), 0%Z, st, bt.
    repeat (split; [assumption|]). reflexivity. }
  split; [exact Hrun|]. intros slots. exact (Hnext blank slots Hrun).
Defined.

(** C5 at the three calls of [publishMessage] that make the queue. *)
Lemma C5_witness :
  let p := poll (ingestEach Fixture.calls Fixture.fresh) in
  length Fixture.calls ≤ MESSAGE_TREE_ARITY ^ messageTreeDepth Fixture.depths
  ∧ aligned p
  ∧ length (messages p) = 3
  ∧ QuinTree.nextIndex (messageTree p) = 3.
Proof.
  intros p.
  assert (length Fixture.calls ≤ MESSAGE_TREE_ARITY ^ messageTreeDepth Fixture.depths)
    as Hfit by (vm_compute; lia).
  assert (length (messages p) = 3) as Hthree by (vm_compute; reflexivity).
  destruct (C5_ingest_keeps_arrays_and_tree_aligned_while_the_tree_has_room
              1000 Fixture.coordinator Fixture.depths Fixture.sizes Fixture.limits
              Fixture.maciState 0 Fixture.calls)
    as (_ & _ & _ & _ & _ & Haligned & _).
  split; [exact Hfit|]. split; [exact (Haligned Hfit)|]. split; [exact Hthree|].
  destruct (Haligned Hfit) as (_ & _ & Hnext).
  exact (eq_trans Hnext Hthree).
Defined.

(** C6 at the three ballots of the processed poll: the votes 5 and 2 on
    option 3 make a result of 7 and 29 voice credits. *)
Lemma C6_witness :
  let w := Fixture.processed in
  ∃ w' out,
    tallyVotes w = (w', Ok out)
    ∧ tallyResult (poll w') !! 3 = Some 7%Z
    ∧ perVOSpentVoiceCredits (poll w') !! 3 = Some 29%Z
    ∧ totalSpentVoiceCredits (poll w') = 29%Z
    ∧ numBatchesTallied (poll w') = 1.
Proof.
  intros w.
  destruct (tallyVotes w) as [w' [out|e]] eqn:Hrun.
  - exists w', out. split; [reflexivity|].
    destruct (proj1 C6_tally_accumulates_votes_and_squares w w' out Hrun)
      as (-> & -> & -> & -> & _).
    repeat split; vm_compute; reflexivity.
  - exfalso. vm_compute in Hrun. discriminate Hrun.
Defined.

(** C7 at the queue of three messages. *)
Lemma C7_witness :
  let p := poll Fixture.queued in
  ∃ json w q,
    toJSON p = Ok json
    ∧ fromJSON json Fixture.maciState 0 = (w, Ok q)
    ∧ Forall (fun m => Message_fromJSON (Message_toJSON m) = Some m) (messages p)
    ∧ Forall (fun k => PubKey_deserialize (PubKey_serialize k) = Some k) (encPubKeys p)
    ∧ treeDepths q = treeDepths p
    ∧ batchSizes q = batchSizes p
    ∧ maxValues q = maxValues p
    ∧ messages q = messages p
    ∧ encPubKeys q = encPubKeys p
    ∧ equals q p
      = Keypair.equals (Keypair.mk 1000 (1000, 1001)%Z) (coordinatorKeypair p)
    ∧ messageTree p = messageTreeOf (treeDepths p) (queueLeaves p)
    ∧ messageTree q = messageTree p
    ∧ root (messageTree q) = root (messageTree p)
    ∧ ∃ w', setCoordinatorKeypair (PrivKey_serialize 1%Z) w = (w', Ok tt)
            ∧ equals (poll w') p = true.
Proof.
  intros p.
  let r := eval vm_compute in (toJSON (poll Fixture.queued)) in
  lazymatch r with Ok ?json => exists json end.
  let r := eval vm_compute in (Fixture.readBack) in
  lazymatch r with (?w, Ok ?q) => exists w, q end.
  match goal with
  | |- ?written ∧ ?read ∧ ?messagesRead ∧ ?keysRead ∧ _ =>
      assert written as Hto by reflexivity;
      assert read as Hfrom by reflexivity;
      assert messagesRead as Hmessages by (vm_compute; repeat constructor);
      assert keysRead as Hkeys
        by (let l := eval vm_compute in (encPubKeys (poll Fixture.queued)) in
            change (encPubKeys p) with l; repeat constructor)
  end.
  assert (ingestAll Fixture.calls Fixture.fresh = (Fixture.queued, Ok tt)) as Hqueue
    by (vm_compute; reflexivity).
  assert (messageTree p = messageTreeOf (treeDepths p) (queueLeaves p)) as Hqueued
    by exact (ingestAll_queue_tree Fixture.calls Fixture.fresh Fixture.queued Hqueue
                eq_refl eq_refl).
  do 4 (split; [assumption|]).
  destruct (C7_round_trip_keeps_all_but_the_coordinator_keypair _ _ _ _ _ _
              Hto Hfrom Hmessages Hkeys)
    as (_ & _ & Hd & Hb & Hv & Hm & Hk & Heq & Hset & _ & Htree & _).
  do 6 (split; [assumption|]).
  split; [exact Hqueued|].
  split; [exact (proj1 (Htree Hqueued))|]. split; [exact (proj2 (Htree Hqueued))|].
  apply (Hset 1%Z); vm_compute; reflexivity.
Defined.

(** C9 at the three ballots of the processed poll: the one pair of ballots
    that both vote on option 3, with 5 and with 2, has the coefficient
    [500000 / (50 + 10) = 8333] and adds [2 * 8333 * 5 * 2]. *)
Lemma C9_witness :
  let w := Fixture.processed in
  ∃ w' out,
    subsidyPerBatch w = (w', Ok out)
    ∧ Forall nonNegative (ballots (poll w))
    ∧ subsidy (poll w) !! 3 = Some 0%Z
    ∧ subsidy (poll w') !! 3 = Some 166660%Z.
Proof.
  intros w.
  assert (Forall nonNegative (ballots (poll w))) as Hall.
  { unfold nonNegative. apply (bool_decide_unpack _). vm_compute. exact I. }
  assert (subsidy (poll w) !! 3 = Some 0%Z) as Hs by (vm_compute; reflexivity).
  destruct (subsidyPerBatch w) as [w' [out|e]] eqn:Hrun.
  - exists w', out. do 3 (split; [first [reflexivity | assumption]|]).
    rewrite (proj1 (C9_subsidy_batch_adds_pair_contributions w w' out Hrun Hall) 3 0%Z
               ltac:(vm_compute; lia) Hs).
    vm_compute. reflexivity.
  - exfalso. vm_compute in Hrun. discriminate Hrun.
Defined.

(** C10 at the queue of three messages and batches of five, and at a poll
    without messages. *)
Lemma C10_witness :
  totalBatches (poll Fixture.queued) = Some 1
  ∧ hasUnprocessedMessages (poll Fixture.queued) = true
  ∧ hasUnprocessedMessages (poll Fixture.processed) = false
  ∧ hasUnprocessedMessages (poll Fixture.fresh) = true.
Proof.
  destruct (proj1 (C10_hasUnprocessedMessages_counts_batches (poll Fixture.queued))
              ltac:(vm_compute; lia)) as [Htotal Hqueued].
  destruct (proj1 (C10_hasUnprocessedMessages_counts_batches (poll Fixture.processed))
              ltac:(vm_compute; lia)) as [_ Hprocessed].
  pose proof (proj2 (proj2 (proj2 (C10_hasUnprocessedMessages_counts_batches
                                     (poll Fixture.fresh))))
                eq_refl eq_refl) as Hfresh.
  split; [exact Htotal|]. split; [rewrite Hqueued; vm_compute; reflexivity|].
  split; [rewrite Hprocessed; vm_compute; reflexivity | exact Hfresh].
Defined.
(** ** The further theorems at the concrete polls *)

(** A run that returns, at a world that is given. *)
Lemma returned {A} (m : M World A) (w : World) :
  (if snd (m w) is Ok _ then true else false) = true ->
  ∃ a, m w = (fst (m w), Ok a).
Proof. destruct (m w) as [w' [a|e]]; [by exists a | done]. Qed.

Tactic Notation "run" constr(m) "at" constr(w) "as" ident(a) ident(Hrun) :=
  let Hok := fresh "Hok" in
  assert ((if snd (m w) is Ok _ then true else false) = true) as Hok
    by (vm_compute; reflexivity);
  destruct (returned m w Hok) as [a Hrun]; clear Hok.

(** The accepted vote, published to the poll as the constructor leaves it. *)
Lemma publishMessage_queues_witness :
  let w := Fixture.fresh in
  let message := Fixture.goodVote in
  let encPubKey := Fixture.encKey in
  let w' := fst (publishMessage message encPubKey w) in
  publishMessage message encPubKey w = (w', Ok tt)
  ∧ ∃ tree,
      QuinTree.insert (hashMessage message encPubKey) (messageTree (poll w)) = Ok tree
      ∧ QuinTree.leaves tree !! 0 = Some (hashMessage message encPubKey)
      ∧ QuinTree.nextIndex tree = 1
      ∧ messages (poll w') = [message]
      ∧ encPubKeys (poll w') = [encPubKey]
      ∧ messageTree (poll w') = tree
      ∧ commands (poll w') = [PCmd (PCommand.mk 1 Fixture.voterKey 3 5 1 0 0)]
      ∧ maci w' = maci w.
Proof.
  intros w message encPubKey w'.
  assert (publishMessage message encPubKey w = (w', Ok tt)) as Hrun
    by (vm_compute; reflexivity).
  split; [exact Hrun|].
  destruct (publishMessage_queues_key_message_leaf_and_command message encPubKey w w' Hrun)
    as (tree & Hinsert & Hleaf & Hnext & Hpoll & Hmaci & _).
  exists tree. rewrite Hpoll.
  split; [exact Hinsert|]. split; [exact Hleaf|]. split; [exact Hnext|].
  split; [reflexivity|]. split; [reflexivity|]. split; [reflexivity|].
  split; [vm_compute; reflexivity | exact Hmaci].
Defined.

(** A top-up of 50 for the state leaf 1, sent to the poll as the constructor
    leaves it. *)
Lemma topupMessage_queues_witness :
  let w := Fixture.fresh in
  let message := Sample.topup 1 50 in
  let w' := fst (topupMessage message w) in
  topupMessage message w = (w', Ok tt)
  ∧ ∃ tree,
      QuinTree.insert (hashMessage message padKey) (messageTree (poll w)) = Ok tree
      ∧ messages (poll w') = [message]
      ∧ encPubKeys (poll w') = [padKey]
      ∧ messageTree (poll w') = tree
      ∧ commands (poll w') = [TCmd (TCommand.mk 1 50 0)].
Proof.
  intros w message w'.
  assert (topupMessage message w = (w', Ok tt)) as Hrun by (vm_compute; reflexivity).
  split; [exact Hrun|].
  destruct (topupMessage_queues_message_pad_key_leaf_and_command message w w' Hrun)
    as (tree & Hinsert & _ & _ & Hworld).
  exists tree. rewrite Hworld.
  split; [exact Hinsert|]. repeat split.
Defined.

(** The slot of that top-up: the first voter has 150 voice credits after
    it. *)
Lemma topup_slot_witness :
  let w := Fixture.toppedUp in
  let message := Sample.topup 1 50 in
  let w' := fst (processSlot 0 noWitness w) in
  messages (poll w) !! 0 = Some message
  ∧ Message.msgType message = 2%Z
  ∧ ∃ acc',
      processSlot 0 noWitness w = (w', Ok acc')
      ∧ stateLeaves (poll w') !! 1 = Some (StateLeaf.mk Fixture.voterKey 150 0)
      ∧ ballots (poll w') = ballots (poll w)
      ∧ ballotTree (poll w') = ballotTree (poll w).
Proof.
  intros w message w'.
  assert (messages (poll w) !! 0 = Some message) as Hmessage by (vm_compute; reflexivity).
  assert (Message.msgType message = 2%Z) as Htype by reflexivity.
  destruct (returned (processSlot 0 noWitness) w ltac:(vm_compute; reflexivity))
    as [acc' Hrun].
  split; [exact Hmessage|]. split; [exact Htype|].
  exists acc'. split; [exact Hrun|].
  destruct (topup_slot_credits_one_state_leaf 0 noWitness acc' message w w' Hmessage Htype Hrun)
    as (stateLeaf & st & st' & _ & Hleaf & Hleaves & _ & _ & _ & _ & Hballots & Htree & _).
  split; [|split; [exact Hballots | exact Htree]].
  vm_compute in Hleaf. injection Hleaf as <-.
  rewrite Hleaves. vm_compute. reflexivity.
Defined.

(** The batch of the poll whose only message is the rejected vote. *)
Lemma idle_batch_witness :
  let w := Fixture.rejectedOnly in
  currentMessageBatchIndex (poll w) = Some (Num (Z.of_nat 0))
  ∧ (∀ i, i < 5 -> idleSlot (poll w) (0 + i))
  ∧ ∃ r, processBatch 5 0 noWitness w = (w, r).
Proof.
  intros w.
  assert (currentMessageBatchIndex (poll w) = Some (Num (Z.of_nat 0))) as Hindex
    by reflexivity.
  assert (∀ i, i < 5 -> idleSlot (poll w) (0 + i)) as Hidle.
  { intros i Hi.
    destruct i as [|[|[|[|[|i]]]]]; [| | | | |lia]; vm_compute; try exact I.
    eexists. reflexivity. }
  split; [exact Hindex|]. split; [exact Hidle|].
  exact (idle_batch_leaves_world 0 noWitness w Hindex Hidle).
Defined.

(** The copy of the poll whose batch was processed. *)
Lemma copy_witness :
  let w := Fixture.processed in
  ∃ q,
    copy w = (w, Ok q)
    ∧ stateCopied (poll w) = true
    ∧ stateCopied q = false
    ∧ stateTree q = None
    ∧ equals q (poll w) = true
    ∧ stateLeaves q = stateLeaves (poll w).
Proof.
  intros w.
  run copy at w as q Hrun.
  assert (stateCopied (poll w) = true) as Hstate by (vm_compute; reflexivity).
  clearbody w.
  destruct (copy_keeps_the_queue_and_drops_the_state_tree w _ q Hrun)
    as (Hworld & Hequals & _ & Hvoters & _ & _ & _ & Htree & Hcopied & _).
  exists q. rewrite Hworld in Hrun. injection Hvoters as Hleaves _ _.
  split; [exact Hrun|]. split; [exact Hstate|].
  split; [exact Hcopied|]. split; [exact Htree|]. split; [exact Hequals | exact Hleaves].
Defined.

(** The first step of the walk, with three ballots in blocks of two. *)
Lemma subsidy_index_witness :
  let w := Fixture.processedPairs in
  0 < subsidyBatchSize (batchSizes (poll w))
  ∧ rbi (poll w) ≤ cbi (poll w)
  ∧ cbi (poll w) < 2
  ∧ hasUnfinishedSubsidyCalculation (poll w) = true
  ∧ ∃ w',
      increaseSubsidyIndex w = (w', Ok tt)
      ∧ (rbi (poll w'), cbi (poll w')) = (0, 1)
      ∧ previousSubsidyIndexToString (poll w') = Some (0, 0)%Z.
Proof.
  intros w.
  assert (0 < subsidyBatchSize (batchSizes (poll w))) as Hsize by (vm_compute; lia).
  assert (rbi (poll w) ≤ cbi (poll w)) as Hle by (vm_compute; lia).
  assert (cbi (poll w) < 2) as Hlt by (vm_compute; lia).
  split; [exact Hsize|]. split; [exact Hle|]. split; [exact Hlt|].
  destruct (subsidy_index_walks_the_upper_triangle w Hsize Hle Hlt)
    as (Hleft & w' & Hrun & Hpair & _ & _ & Hprevious & _).
  split; [exact Hleft|].
  exists w'. split; [exact Hrun|]. split; [exact Hpair | exact Hprevious].
Defined.

(** The two subsidy batches of the first row of blocks. *)
Lemma subsidy_batches_witness :
  let w := Fixture.processedPairs in
  ∃ w1 w2 o1 o2,
    subsidyPerBatch w = (w1, Ok o1)
    ∧ subsidyPerBatch w1 = (w2, Ok o2)
    ∧ 0 < subsidyBatchSize (batchSizes (poll w))
    ∧ rbi (poll w) ≤ cbi (poll w)
    ∧ si_currentSubsidySalt o2 = si_newSubsidySalt o1
    ∧ si_currentSubsidyCommitment o2 = si_newSubsidyCommitment o1
    ∧ si_currentSubsidy o2 = subsidy (poll w1).
Proof.
  intros w.
  run subsidyPerBatch at w as o1 Hfirst.
  run subsidyPerBatch at (fst (subsidyPerBatch w)) as o2 Hsecond.
  assert (0 < subsidyBatchSize (batchSizes (poll w))) as Hsize by (vm_compute; lia).
  assert (rbi (poll w) ≤ cbi (poll w)) as Hle by (vm_compute; lia).
  set (w1 := fst (subsidyPerBatch w)) in *.
  set (w2 := fst (subsidyPerBatch w1)) in *.
  clearbody w2 w1 w.
  exists w1, w2, o1, o2.
  split; [exact Hfirst|]. split; [exact Hsecond|]. split; [exact Hsize|]. split; [exact Hle|].
  exact (subsidy_batches_chain w w1 w2 o1 o2 Hfirst Hsecond Hsize Hle).
Defined.

(** The two tally batches of the three ballots. *)
Lemma tally_batches_witness :
  let w := Fixture.processedPairs in
  ∃ w1 w2 o1 o2,
    tallyVotes w = (w1, Ok o1)
    ∧ tallyVotes w1 = (w2, Ok o2)
    ∧ 0 < tallyBatchSize (batchSizes (poll w))
    ∧ ti_currentTallyCommitment o2 = ti_newTallyCommitment o1
    ∧ ti_currentResultsRootSalt o2 = ti_newResultsRootSalt o1
    ∧ ti_currentResults o2 = tallyResult (poll w1).
Proof.
  intros w.
  run tallyVotes at w as o1 Hfirst.
  run tallyVotes at (fst (tallyVotes w)) as o2 Hsecond.
  assert (0 < tallyBatchSize (batchSizes (poll w))) as Hsize by (vm_compute; lia).
  set (w1 := fst (tallyVotes w)) in *.
  set (w2 := fst (tallyVotes w1)) in *.
  clearbody w2 w1 w.
  exists w1, w2, o1, o2.
  split; [exact Hfirst|]. split; [exact Hsecond|]. split; [exact Hsize|].
  destruct (tally_batches_chain w w1 w2 o1 o2 Hfirst Hsecond Hsize)
    as (Hcommitment & Hsalt & _ & _ & Hresults & _).
  split; [exact Hcommitment|]. split; [exact Hsalt | exact Hresults].
Defined.

(** The two batches of the three messages. *)
Lemma message_batches_witness :
  let w := Fixture.queuedPairs in
  ∃ w1 w2 former latter,
    processMessages 1 0 w = (w1, Ok former)
    ∧ processMessages 1 0 w1 = (w2, Ok latter)
    ∧ pmi_currentSbSalt latter = pmi_newSbSalt former
    ∧ pmi_currentSbCommitment latter = pmi_newSbCommitment former
    ∧ pmi_newSbCommitment former
      = hash3 (pmi_currentStateRoot latter) (pmi_currentBallotRoot latter)
          (pmi_newSbSalt former)
    ∧ numBatchesProcessed (poll w2) = numBatchesProcessed (poll w) + 2.
Proof.
  intros w.
  run (processMessages 1 0) at w as former Hformer.
  run (processMessages 1 0) at (fst (processMessages 1 0 w)) as latter Hlatter.
  set (w1 := fst (processMessages 1 0 w)) in *.
  set (w2 := fst (processMessages 1 0 w1)) in *.
  clearbody w2 w1 w.
  exists w1, w2, former, latter.
  split; [exact Hformer|]. split; [exact Hlatter|].
  exact (message_batches_chain 1 1 0 0 w w1 w2 former latter Hformer Hlatter).
Defined.

(** The lock after the first and after the second of the two batches. *)
Lemma lock_witness :
  let w := Fixture.queuedPairs in
  ∃ w1 w2 former latter,
    processMessages 1 0 w = (w1, Ok former)
    ∧ processMessages 1 0 w1 = (w2, Ok latter)
    ∧ numBatchesProcessed (poll w) = 0
    ∧ hasUnprocessedMessages (poll w1) = true
    ∧ MaciState.pollBeingProcessed (maci w1) = true
    ∧ MaciState.currentPollBeingProcessed (maci w1) = Some 0
    ∧ hasUnprocessedMessages (poll w2) = false
    ∧ MaciState.pollBeingProcessed (maci w2) = false.
Proof.
  intros w.
  run (processMessages 1 0) at w as former Hformer.
  run (processMessages 1 0) at (fst (processMessages 1 0 w)) as latter Hlatter.
  assert (numBatchesProcessed (poll w) = 0) as Hnone by reflexivity.
  set (w1 := fst (processMessages 1 0 w)) in *.
  set (w2 := fst (processMessages 1 0 w1)) in *.
  assert (hasUnprocessedMessages (poll w1) = true) as Hleft by (vm_compute; reflexivity).
  assert (hasUnprocessedMessages (poll w2) = false) as Hdone by (vm_compute; reflexivity).
  clearbody w2 w1 w.
  exists w1, w2, former, latter.
  split; [exact Hformer|]. split; [exact Hlatter|]. split; [exact Hnone|].
  split; [exact Hleft|].
  destruct (processMessages_releases_the_lock_with_the_last_batch 1 0 w w1 former Hformer)
    as [_ Hheld].
  destruct (Hheld Hleft) as [Hfirst Hby].
  split; [exact (Hfirst Hnone)|]. split; [exact (Hby (Hfirst Hnone))|]. split; [exact Hdone|].
  destruct (processMessages_releases_the_lock_with_the_last_batch 1 0 w1 w2 latter Hlatter)
    as [Hreleased _].
  exact (Hreleased Hdone).
Defined.

(** All the messages of the queue in batches of two. *)
Lemma processAllMessages_witness :
  let w := Fixture.queuedPairs in
  ∃ w' out,
    processAllMessages 1 2 w = (w', Ok out)
    ∧ out = (stateLeaves (poll w), ballots (poll w))
    ∧ stateLeaves (poll w) = [blankStateLeaf]
    ∧ stateLeaves (poll w') !! 1 = Some (StateLeaf.mk Fixture.voterKey 75 0)
    ∧ hasUnprocessedMessages (poll w) = true
    ∧ hasUnprocessedMessages (poll w') = false
    ∧ totalBatches (poll w') = Some 2
    ∧ numBatchesProcessed (poll w') = 2
    ∧ MaciState.pollBeingProcessed (maci w') = false.
Proof.
  intros w.
  run (processAllMessages 1 2) at w as out Hrun.
  assert (hasUnprocessedMessages (poll w) = true) as Hleft by (vm_compute; reflexivity).
  assert (stateLeaves (poll w) = [blankStateLeaf]) as Hbefore by reflexivity.
  set (w' := fst (processAllMessages 1 2 w)) in *.
  assert (stateLeaves (poll w') !! 1 = Some (StateLeaf.mk Fixture.voterKey 75 0)) as Hleaf
    by (vm_compute; reflexivity).
  assert (numBatchesProcessed (poll w') = 2) as Hcount by (vm_compute; reflexivity).
  clearbody w' w.
  destruct (processAllMessages_returns_the_leaves_and_ballots_it_started_from
              1 2 w w' out Hrun) as (Hout & Hdone & _ & _ & Hall).
  destruct (Hall Hleft) as (Htotal & _ & Hreleased).
  exists w', out.
  split; [exact Hrun|]. split; [exact Hout|]. split; [exact Hbefore|]. split; [exact Hleaf|].
  split; [exact Hleft|]. split; [exact Hdone|].
  split; [by rewrite Htotal, Hcount|]. split; [exact Hcount | exact Hreleased].
Defined.

(** Two batches are left: five turns of the loop run as two do. *)
Lemma processAllMessages_rounds_witness :
  let w := Fixture.queuedPairs in
  totalBatches (poll w) = Some 2
  ∧ 2 ≤ numBatchesProcessed (poll w) + 2
  ∧ processAllMessages 1 (2 + 3) w = processAllMessages 1 2 w.
Proof.
  intros w.
  assert (totalBatches (poll w) = Some 2) as Htotal by (vm_compute; reflexivity).
  assert (2 ≤ numBatchesProcessed (poll w) + 2) as Hrounds by (vm_compute; lia).
  clearbody w.
  split; [exact Htotal|]. split; [exact Hrounds|].
  exact (processAllMessages_takes_one_round_for_each_batch_left 1 2 3 2 w Htotal Hrounds).
Defined.

(** The copy of the state of the two sign-ups into the poll that holds the
    three messages: three state leaves, three ballots, three leaves of the
    ballot tree. *)
Lemma copyStateFromMaci_witness :
  let w := Fixture.queued in
  let w' := Fixture.ready in
  copyStateFromMaci w = (w', Ok tt)
  ∧ length (ballots (poll w)) = 1
  ∧ stateLeaves (poll w') = MaciState.stateLeaves Fixture.maciState
  ∧ length (ballots (poll w')) = 3
  ∧ ∃ bt,
      ballotTree (poll w') = Some bt
      ∧ QuinTree.nextIndex bt = 3
      ∧ (∀ i, QuinTree.leaves bt !! i
              = if decide (i < 3) then Some (hashBallot (emptyBallot (poll w))) else None).
Proof.
  intros w w'.
  assert (copyStateFromMaci w = (w', Ok tt)) as Hrun by (vm_compute; reflexivity).
  assert (length (ballots (poll w)) = 1) as Hone by reflexivity.
  assert (length (MaciState.stateLeaves (maci w)) - length (ballots (poll w)) = 2) as Hmissing
    by reflexivity.
  assert (MaciState.stateLeaves (maci w) = MaciState.stateLeaves Fixture.maciState) as Hmaci
    by reflexivity.
  clearbody w' w.
  split; [exact Hrun|]. split; [exact Hone|].
  destruct (copyStateFromMaci_starts_a_ballot_tree_of_empty_ballots w w' Hrun)
    as (_ & _ & _ & bt & Hpoll & _ & _ & _ & Hnext & _ & Hleaves & Hballots).
  rewrite Hmissing in Hnext, Hleaves.
  split; [by rewrite Hpoll|]. split; [by rewrite (Hballots Hone), Hnext|].
  exists bt. split; [by rewrite Hpoll|]. split; [exact Hnext | exact Hleaves].
Defined.
